(** * The ability/feature extraction engine of draw-steel-data-md

    A shallow embedding of [scripts/parse_helpers.py], [scripts/parse_abilities.py]
    and [scripts/parse_features.py]: the damage clause normalizer, the power roll
    segmenter, the effect section extractor, the component order reconstructor and
    the two assemblers (stand-alone ability files, abilities embedded in features),
    and the helpers around them: the batch over a directory, the two parsers of
    front matter, stat blocks, slugs, links and the tables of a feature.

    Python values are modelled as they are in the scripts:
    - a [str] is the list of its Unicode code points;
    - a [dict] is an insertion-ordered association list;
    - a regular expression is parsed from the pattern text of the script and run
      by a backtracking matcher that enumerates the matches in the order in
      which Python's [re] tries them;
    - what Python takes from its Unicode database (white space, digits, letters,
      case mappings) is a parameter [db] of the whole development. *)

From Stdlib Require Import String Ascii List NArith ZArith PeanoNat Bool Lia.
Import ListNotations.

(** ** Text *)

Definition str := list N.

(** UTF-8 decoding, to write the scripts' literals as they are in the source. *)
Fixpoint utf8 (bs : list N) : str :=
  match bs with
  | [] => []
  | b0 :: t0 =>
    if (b0 <? 128)%N then b0 :: utf8 t0
    else match t0 with
    | [] => []
    | b1 :: t1 =>
      if (b0 <? 224)%N then ((b0 - 192) * 64 + (b1 - 128))%N :: utf8 t1
      else match t1 with
      | [] => []
      | b2 :: t2 =>
        if (b0 <? 240)%N
        then ((b0 - 224) * 4096 + (b1 - 128) * 64 + (b2 - 128))%N :: utf8 t2
        else match t2 with
        | [] => []
        | b3 :: t3 =>
          ((b0 - 240) * 262144 + (b1 - 128) * 4096
           + (b2 - 128) * 64 + (b3 - 128))%N :: utf8 t3
        end
      end
    end
  end.

Definition py (s : string) : str :=
  utf8 (map N_of_ascii (list_ascii_of_string s)).

Definition NL : N := 10%N.

(** What the scripts take from Python's Unicode database. *)
Record unicode_db := {
  isspace : N -> bool;        (* str.strip, str.split, the class \s *)
  isdecimal : N -> bool;      (* the class \d *)
  decimal_value : N -> N;     (* int() *)
  isalnum : N -> bool;        (* the class \w and \b, with the underscore *)
  isalpha : N -> bool;        (* str.isalpha *)
  tolower : N -> N;           (* simple case mappings of re.IGNORECASE *)
  toupper : N -> N;
  str_lower : str -> str;     (* str.lower *)
  str_upper : str -> str      (* str.upper *)
}.

(** The database on ASCII letters and digits, with all of Unicode's white
    space; the concrete evaluations below use texts within its range. *)
Definition between (lo hi c : N) : bool := ((lo <=? c) && (c <=? hi))%N.

Definition ascii_lower (c : N) : N := if between 65 90 c then (c + 32)%N else c.
Definition ascii_upper (c : N) : N := if between 97 122 c then (c - 32)%N else c.
Definition ascii_alpha (c : N) : bool := between 65 90 c || between 97 122 c.
Definition ascii_digit (c : N) : bool := between 48 57 c.

Definition unicode_space (c : N) : bool :=
  between 9 13 c || between 28 32 c || (c =? 133)%N || (c =? 160)%N
  || (c =? 5760)%N || between 8192 8202 c || (c =? 8232)%N || (c =? 8233)%N
  || (c =? 8239)%N || (c =? 8287)%N || (c =? 12288)%N.

Definition ascii_db : unicode_db := {|
  isspace := unicode_space;
  isdecimal := ascii_digit;
  decimal_value := fun c => (c - 48)%N;
  isalnum := fun c => ascii_alpha c || ascii_digit c;
  isalpha := ascii_alpha;
  tolower := ascii_lower;
  toupper := ascii_upper;
  str_lower := map ascii_lower;
  str_upper := map ascii_upper
|}.

Definition str_eqb (a b : str) : bool :=
  if list_eq_dec N.eq_dec a b then true else false.

Fixpoint startswith (p s : str) : bool :=
  match p, s with
  | [], _ => true
  | a :: p', b :: s' => (a =? b)%N && startswith p' s'
  | _ :: _, [] => false
  end.

Definition endswith (p s : str) : bool := startswith (rev p) (rev s).

(** [sub in s] *)
Fixpoint contains (sub s : str) : bool :=
  startswith sub s || match s with [] => false | _ :: t => contains sub t end.

Fixpoint lstrip_by (f : N -> bool) (s : str) : str :=
  match s with
  | c :: t => if f c then lstrip_by f t else s
  | [] => []
  end.

Definition rstrip_by (f : N -> bool) (s : str) : str := rev (lstrip_by f (rev s)).
Definition strip_by (f : N -> bool) (s : str) : str := rstrip_by f (lstrip_by f s).

Definition one_of (chars : str) (c : N) : bool := existsb (N.eqb c) chars.

(** [s.split(sep)] for a separator of one character *)
Fixpoint split_chr (sep : N) (s : str) : list str :=
  match s with
  | [] => [[]]
  | c :: t =>
    if (c =? sep)%N then [] :: split_chr sep t
    else match split_chr sep t with
         | h :: r => (c :: h) :: r
         | [] => [[c]]
         end
  end.

Fixpoint join (sep : str) (parts : list str) : str :=
  match parts with
  | [] => []
  | [p] => p
  | p :: rest => p ++ sep ++ join sep rest
  end.

(** [s.replace(old, new)] for a non-empty [old]; [skip] counts the characters
    of an occurrence still to pass over. *)
Fixpoint replace_from (old new : str) (skip : nat) (s : str) : str :=
  match s with
  | [] => []
  | c :: t =>
    match skip with
    | S k => replace_from old new k t
    | O => if startswith old s
           then new ++ replace_from old new (length old - 1) t
           else c :: replace_from old new 0 t
    end
  end.

Definition replace (old new s : str) : str := replace_from old new 0 s.

(** [s[a:b]] for [0 <= a <= b] *)
Definition slice (a b : nat) (s : str) : str := firstn (b - a) (skipn a s).

(** ** Regular expressions

    The subset of Python's [re] syntax that the scripts use: literals,
    classes, [.], the escapes [\s \d \w \b \Z \n], anchors, groups,
    look-ahead, alternation, greedy and lazy repetition. *)

Inductive citem :=
| IChr (c : N)
| IRange (lo hi : N)
| ISpace
| IDigit
| IWord.

Inductive regex :=
| Eps
| Chr (c : N)
| Any
| Cls (neg : bool) (items : list citem)
| Bol
| Eol
| Eos
| WordB
| Cat (r1 r2 : regex)
| Alt (r1 r2 : regex)
| Rep (lo : nat) (hi : option nat) (greedy : bool) (r : regex)
| Grp (k : nat) (r : regex)
| Look (r : regex).

Record flags := { ignorecase : bool; dotall : bool; multiline : bool }.

Definition no_flags := {| ignorecase := false; dotall := false; multiline := false |}.
Definition IGNORECASE := {| ignorecase := true; dotall := false; multiline := false |}.
Definition DOTALL := {| ignorecase := false; dotall := true; multiline := false |}.
Definition MULTILINE := {| ignorecase := false; dotall := false; multiline := true |}.

Module Syntax.

Definition ch (a : ascii) : N := N_of_ascii a.
Definition eqc (a : ascii) (c : N) : bool := (c =? ch a)%N.

Definition esc_item (e : N) : citem :=
  if eqc "s" e then ISpace
  else if eqc "d" e then IDigit
  else if eqc "w" e then IWord
  else if eqc "n" e then IChr NL
  else IChr e.

Definition esc_atom (e : N) : regex :=
  if eqc "s" e then Cls false [ISpace]
  else if eqc "d" e then Cls false [IDigit]
  else if eqc "w" e then Cls false [IWord]
  else if eqc "b" e then WordB
  else if eqc "Z" e then Eos
  else if eqc "n" e then Chr NL
  else Chr e.

(** The body of a class [[...]], after the optional [^]. *)
Fixpoint p_class (p : str) (acc : list citem) : option (list citem * str) :=
  match p with
  | [] => None
  | c :: t =>
    if eqc "]" c then Some (rev acc, t)
    else if eqc "\" c then
      match t with
      | e :: t' => p_class t' (esc_item e :: acc)
      | [] => None
      end
    else match t with
         | d :: h :: t' =>
           if eqc "-" d && negb (eqc "]" h)
           then p_class t' (IRange c h :: acc)
           else p_class t (IChr c :: acc)
         | _ => p_class t (IChr c :: acc)
         end
  end.

Fixpoint p_nat (p : str) (acc : nat) : nat * str :=
  match p with
  | c :: t => if ascii_digit c then p_nat t (acc * 10 + N.to_nat (c - 48)) else (acc, p)
  | [] => (acc, p)
  end.

(** A quantifier, if one follows: its bounds and the rest of the pattern. *)
Definition p_bounds (p : str) : option (nat * option nat * str) :=
  match p with
  | c :: t =>
    if eqc "*" c then Some (0, None, t)
    else if eqc "+" c then Some (1, None, t)
    else if eqc "?" c then Some (0, Some 1, t)
    else if eqc "{" c then
      let '(lo, t1) := p_nat t 0 in
      match t1 with
      | d :: t2 =>
        if eqc "}" d then Some (lo, Some lo, t2)
        else if eqc "," d then
          match t2 with
          | e :: t3 =>
            if eqc "}" e then Some (lo, None, t3)
            else let '(hi, t4) := p_nat t2 0 in
                 match t4 with
                 | f :: t5 => if eqc "}" f then Some (lo, Some hi, t5) else None
                 | [] => None
                 end
          | [] => None
          end
        else None
      | [] => None
      end
    else None
  | [] => None
  end.

Definition quantified (a : regex) (p : str) : regex * str :=
  match p_bounds p with
  | Some (lo, hi, t) =>
    match t with
    | q :: t' => if eqc "?" q then (Rep lo hi false a, t') else (Rep lo hi true a, t)
    | [] => (Rep lo hi true a, t)
    end
  | None => (a, p)
  end.

Definition cat (a b : regex) : regex :=
  match b with Eps => a | _ => Cat a b end.

Definition closing (wrap : regex -> regex) (res : option (regex * str * nat))
  : option (regex * str * nat) :=
  match res with
  | Some (r, c :: rest, g) => if eqc ")" c then Some (wrap r, rest, g) else None
  | _ => None
  end.

(** Alternatives, sequences and atoms; [g] is the number of the next
    capturing group, [fuel] bounds the nesting by the pattern's length. *)
Fixpoint p_alt (fuel : nat) (p : str) (g : nat) : option (regex * str * nat) :=
  match fuel with
  | O => None
  | S f =>
    match p_seq f p g with
    | Some (r1, c :: rest, g1) =>
      if eqc "|" c then
        match p_alt f rest g1 with
        | Some (r2, rest2, g2) => Some (Alt r1 r2, rest2, g2)
        | None => None
        end
      else Some (r1, c :: rest, g1)
    | other => other
    end
  end
with p_seq (fuel : nat) (p : str) (g : nat) : option (regex * str * nat) :=
  match fuel with
  | O => None
  | S f =>
    match p with
    | [] => Some (Eps, [], g)
    | c :: _ =>
      if eqc "|" c || eqc ")" c then Some (Eps, p, g)
      else match p_atom f p g with
           | Some (a, rest, g1) =>
             let '(a', rest1) := quantified a rest in
             match p_seq f rest1 g1 with
             | Some (r, rest2, g2) => Some (cat a' r, rest2, g2)
             | None => None
             end
           | None => None
           end
    end
  end
with p_atom (fuel : nat) (p : str) (g : nat) : option (regex * str * nat) :=
  match fuel with
  | O => None
  | S f =>
    match p with
    | [] => None
    | c :: t =>
      if eqc "(" c then
        match t with
        | q :: k :: t' =>
          if eqc "?" q then
            if eqc ":" k then closing (fun r => r) (p_alt f t' g)
            else if eqc "=" k then closing Look (p_alt f t' g)
            else None
          else closing (Grp g) (p_alt f t (S g))
        | _ => closing (Grp g) (p_alt f t (S g))
        end
      else if eqc "[" c then
        match t with
        | n :: t' =>
          if eqc "^" n
          then match p_class t' [] with
               | Some (items, rest) => Some (Cls true items, rest, g)
               | None => None
               end
          else match p_class t [] with
               | Some (items, rest) => Some (Cls false items, rest, g)
               | None => None
               end
        | [] => None
        end
      else if eqc "\" c then
        match t with
        | e :: t' => Some (esc_atom e, t', g)
        | [] => None
        end
      else if eqc "." c then Some (Any, t, g)
      else if eqc "^" c then Some (Bol, t, g)
      else if eqc "$" c then Some (Eol, t, g)
      else Some (Chr c, t, g)
    end
  end.

(** [re.compile(pattern)]; a pattern outside the subset compiles to one that
    never matches. *)
Definition never : regex := Cls false [].

Definition compile (pattern : str) : regex :=
  match p_alt (3 * length pattern + 3) pattern 1 with
  | Some (r, [], _) => r
  | _ => never
  end.

(** [re.escape(s)] for a text without special characters: the text itself. *)
Fixpoint literal (s : str) : regex :=
  match s with
  | [] => Eps
  | [c] => Chr c
  | c :: t => Cat (Chr c) (literal t)
  end.

End Syntax.

Definition re (pattern : string) : regex := Syntax.compile (py pattern).

Arguments py : simpl never.
Arguments re : simpl never.

(** ** Python values

    The records the scripts build are [dict]s of strings, lists and nested
    [dict]s; a [dict] keeps its keys in insertion order. *)

Open Scope string_scope.
Open Scope list_scope.
Open Scope nat_scope.

#[warnings="-register-all"]
Inductive value :=
| VNone
| VBool (b : bool)
| VInt (n : Z)
| VStr (s : str)
| VList (l : list value)
| VDict (d : list (string * value)).

Definition dict := list (string * value).

(** Truth value testing: [if v:] *)
Definition truthy (v : value) : bool :=
  match v with
  | VNone => false
  | VBool b => b
  | VInt n => negb (Z.eqb n 0)
  | VStr s => negb (Nat.eqb (length s) 0)
  | VList l => negb (Nat.eqb (length l) 0)
  | VDict d => negb (Nat.eqb (length d) 0)
  end.

(** [k in d] *)
Fixpoint has_key (k : string) (d : dict) : bool :=
  match d with
  | [] => false
  | (k', _) :: rest => String.eqb k' k || has_key k rest
  end.

(** [d.get(k)] *)
Fixpoint dget (k : string) (d : dict) : value :=
  match d with
  | [] => VNone
  | (k', v) :: rest => if String.eqb k' k then v else dget k rest
  end.

(** [d[k] = v] : a key already there keeps its place. *)
Fixpoint dset (k : string) (v : value) (d : dict) : dict :=
  match d with
  | [] => [(k, v)]
  | (k', v') :: rest =>
    if String.eqb k' k then (k', v) :: rest else (k', v') :: dset k v rest
  end.

(** [d.pop(k)] : the dictionary without [k]. *)
Fixpoint dpop (k : string) (d : dict) : dict :=
  match d with
  | [] => []
  | (k', v') :: rest => if String.eqb k' k then rest else (k', v') :: dpop k rest
  end.

Definition keys (d : dict) : list string := map fst d.

(** [v.get(k)] and [k in v] on a value that is a [dict]. *)
Definition vget (k : string) (v : value) : value :=
  match v with VDict d => dget k d | _ => VNone end.

Definition vhas (k : string) (v : value) : bool :=
  match v with VDict d => has_key k d | _ => false end.

Definition nonempty (s : str) : bool := negb (Nat.eqb (length s) 0).

(** A call either returns a value or raises an exception that nothing in
    the script catches. *)
Inductive outcome (A : Type) :=
| Returns (a : A)
| Raises.
Arguments Returns {A} a.
Arguments Raises {A}.

(** ** Python's text operations and matcher, over a Unicode database *)

Section Python.
Variable db : unicode_db.

Definition strip : str -> str := strip_by (isspace db).
Definition lower : str -> str := str_lower db.
Definition upper : str -> str := str_upper db.

(** [s.isalpha()] *)
Definition str_isalpha (s : str) : bool :=
  negb (Nat.eqb (length s) 0) && forallb (isalpha db) s.

(** [s.split()] : the maximal runs of characters that are not white space;
    [cur] is the current run, reversed. *)
Fixpoint split_ws_from (cur : str) (s : str) : list str :=
  match s with
  | [] => match cur with [] => [] | _ => [rev cur] end
  | c :: t =>
    if isspace db c
    then match cur with [] => split_ws_from [] t | _ => rev cur :: split_ws_from [] t end
    else split_ws_from (c :: cur) t
  end.

Definition split_ws (s : str) : list str := split_ws_from [] s.

(** [int(s)] on a run of decimal digits *)
Definition int_of (s : str) : N :=
  fold_left (fun acc c => (acc * 10 + decimal_value db c)%N) s 0%N.


(** *** Matching

    [run r i c] lists the ways [r] matches at position [i] of the subject, as
    end position and captured groups, in the order in which a backtracking
    matcher finds them: the head of the list is the match Python reports. *)

Definition caps := list (nat * (nat * nat)).
Definition mstate := (nat * caps)%type.

(** Between [lo] and [hi] repetitions of [step]; an iteration beyond the
    minimum has to consume input, which bounds their number by [fuel]. *)
Fixpoint rep_loop (step : nat -> caps -> list mstate) (greedy : bool)
    (fuel lo : nat) (hi : option nat) (i : nat) (c : caps) : list mstate :=
  let stop := match lo with O => [(i, c)] | S _ => [] end in
  match fuel with
  | O => stop
  | S fuel' =>
    let more :=
      match hi with
      | Some O => []
      | _ =>
        flat_map
          (fun st : mstate =>
             if (0 <? lo) || (i <? fst st)
             then rep_loop step greedy fuel' (pred lo) (option_map pred hi)
                           (fst st) (snd st)
             else [])
          (step i c)
      end in
    if greedy then more ++ stop else stop ++ more
  end.

Section Matching.
Variable fl : flags.
Variable s : str.

Definition is_word (c : N) : bool := isalnum db c || (c =? 95)%N.

Definition item_has (it : citem) (c : N) : bool :=
  match it with
  | IChr a => (c =? a)%N
  | IRange lo hi => between lo hi c
  | ISpace => isspace db c
  | IDigit => isdecimal db c
  | IWord => is_word c
  end.

Definition chr_matches (a c : N) : bool :=
  if ignorecase fl then (tolower db c =? tolower db a)%N else (c =? a)%N.

(** Under IGNORECASE a character is compared in lower case, and the letters
    and ranges of a class stand for both of their cases. *)
Definition item_has_ci (it : citem) (l : N) : bool :=
  match it with
  | IChr _ | IRange _ _ => item_has it l || item_has it (toupper db l)
  | _ => item_has it l
  end.

Definition cls_matches (neg : bool) (items : list citem) (c : N) : bool :=
  xorb neg
    (if ignorecase fl
     then existsb (fun it => item_has_ci it (tolower db c)) items
     else existsb (fun it => item_has it c) items).

Definition char_at (i : nat) : option N := nth_error s i.

Definition word_at (i : nat) : bool :=
  match char_at i with Some c => is_word c | None => false end.

Definition at_bol (i : nat) : bool :=
  match i with
  | O => true
  | S j => multiline fl && match char_at j with Some c => (c =? NL)%N | None => false end
  end.

Definition at_eol (i : nat) : bool :=
  (i =? length s)
  || match char_at i with
     | Some c => (c =? NL)%N && (multiline fl || (S i =? length s))
     | None => false
     end.

Definition at_wordb (i : nat) : bool :=
  xorb (match i with O => false | S j => word_at j end) (word_at i).

Definition one_char (ok : N -> bool) (i : nat) (c : caps) : list mstate :=
  match char_at i with
  | Some x => if ok x then [(S i, c)] else []
  | None => []
  end.

Definition zero_width (ok : bool) (i : nat) (c : caps) : list mstate :=
  if ok then [(i, c)] else [].

Fixpoint run (r : regex) (i : nat) (c : caps) {struct r} : list mstate :=
  match r with
  | Eps => [(i, c)]
  | Chr a => one_char (chr_matches a) i c
  | Any => one_char (fun x => dotall fl || negb (x =? NL)%N) i c
  | Cls neg items => one_char (cls_matches neg items) i c
  | Bol => zero_width (at_bol i) i c
  | Eol => zero_width (at_eol i) i c
  | Eos => zero_width (i =? length s) i c
  | WordB => zero_width (at_wordb i) i c
  | Cat r1 r2 => flat_map (fun st : mstate => run r2 (fst st) (snd st)) (run r1 i c)
  | Alt r1 r2 => run r1 i c ++ run r2 i c
  | Rep lo hi greedy r1 => rep_loop (run r1) greedy (length s - i + lo) lo hi i c
  | Grp k r1 => map (fun st : mstate => (fst st, (k, (i, fst st)) :: snd st)) (run r1 i c)
  | Look r1 =>
    match run r1 i c with
    | [] => []
    | st :: _ => [(i, snd st)]
    end
  end.

(** A match object: [m.start()], [m.end()] and the groups. *)
Record rmatch := { m_start : nat; m_end : nat; m_caps : caps }.

Fixpoint span_of (k : nat) (c : caps) : option (nat * nat) :=
  match c with
  | [] => None
  | (k', sp) :: rest => if k' =? k then Some sp else span_of k rest
  end.

(** [m.group(k)]; [None] when the group took no part in the match. *)
Definition group (k : nat) (m : rmatch) : option str :=
  match span_of k (m_caps m) with
  | Some (a, b) => Some (slice a b s)
  | None => None
  end.

Definition match_at (r : regex) (i : nat) : option rmatch :=
  match run r i [] with
  | [] => None
  | st :: _ => Some {| m_start := i; m_end := fst st; m_caps := snd st |}
  end.

(** The leftmost match starting at [i], [i + 1], ..., [i + n]. *)
Fixpoint search_upto (r : regex) (n : nat) (i : nat) : option rmatch :=
  match match_at r i with
  | Some m => Some m
  | None => match n with O => None | S n' => search_upto r n' (S i) end
  end.

Definition search_from (r : regex) (i : nat) : option rmatch :=
  if i <=? length s then search_upto r (length s - i) i else None.

(** The matches of [re.finditer]: each search resumes where the last match
    ended (one further after an empty match; no pattern of the scripts
    matches the empty text). *)
Fixpoint finditer_from (r : regex) (fuel : nat) (i : nat) : list rmatch :=
  match fuel with
  | O => []
  | S fuel' =>
    match search_from r i with
    | None => []
    | Some m =>
      m :: finditer_from r fuel'
             (if m_end m =? m_start m then S (m_end m) else m_end m)
    end
  end.

End Matching.

(** [re.search(r, s, flags)] *)
Definition re_search (fl : flags) (r : regex) (s : str) : option rmatch :=
  search_from fl s r 0.

(** [re.finditer(r, s, flags)] *)
Definition re_finditer (fl : flags) (r : regex) (s : str) : list rmatch :=
  finditer_from fl s r (S (length s)) 0.

(** [m.group(k)] of a group known to take part in every match *)
Definition grp (s : str) (k : nat) (m : rmatch) : str :=
  match group s k m with Some g => g | None => [] end.

(** The replacement template of [re.sub]: [\1] ... [\9] stand for groups. *)
Fixpoint expand (s : str) (m : rmatch) (template : str) : str :=
  match template with
  | [] => []
  | c :: t =>
    if (c =? 92)%N then
      match t with
      | d :: t' =>
        if between 49 57 d
        then grp s (N.to_nat (d - 48)) m ++ expand s m t'
        else c :: expand s m t
      | [] => [c]
      end
    else c :: expand s m t
  end.

(** The text between the matches, each match replaced by [f m]. *)
Fixpoint splice (s : str) (f : rmatch -> str) (pos : nat) (ms : list rmatch) : str :=
  match ms with
  | [] => skipn pos s
  | m :: rest => slice pos (m_start m) s ++ f m ++ splice s f (m_end m) rest
  end.

(** [re.sub(r, template, s, flags)] *)
Definition re_sub (fl : flags) (r : regex) (template : str) (s : str) : str :=
  splice s (fun m => expand s m template) 0 (re_finditer fl r s).

(** [re.split(r, s, flags)] for a pattern without groups *)
Fixpoint pieces (s : str) (pos : nat) (ms : list rmatch) : list str :=
  match ms with
  | [] => [skipn pos s]
  | m :: rest => slice pos (m_start m) s :: pieces s (m_end m) rest
  end.

Definition re_split (fl : flags) (r : regex) (s : str) : list str :=
  pieces s 0 (re_finditer fl r s).



(** ** scripts/parse_helpers.py *)

(** *** parse_damage_clause

    The second definition of the module (the one in force after import). *)

Definition damage_clause_re : regex :=
  re "([0-9dD\w\s+\-\*\/\(\),]+?)(?:\s+([a-zA-Z]+(?:\s+[a-zA-Z]+)*))?\s+damage".

Definition equal_to_re : regex :=
  re "([A-Za-z]+)\s+damage\s+equal to\s+([^;]+)".

(** [tokens = re.split(',|\bor\b', raw); tokens = [t.strip() for t in tokens if t.strip()]] *)
Definition clause_tokens (raw : str) : list str :=
  map strip
    (filter (fun t => nonempty (strip t)) (re_split IGNORECASE (re ",|\bor\b") raw)).

(** [len(t) == 1 and t.isalpha()] *)
Definition single_letter (t : str) : bool :=
  Nat.eqb (length t) 1 && str_isalpha t.

(** The candidate the primary pattern yields: the formula text, the type and
    the characteristics alternatives (the local variables [formula_candidate],
    [damage_type] and [char_list] when the validation is reached). *)
Record candidate := {
  formula_candidate : str;
  damage_type : option str;
  char_list : option (list str)
}.

Definition lower_opt (t : str) : option str :=
  if nonempty t then Some (lower t) else None.

Definition damage_candidate (part : str) (m : rmatch) : candidate :=
  let raw := rstrip_by (one_of (py ",")) (strip (grp part 1 m)) in
  let damage_type_raw : option str :=
    match group part 2 m with
    | Some g => if nonempty g then Some g else None
    | None => None
    end in
  let tokens := clause_tokens raw in
  let cand0 := match tokens with t :: _ => t | [] => raw end in
  let chars0 : option (list str) :=
    if (1 <? length tokens)%nat && forallb single_letter (tl tokens)
    then Some (map upper (tl tokens)) else None in
  let plain := {| formula_candidate := cand0;
                  damage_type := option_map lower damage_type_raw;
                  char_list := chars0 |} in
  match damage_type_raw with
  | Some t =>
    let parts := filter nonempty (split_ws t) in
    match parts with
    | p0 :: _ :: _ =>
      if single_letter p0 then
        let lead := upper p0 in
        {| formula_candidate :=
             match re_search no_flags
                     (Cat WordB (Cat (Syntax.literal lead) WordB)) cand0 with
             | Some _ => cand0
             | None => strip (cand0 ++ py " " ++ lead)
             end;
           damage_type := lower_opt (strip (join (py " ") (tl parts)));
           char_list :=
             match chars0 with
             | Some (c :: cs) => Some (lead :: c :: cs)
             | _ => Some [lead]
             end |}
      else plain
    | _ => plain
    end
  | None => plain
  end.

(** The validation of the candidate: a digit, a dice expression, a
    characteristic letter standing alone, or the word "level". *)
Definition looks_like_formula (cand : str) : bool :=
  match re_search no_flags (re "\d|\d+d\d+|\b[AaMmRrPpIi]\b") cand with
  | Some _ => true
  | None =>
    match re_search IGNORECASE (re "\blevel\b|your level") cand with
    | Some _ => true
    | None => false
    end
  end.

Definition normalize_formula (cand : str) : str :=
  let formula := re_sub no_flags (re "\*\*([^*]+)\*\*") (py "\1") cand in
  let formula := replace [8212%N] (py "-") (replace [8211%N] (py "-") formula) in
  let formula := re_sub no_flags (re "\s*([+\-])\s*") (py " \1 ") formula in
  strip (re_sub no_flags (re "\s+") (py " ") formula).

Definition damage_record (c : candidate) : value :=
  let parsed := [("formula", VStr (normalize_formula (formula_candidate c)))] in
  let parsed :=
    match damage_type c with
    | Some (x :: t) => dset "type" (VStr (x :: t)) parsed
    | _ => parsed
    end in
  let parsed :=
    match char_list c with
    | Some (x :: l) => dset "characteristics" (VList (map VStr (x :: l))) parsed
    | _ => parsed
    end in
  VDict parsed.

(** The primary pattern: the record, when the pattern matches and its
    candidate is validated. *)
Definition primary_clause (part : str) : option value :=
  match re_search IGNORECASE damage_clause_re part with
  | Some m =>
    let c := damage_candidate part m in
    if looks_like_formula (formula_candidate c) then Some (damage_record c) else None
  | None => None
  end.

(** The secondary pattern: "Type damage equal to X". *)
Definition equal_to_clause (part : str) : option value :=
  match re_search IGNORECASE equal_to_re part with
  | Some m2 =>
    Some (VDict [("formula", VStr (re_sub no_flags (re "\s+") (py " ")
                                     (strip (grp part 2 m2))));
                 ("type", VStr (lower (grp part 1 m2)))])
  | None => None
  end.

Definition parse_damage_clause (part : str) : value :=
  if negb (nonempty part) || negb (contains (py "damage") (lower part)) then VNone
  else
    match primary_clause part with
    | Some parsed => parsed
    | None =>
      match equal_to_clause part with
      | Some parsed => parsed
      | None => VNone
      end
    end.

(** *** parse_stat_block *)

(** [int(s)]: the value of a decimal literal (white space around it, a sign,
    digits, single underscores between digits), or [None] for [ValueError]. *)
Fixpoint digit_groups (prev_digit : bool) (acc : N) (s : str) : option N :=
  match s with
  | [] => if prev_digit then Some acc else None
  | c :: t =>
    if isdecimal db c then digit_groups true (acc * 10 + decimal_value db c)%N t
    else if (c =? 95)%N && prev_digit then
      match t with
      | d :: _ => if isdecimal db d then digit_groups false acc t else None
      | [] => None
      end
    else None
  end.

Definition py_int (s : str) : option Z :=
  match strip s with
  | [] => None
  | c :: t =>
    if (c =? 45)%N then option_map (fun n => (- Z.of_N n)%Z) (digit_groups false 0%N t)
    else if (c =? 43)%N then option_map Z.of_N (digit_groups false 0%N t)
    else option_map Z.of_N (digit_groups false 0%N (c :: t))
  end.

(** [try: stats[k] = int(v) except (ValueError, TypeError): stats[k] = v] *)
Definition int_or_text (v : str) : value :=
  match py_int v with Some n => VInt n | None => VStr v end.

(** [extract_value(cell)]: the bold text of the cell, or the cell up to a
    line break tag; [None] for an empty cell or a dash. *)
Definition extract_value (cell : str) : option str :=
  let cell := strip cell in
  let value :=
    match re_search no_flags (re "\*\*([^*]+)\*\*") cell with
    | Some bold_match => strip (grp cell 1 bold_match)
    | None => strip (re_sub no_flags (re "<br/>.*") [] cell)
    end in
  if nonempty value && negb (str_eqb value (py "-")) then Some value else None.

(** [split_row(line)] *)
Definition split_row (line : str) : list str :=
  map strip (split_chr 124%N (strip_by (one_of (py "|")) line)).

Definition cell (row : list str) (i : nat) : str := nth i row [].

(** [v = extract_value(row[i]); if v: stats[k] = conv(v)] *)
Definition put_cell (conv : str -> value) (k : string) (row : list str) (i : nat)
    (stats : dict) : dict :=
  match extract_value (cell row i) with
  | Some v => dset k (conv v) stats
  | None => stats
  end.

Definition level_value (level_val : str) : value :=
  match re_search no_flags (re "Level\s+(\d+)") level_val with
  | Some level_match => VInt (Z.of_N (int_of (grp level_val 1 level_match)))
  | None => VStr level_val
  end.

Definition put_ev (row : list str) (stats : dict) : dict :=
  match extract_value (cell row 4) with
  | Some ev =>
    if startswith (py "EV") ev then
      dset "ev"
        (match re_search no_flags (re "EV\s+(.+)") ev with
         | Some ev_match => VStr (strip (grp ev 1 ev_match))
         | None => VStr ev
         end) stats
    else stats
  | None => stats
  end.

(** The inner [parse_stat_table_fields] of [parse_stat_block]. *)
Definition stat_block_table_fields (table : str) : dict :=
  if negb (nonempty table) then []
  else
    let lines := split_chr NL (strip table) in
    if length lines <? 3 then []
    else
      let row1 := split_row (nth 0 lines []) in
      let row2 := split_row (nth 2 lines []) in
      let row3 := if 3 <? length lines then split_row (nth 3 lines []) else [] in
      let stats : dict := [] in
      let stats :=
        if 5 <=? length row1 then
          put_ev row1
            (put_cell VStr "role" row1 3
               (put_cell level_value "level" row1 2
                  (put_cell VStr "ancestry" row1 0 stats)))
        else stats in
      let stats :=
        if 5 <=? length row2 then
          put_cell int_or_text "free_strike" row2 4
            (put_cell int_or_text "stability" row2 3
               (put_cell int_or_text "stamina" row2 2
                  (put_cell int_or_text "speed" row2 1
                     (put_cell VStr "size" row2 0 stats))))
        else stats in
      if 5 <=? length row3 then
        put_cell VStr "weaknesses" row3 4
          (put_cell VStr "with_captain" row3 3
             (put_cell VStr "movement" row3 1
                (put_cell VStr "immunities" row3 0 stats)))
      else stats.

(** The loop that collects the lines of the stat table; it stops at the
    first blank line after the table has begun. *)
Fixpoint table_lines (creature_name : str) (in_table : bool) (lines : list str)
  : list str :=
  match lines with
  | [] => []
  | line :: rest =>
    if contains creature_name line && contains (py "**") line
    then table_lines creature_name in_table rest
    else if contains (py "|") line && negb (startswith (py "> >") (strip line))
    then line :: table_lines creature_name true rest
    else if in_table && (str_eqb (strip line) [] || str_eqb (strip line) (py ">"))
    then []
    else table_lines creature_name in_table rest
  end.

(** [s.find(sub)] *)
Fixpoint find_from (sub s : str) (i : nat) : option nat :=
  if startswith sub s then Some i
  else match s with
       | [] => None
       | _ :: t => find_from sub t (S i)
       end.

(** [re.split(r, s)] for a pattern with one group: the texts between the
    matches, each followed by the group of the match that ends it. *)
Fixpoint pieces_with_group (s : str) (pos : nat) (ms : list rmatch)
  : list (str * option str) :=
  match ms with
  | [] => [(skipn pos s, None)]
  | m :: rest =>
    (slice pos (m_start m) s, Some (grp s 1 m)) :: pieces_with_group s (m_end m) rest
  end.

(** The traits: the name is the group of a separator, the content the text
    up to the next separator. *)
Fixpoint traits_of (splits : list (str * option str)) : list value :=
  match splits with
  | (_, Some name) :: (((content, _) :: _) as rest) =>
    let trait_name := strip name in
    let trait_content :=
      strip (re_sub MULTILINE (re "^>\s*>?\s*") [] content) in
    (if contains (py "|") trait_content
     then VDict [("name", VStr trait_name); ("type", VStr (py "ability"));
                 ("content", VStr trait_content)]
     else VDict [("name", VStr trait_name); ("type", VStr (py "trait"));
                 ("description", VStr trait_content)])
    :: traits_of rest
  | _ => []
  end.

Definition parse_stat_block (content : str) : value :=
  match re_search IGNORECASE (re ">?\s*#{6}\s+(.+?)\s+Statblock\s*\n") content with
  | None => VNone
  | Some m =>
    let stat_block_name := strip (grp content 1 m) in
    let start_pos := m_end m in
    let after := skipn start_pos content in
    let stat_block_content :=
      match re_search no_flags (re "\n(?:>\s*)?#{1,6}\s+") after with
      | Some next_heading => slice start_pos (start_pos + m_start next_heading) content
      | None => after
      end in
    let creature_name :=
      match re_search no_flags (re ">?\s*\*\*(.+?)\*\*\s*\n") stat_block_content with
      | Some creature_match => strip (grp stat_block_content 1 creature_match)
      | None => stat_block_name
      end in
    let lines := table_lines creature_name false (split_chr NL stat_block_content) in
    let stat_table : option str :=
      match lines with
      | [] => None
      | _ =>
        let joined := strip (join [NL] lines) in
        if nonempty joined
        then Some (re_sub MULTILINE (re "^>\s*") [] joined)
        else Some joined
      end in
    let traits_section :=
      match stat_table with
      | Some (c :: t) =>
        let table_end :=
          match find_from (c :: t) stat_block_content 0 with
          | Some i => i + length (c :: t)
          | None => length (c :: t) - 1
          end in
        skipn table_end stat_block_content
      | _ => stat_block_content
      end in
    let traits :=
      traits_of
        (pieces_with_group traits_section 0
           (re_finditer no_flags (re "\n>\s*>\s*\*\*([^*]+)\*\*\s*\n") traits_section)) in
    VDict [("name", VStr creature_name);
           ("full_content", VStr (strip stat_block_content));
           ("stat_table", match stat_table with Some t => VStr t | None => VNone end);
           ("stats", match stat_table with
                     | Some (c :: t) => VDict (stat_block_table_fields (c :: t))
                     | _ => VNone
                     end);
           ("traits", match traits with [] => VNone | _ => VList traits end)]
  end.

(** ** scripts/parse_abilities.py *)

Definition power_roll_re : regex := re "\*\*Power Roll \+ ([^:]+):\*\*".

(** The tier label of a range text. *)
Definition tier_of (range_text : str) : str :=
  if contains (py "≤11") range_text || contains (py "11-") range_text
  then py "weak"
  else if contains (py "12-16") range_text || contains (py "12–16") range_text
  then py "average"
  else if contains (py "17+") range_text || contains (py "17–") range_text
  then py "strong"
  else py "unknown".

(** [damage = {'formula': parsed.get('formula'), 'type': parsed.get('type')}],
    with the characteristics of [parsed] when it has them. *)
Definition damage_of (parsed : value) : dict :=
  let damage := [("formula", vget "formula" parsed); ("type", vget "type" parsed)] in
  if vhas "characteristics" parsed
  then dset "characteristics" (vget "characteristics" parsed) damage
  else damage.

(** The pre-filter of the stand-alone parser on a part that contains "damage". *)
Definition damage_like_re : regex :=
  re "([0-9dD\s+\-\*\/A-Za-z\(\)]+?)(?:\s+([a-zA-Z]+(?:\s+[a-zA-Z]+)*))?\s+damage".

(** The state of the loop over the parts of a result text: the local
    variables [damage] and [effects]. *)
Definition tier_state := (value * list str)%type.

(** One iteration of [for part in parts] in [parse_power_roll_table]. *)
Definition table_part (st : tier_state) (part : str) : tier_state :=
  let part := strip part in
  if contains (py "damage") (lower part) then
    match re_search IGNORECASE damage_like_re part with
    | Some _ =>
      let parsed := parse_damage_clause part in
      if truthy parsed then (VDict (damage_of parsed), snd st)
      else (fst st, snd st ++ [part])
    | None => st
    end
  else if nonempty part then (fst st, snd st ++ [part])
  else st.

Definition tier_record (range_text : str) (st : tier_state) : value :=
  VDict [("tier", VStr (tier_of range_text));
         ("range", VStr range_text);
         ("damage", fst st);
         ("effects", VList (map VStr (snd st)))].

(** [parts = result_text.split(';')] and the loop over the parts. *)
Definition table_result (result_text : str) : tier_state :=
  fold_left table_part (split_chr 59%N result_text) (VNone, []).

(** The body of [for match in tier_matches]. *)
Definition table_tier (text : str) (m : rmatch) : value :=
  let range_text := strip (grp text 1 m) in
  let result_text := strip (grp text 2 m) in
  tier_record range_text (table_result result_text).

Definition table_tier_re : regex :=
  re "(?:>\s*)?-\s*\*\*([^:]+):\*\*\s*(.+?)(?=(?:\n(?:>\s*)?-\s*\*\*|\n\*\*|\Z))".

(** The text the tiers are looked for in: from the end of the marker to the
    next bold heading at the start of a line. *)
Definition power_roll_content (content : str) (power_roll_match : rmatch) : str :=
  let power_roll_start := m_end power_roll_match in
  let after := skipn power_roll_start content in
  match re_search no_flags (re "\n\*\*[^*]+\*\*") after with
  | Some next_section_match =>
    strip (slice power_roll_start (power_roll_start + m_start next_section_match) content)
  | None => strip after
  end.

Definition table_tiers (content : str) (power_roll_match : rmatch) : list value :=
  let text := power_roll_content content power_roll_match in
  map (table_tier text) (re_finditer DOTALL table_tier_re text).

Definition parse_power_roll_table (content : str) : value :=
  match re_search no_flags power_roll_re content with
  | None => VNone
  | Some power_roll_match =>
    let characteristic := strip (grp content 1 power_roll_match) in
    let conditional :=
      match re_search IGNORECASE
              (re "\*\*Effect:\*\*\s*([^.]+)\.\s*(?:If you target an enemy|Otherwise),?\s*you make a power roll")
              content with
      | Some conditional_match => VStr (grp content 1 conditional_match)
      | None => VNone
      end in
    match table_tiers content power_roll_match with
    | [] => VNone
    | tiers =>
      VDict [("characteristic", VStr characteristic);
             ("conditional", conditional);
             ("tiers", VList tiers)]
    end
  end.

Definition persistent_re : regex := re "\*\*Persistent (\d+):\*\*\s*(.+?)(?=\n\n|\Z)".

Definition parse_persistent (content : str) : value :=
  match re_search DOTALL persistent_re content with
  | Some persistent_match =>
    VDict [("turns", VInt (Z.of_N (int_of (grp content 1 persistent_match))));
           ("description", VStr (strip (grp content 2 persistent_match)))]
  | None => VNone
  end.

(** [effects[key] = m.group(1).strip()] when the pattern matches. *)
Definition capture (fl : flags) (r : regex) (content : str) (key : string)
    (effects : dict) : dict :=
  match re_search fl r content with
  | Some m => dset key (VStr (strip (grp content 1 m))) effects
  | None => effects
  end.

(** The renaming of a lone [before] or [after] to [effect]. *)
Definition rename_single (effects : dict) : dict :=
  if has_key "before" effects && has_key "after" effects then effects
  else if has_key "before" effects
  then dset "effect" (dget "before" effects) (dpop "before" effects)
  else if has_key "after" effects
  then dset "effect" (dget "after" effects) (dpop "after" effects)
  else effects.

Definition trigger_re : regex := re "\*\*Trigger:\*\*\s*(.+?)(?=\n\n\*\*|\n\*\*|\Z)".
Definition before_re : regex :=
  re "(?:\*\*🎯[^*]+\*\*|\*\*Trigger:\*\*[^\n]+).*?\n\n\*\*Effect:\*\*\s*(.+?)(?=\n\n\*\*Power Roll)".
Definition mark_benefit_re : regex :=
  re "\*\*Mark Benefit:\*\*\s*(.+?)(?=\n\n\*\*Persistent|\n\n|$)".
Definition strained_re : regex := re "\*\*Strained:\*\*\s*(.+?)(?=\n\n\*\*|\n\*\*|\Z)".

(** [return effects if effects else None] *)
Definition dict_or_none (effects : dict) : value :=
  match effects with [] => VNone | _ => VDict effects end.

Definition after_re : regex :=
  re "\*\*Power Roll.+?\n(?:- \*\*[^*]+\*\*[^*]*\n)+.*?\n\n\*\*Effect:\*\*\s*(.+?)(?=\n\n\*\*Mark Benefit|\n\n\*\*Persistent|\n\n|$)".
Definition effect_re : regex := re "\*\*Effect:\*\*\s*(.+?)(?=\n#{5,6}|\Z)".

Definition parse_effects (content : str) (has_power_roll : bool) : value :=
  let effects := capture DOTALL trigger_re content "trigger" [] in
  let effects :=
    if has_power_roll then
      let effects := capture DOTALL before_re content "before" effects in
      let effects := capture DOTALL after_re content "after" effects in
      rename_single effects
    else capture DOTALL effect_re content "effect" effects in
  let effects := capture DOTALL mark_benefit_re content "mark_benefit" effects in
  let effects := capture DOTALL strained_re content "strained" effects in
  dict_or_none effects.

Definition parse_targeting_table (content : str) : value :=
  let distance_match := re_search no_flags (re "\*\*📏\s*([^*]+?)\*\*") content in
  let target_match := re_search no_flags (re "\*\*🎯\s*([^*]+?)\*\*") content in
  match distance_match, target_match with
  | None, None => VNone
  | _, _ =>
    VDict [("distance", match distance_match with
                        | Some m => VStr (strip (grp content 1 m)) | None => VNone end);
           ("target", match target_match with
                      | Some m => VStr (strip (grp content 1 m)) | None => VNone end)]
  end.

(** *** Front matter *)

(** A key read from a file, as a key of a [dict]: its UTF-8 encoding. *)
Definition utf8_bytes (c : N) : list N :=
  if (c <? 128)%N then [c]
  else if (c <? 2048)%N then [192 + c / 64; 128 + c mod 64]%N
  else if (c <? 65536)%N then [224 + c / 4096; 128 + (c / 64) mod 64; 128 + c mod 64]%N
  else [240 + c / 262144; 128 + (c / 4096) mod 64; 128 + (c / 64) mod 64; 128 + c mod 64]%N.

Definition key_of (s : str) : string :=
  string_of_list_ascii (map ascii_of_N (flat_map utf8_bytes s)).

(** [s.splitlines()] *)
Definition line_boundary (c : N) : bool :=
  between 10 13 c || between 28 30 c || (c =? 133)%N || (c =? 8232)%N || (c =? 8233)%N.

Fixpoint splitlines_from (cur : str) (s : str) : list str :=
  match s with
  | [] => match cur with [] => [] | _ => [rev cur] end
  | c :: t =>
    if (c =? 13)%N then
      rev cur :: match t with
                 | d :: t' => if (d =? 10)%N then splitlines_from [] t'
                              else splitlines_from [] t
                 | [] => splitlines_from [] t
                 end
    else if line_boundary c then rev cur :: splitlines_from [] t
    else splitlines_from (c :: cur) t
  end.

Definition splitlines (s : str) : list str := splitlines_from [] s.

(** [s.split(sep, 1)] when [sep] occurs in [s] *)
Fixpoint split_once (sep : N) (s : str) : str * str :=
  match s with
  | [] => ([], [])
  | c :: t =>
    if (c =? sep)%N then ([], t)
    else let '(a, b) := split_once sep t in (c :: a, b)
  end.

Definition quotes : str := [34; 39]%N.

(** The state of the fall-back parser: the mapping and [current_key]. *)
Definition fm_state := (dict * option str)%type.

(** One line of the front matter; [None] when the line raises (an item
    appended to a value that is not a list). *)
Definition frontmatter_line (st : fm_state) (raw : str) : option fm_state :=
  let '(frontmatter, current_key) := st in
  let line := rstrip_by (isspace db) raw in
  if negb (nonempty line) then Some st
  else
    let list_item :=
      match match_at no_flags line (re "^\s*-\s+(.*)$") 0, current_key with
      | Some m_list, Some (c :: k) => Some (m_list, c :: k)
      | _, _ => None
      end in
    match list_item with
    | Some (m_list, key) =>
      let item := VStr (strip_by (one_of quotes) (strip (grp line 1 m_list))) in
      let frontmatter :=
        if has_key (key_of key) frontmatter then frontmatter
        else dset (key_of key) (VList []) frontmatter in
      match dget (key_of key) frontmatter with
      | VList items => Some (dset (key_of key) (VList (items ++ [item])) frontmatter, current_key)
      | _ => None
      end
    | None =>
      if contains (py ":") line then
        let '(key, val) := split_once 58%N line in
        let key := strip key in
        let val := strip val in
        if negb (nonempty val) then
          Some (if has_key (key_of key) frontmatter then frontmatter
                else dset (key_of key) (VList []) frontmatter,
                Some key)
        else Some (dset (key_of key) (VStr (strip_by (one_of quotes) val)) frontmatter, None)
      else Some st
    end.

Fixpoint frontmatter_lines (st : fm_state) (lines : list str) : option dict :=
  match lines with
  | [] => Some (fst st)
  | raw :: rest =>
    match frontmatter_line st raw with
    | Some st' => frontmatter_lines st' rest
    | None => None
    end
  end.

(** PyYAML, when the module can be imported: [yaml.safe_load], with [None]
    for a text it raises on. *)
Variable yaml : option (str -> option value).

(** [v or {}] *)
Definition or_empty_dict (v : value) : value := if truthy v then v else VDict [].

Definition frontmatter_re : regex := re "^---\s*\n(.*?)\n---\s*\n(.*)$".

(** [re.match] tries the pattern at the start of the text only. *)
Definition extract_frontmatter (content : str) : value * str :=
  match match_at DOTALL content frontmatter_re 0 with
  | Some m =>
    let frontmatter_text := grp content 1 m in
    let body := grp content 2 m in
    match yaml with
    | Some safe_load =>
      match safe_load frontmatter_text with
      | Some frontmatter => (or_empty_dict frontmatter, body)
      | None => (VDict [], content)
      end
    | None =>
      match frontmatter_lines ([], None) (splitlines frontmatter_text) with
      | Some frontmatter => (VDict frontmatter, body)
      | None => (VDict [], content)
      end
    end
  | None => (VDict [], content)
  end.

(** *** parse_ability_file *)

(** [d.get(k, default)] *)
Definition dget_or (k : string) (default : value) (d : dict) : value :=
  if has_key k d then dget k d else default.

(** The section labels, in the order in which the scripts look for them. *)
Definition sections : list (string * regex) :=
  [("trigger", re "\*\*Trigger:\*\*");
   ("effect", re "\*\*Effect:\*\*");
   ("power_roll", re "\*\*Power Roll");
   ("mark_benefit", re "\*\*Mark Benefit:\*\*");
   ("strained", re "\*\*Strained:\*\*");
   ("persistent", re "\*\*Persistent");
   ("cost_options", re "\*\*Spend")].

(** [section_positions]: the first offset of each label found in the text. *)
Fixpoint section_positions_of (secs : list (string * regex)) (body : str)
  : list (string * nat) :=
  match secs with
  | [] => []
  | (name, pattern) :: rest =>
    match re_search no_flags pattern body with
    | Some m => (name, m_start m) :: section_positions_of rest body
    | None => section_positions_of rest body
    end
  end.

Definition section_positions : str -> list (string * nat) :=
  section_positions_of sections.

(** [sorted(items, key=lambda x: x[1])]: a stable sort by offset. *)
Fixpoint insert_by_pos (x : string * nat) (l : list (string * nat))
  : list (string * nat) :=
  match l with
  | [] => [x]
  | y :: rest => if snd x <=? snd y then x :: y :: rest else y :: insert_by_pos x rest
  end.

Definition sorted_by_pos (l : list (string * nat)) : list (string * nat) :=
  fold_right insert_by_pos [] l.

Definition sorted_sections (body : str) : list string :=
  map fst (sorted_by_pos (section_positions body)).

(** [name in components] *)
Definition listed (name : string) (components : list string) : bool :=
  existsb (String.eqb name) components.

(** [parsed_effects and k in parsed_effects] *)
Definition in_effects (k : string) (parsed_effects : value) : bool :=
  truthy parsed_effects && vhas k parsed_effects.

Definition is_none (v : value) : bool :=
  match v with VNone => true | _ => false end.

(** One iteration of [for name, _pos in sorted_sections] in
    [parse_ability_file]. *)
Definition file_component (parsed_effects power_roll persistent cost : value)
    (components : list string) (name : string) : list string :=
  if String.eqb name "trigger" && in_effects "trigger" parsed_effects
     && negb (listed "trigger" components)
  then components ++ ["trigger"]
  else if String.eqb name "effect" && truthy parsed_effects then
    if vhas "before" parsed_effects && negb (listed "before" components)
    then components ++ ["before"]
    else if vhas "after" parsed_effects && negb (listed "after" components)
    then components ++ ["after"]
    else if vhas "effect" parsed_effects && negb (listed "effect" components)
    then components ++ ["effect"]
    else components
  else if String.eqb name "power_roll" && negb (is_none power_roll)
          && negb (listed "power_roll" components)
  then components ++ ["power_roll"]
  else if String.eqb name "mark_benefit" && in_effects "mark_benefit" parsed_effects
          && negb (listed "mark_benefit" components)
  then components ++ ["mark_benefit"]
  else if String.eqb name "strained" && in_effects "strained" parsed_effects
          && negb (listed "strained" components)
  then components ++ ["strained"]
  else if String.eqb name "persistent" && negb (is_none persistent)
          && negb (listed "persistent" components)
  then components ++ ["persistent"]
  else if String.eqb name "cost_options" && truthy cost
          && negb (listed "cost" components)
  then components ++ ["cost"]
  else components.

(** The ordering used when the loop added nothing. *)
Definition file_fallback (parsed_effects power_roll persistent : value) : list string :=
  (if in_effects "trigger" parsed_effects then ["trigger"] else [])
  ++ (if in_effects "before" parsed_effects then ["before"] else [])
  ++ (if negb (is_none power_roll) then ["power_roll"] else [])
  ++ (if in_effects "after" parsed_effects then ["after"] else [])
  ++ (if in_effects "mark_benefit" parsed_effects then ["mark_benefit"] else [])
  ++ (if negb (is_none persistent) then ["persistent"] else [])
  ++ (if in_effects "effect" parsed_effects then ["effect"] else []).

Definition file_components (body : str) (parsed_effects power_roll persistent cost : value)
  : list string :=
  match fold_left (file_component parsed_effects power_roll persistent cost)
                  (sorted_sections body) [] with
  | [] => file_fallback parsed_effects power_roll persistent
  | components => components
  end.

Definition names (l : list string) : value :=
  VList (map (fun n => VStr (py n)) l).

(** [dset k v d] when [cond] holds. *)
Definition dset_if (cond : bool) (k : string) (v : value) (d : dict) : dict :=
  if cond then dset k v d else d.

(** The record of a document whose front matter is the mapping [frontmatter]
    and whose [item_id] is [None] or the text [base_id] was computed from. *)
Definition ability_record (frontmatter : dict) (body : str) (item_id base_id : value)
  : dict :=
  let flavor :=
    match re_search no_flags (re "#+ .+?\n\n\*(.+?)\*") body with
    | Some flavor_match => VStr (strip (grp body 1 flavor_match))
    | None => dget "flavor" frontmatter
    end in
  let power_roll := parse_power_roll_table body in
  let targeting := parse_targeting_table body in
  let effects := parse_effects body (negb (is_none power_roll)) in
  let persistent := parse_persistent body in
  let stat_block := parse_stat_block body in
  let ability :=
    [("item_id", item_id);
     ("base_id", base_id);
     ("item_name", dget "item_name" frontmatter);
     ("item_index", dget "item_index" frontmatter);
     ("source", dget_or "source" (VStr (py "mcdm.heroes.v1")) frontmatter);
     ("type", dget_or "type" (VStr (py "ability")) frontmatter);
     ("class", dget "class" frontmatter);
     ("level", dget "level" frontmatter);
     ("ability_type", dget "ability_type" frontmatter);
     ("feature_type", dget "feature_type" frontmatter)] in
  let action_type := dget "action_type" frontmatter in
  let keywords := dget_or "keywords" (VList []) frontmatter in
  let ability :=
    dset_if (truthy action_type || truthy keywords) "action"
      (VDict [("type", action_type); ("keywords", keywords)]) ability in
  let cost_amount := dget "cost_amount" frontmatter in
  let cost_resource := dget "cost_resource" frontmatter in
  let ability :=
    dset "cost"
      (if truthy cost_amount && truthy cost_resource
       then VDict [("amount", cost_amount); ("resource", cost_resource)]
       else VNone) ability in
  let ability := dset "targeting" (if truthy targeting then targeting else VNone) ability in
  let ability := dset "flavor" flavor ability in
  let ability := dset "power_roll" power_roll ability in
  let ability := dset "effects" effects ability in
  let ability := dset "persistent" persistent ability in
  let parsed_effects := parse_effects body (negb (is_none power_roll)) in
  let components :=
    file_components body parsed_effects power_roll persistent (dget "cost" ability) in
  let ability :=
    dset_if (negb (Nat.eqb (length components) 0)) "component_order"
      (names components) ability in
  let ability := dset_if (truthy stat_block) "stat_block" stat_block ability in
  dset_if (has_key "subclass" frontmatter) "subclass" (dget "subclass" frontmatter) ability.

(** A file of the abilities directory: its name and what reading it as
    UTF-8 gives, [None] when opening or decoding it raises. *)
Record file := { file_name : str; file_content : option str }.

Definition parse_ability_file (f : file) : outcome value :=
  match file_content f with
  | None => Returns VNone
  | Some content =>
    let '(frontmatter, body) := extract_frontmatter content in
    if negb (truthy frontmatter) then Returns VNone
    else
      match frontmatter with
      | VDict fm =>
        let item_id := dget "item_id" fm in
        if truthy item_id then
          match item_id with
          | VStr id =>
            Returns (VDict (ability_record fm body item_id
                              (VStr (re_sub no_flags (re "-\d+-\w+$") [] id))))
          | _ => Raises
          end
        else Returns (VDict (ability_record fm body item_id item_id))
      | _ => Raises
      end
  end.

(** [parse_abilities_directory]: the files are those of [os.walk], in its
    order. *)
Fixpoint parse_abilities_directory (files : list file) : outcome (list value) :=
  match files with
  | [] => Returns []
  | f :: rest =>
    if endswith (py ".md") (file_name f) then
      match parse_ability_file f with
      | Raises => Raises
      | Returns ability =>
        match parse_abilities_directory rest with
        | Raises => Raises
        | Returns abilities =>
          Returns (if truthy ability then ability :: abilities else abilities)
        end
      end
    else parse_abilities_directory rest
  end.

(** ** scripts/parse_features.py *)

Definition embedded_after_re : regex :=
  re "\*\*Power Roll.+?\n(?:- \*\*[^*]+\*\*[^*]*\n)+.*?\n\n\*\*Effect:\*\*\s*(.+?)(?=\n\n\*\*Mark Benefit|\n\n\*\*Persistent|\n\n\*\*Spend|\Z)".
Definition embedded_effect_re : regex := re "\*\*Effect:\*\*\s*(.+?)(?=\n>\s*#{5,6}|\Z)".

Definition parse_ability_effects (content : str) (has_power_roll : bool) : value :=
  let effects := capture DOTALL trigger_re content "trigger" [] in
  let effects :=
    if has_power_roll then
      let effects := capture DOTALL before_re content "before" effects in
      let effects := capture DOTALL embedded_after_re content "after" effects in
      rename_single effects
    else capture DOTALL embedded_effect_re content "effect" effects in
  let effects := capture DOTALL mark_benefit_re content "mark_benefit" effects in
  let effects := capture DOTALL strained_re content "strained" effects in
  dict_or_none effects.

(** [len(t) == 1 and t.lower() in ['m', 'a', 'r', 'i', 'p']] *)
Definition characteristic_letter (t : str) : bool :=
  Nat.eqb (length t) 1
  && existsb (str_eqb (lower t)) [py "m"; py "a"; py "r"; py "i"; py "p"].

(** The folding of a one-letter type into the formula. *)
Definition fold_type (damage : dict) : dict :=
  match dget "type" damage, dget "formula" damage with
  | VStr t, VStr formula =>
    if nonempty t && characteristic_letter t
    then dset "type" VNone
           (dset "formula" (VStr (strip (formula ++ py " " ++ upper t))) damage)
    else damage
  | _, _ => damage
  end.

(** One iteration of [for part in parts] in [parse_ability_power_roll]. *)
Definition embedded_part (st : tier_state) (part : str) : tier_state :=
  let part := strip part in
  if contains (py "damage") (lower part) then
    let parsed := parse_damage_clause part in
    if truthy parsed then (VDict (fold_type (damage_of parsed)), snd st)
    else (fst st, snd st ++ [part])
  else if nonempty part then (fst st, snd st ++ [part])
  else st.

Definition embedded_result (result_text : str) : tier_state :=
  fold_left embedded_part (split_chr 59%N result_text) (VNone, []).

Definition embedded_tier (text : str) (m : rmatch) : value :=
  let range_text := strip (grp text 1 m) in
  let result_text := strip (grp text 2 m) in
  tier_record range_text (embedded_result result_text).

Definition embedded_tier_re : regex :=
  re "-\s*\*\*([^:]+):\*\*\s*(.+?)(?=\n-\s*\*\*|$)".

Definition embedded_tiers (content : str) : list value :=
  map (embedded_tier content) (re_finditer DOTALL embedded_tier_re content).

Definition parse_ability_power_roll (content : str) : value :=
  match re_search no_flags power_roll_re content with
  | None => VNone
  | Some power_roll_match =>
    let characteristic := strip (grp content 1 power_roll_match) in
    match embedded_tiers content with
    | [] => VNone
    | tiers => VDict [("characteristic", VStr characteristic); ("tiers", VList tiers)]
    end
  end.

(** *** The table of an embedded ability *)

(** The tables of the text: the runs of lines between pipes, of three lines
    at least; [current] is the run being read, reversed. *)
Fixpoint tables_from (current : list str) (lines : list str) : list (list str) :=
  match lines with
  | [] => if 3 <=? length current then [rev current] else []
  | line :: rest =>
    let line := strip line in
    if startswith (py "|") line && endswith (py "|") line
    then tables_from (line :: current) rest
    else if 3 <=? length current then rev current :: tables_from [] rest
    else tables_from [] rest
  end.

(** [row.split('|')[1:-1]] *)
Definition inner_cells (row : str) : list str :=
  removelast (tl (split_chr 124%N row)).

Definition unbold (c : str) : str := replace (py "**") [] (strip c).

Definition header_cols_of (header_row : str) : list str :=
  map unbold (inner_cells header_row).

Definition data_cols_of (data_row : str) : list str :=
  map (fun c => replace (py "🎯") [] (replace (py "📏") [] (unbold c)))
      (inner_cells data_row).

(** [[k.strip() for k in s.split(',') if k.strip()]] *)
Definition comma_list (s : str) : list str :=
  map strip (filter (fun k => nonempty (strip k)) (split_chr 44%N s)).

Definition strs (l : list str) : value := VList (map VStr l).

Definition any_in (words : list string) (s : str) : bool :=
  existsb (fun w => contains (py w) s) words.

Definition keyword_terms : list string :=
  ["area"; "magic"; "psionic"; "ranged"; "melee"; "strike"; "telepathy"; "force";
   "fire"; "cold"; "lightning"; "poison"; "necrotic"; "radiant"; "weapon"; "spell";
   "divine"; "martial"].

Definition action_terms : list string :=
  ["maneuver"; "main action"; "free action"; "reaction"; "bonus action"; "action"].

(** The standard table of two columns. *)
Definition two_columns (header_cols data_cols : list str) (ability : dict) : dict :=
  let header_0 := nth 0 header_cols [] in
  let data_0 := nth 0 data_cols [] in
  let header_1 := nth 1 header_cols [] in
  let data_1 := nth 1 data_cols [] in
  let ability :=
    match comma_list header_0 with
    | [] => ability
    | keywords => dset "keywords" (strs keywords) ability
    end in
  let ability := dset_if (nonempty data_0) "distance" (VStr data_0) ability in
  let ability := dset_if (nonempty header_1) "action_type" (VStr header_1) ability in
  dset_if (nonempty data_1) "target" (VStr data_1) ability.

(** One column of a table in another format. *)
Definition other_column (ability : dict) (col : str * str) : dict :=
  let header_lower := lower (fst col) in
  let data_value := snd col in
  if negb (nonempty data_value) then ability
  else if any_in keyword_terms header_lower then
    let present :=
      match dget "keywords" ability with VList l => l | _ => [] end in
    dset "keywords" (VList (present ++ map VStr (comma_list data_value))) ability
  else if contains (py "distance") header_lower || contains (py "ranged") header_lower
          || contains (py "melee") header_lower || contains (py "reach") header_lower
  then dset "distance" (VStr data_value) ability
  else if any_in action_terms header_lower
  then dset "action_type" (VStr data_value) ability
  else if contains (py "target") header_lower
  then dset "target" (VStr data_value) ability
  else ability.

(** The first table whose header and data rows have the same number of
    columns, two at least, is the one that is read. *)
Fixpoint read_tables (tables : list (list str)) (ability : dict) : dict :=
  match tables with
  | [] => ability
  | table :: rest =>
    let header_cols := header_cols_of (nth 0 table []) in
    let data_cols := data_cols_of (nth 2 table []) in
    if (3 <=? length table) && (length header_cols =? length data_cols)
       && (2 <=? length header_cols)
    then
      if length header_cols =? 2 then two_columns header_cols data_cols ability
      else fold_left other_column (combine header_cols data_cols) ability
    else read_tables rest ability
  end.

(** *** parse_embedded_ability *)

Definition spend_re : regex :=
  re "\*\*Spend (\d+\+?) ([^:]+):\*\*\s*(.+?)(?=\n\n\*\*Spend|\Z)".

Definition cost_option (text : str) (m : rmatch) : value :=
  VDict [("amount", VStr (grp text 1 m));
         ("resource", VStr (grp text 2 m));
         ("effect", VStr (strip (grp text 3 m)))].

(** One iteration of [for section_name, _ in sorted_sections] in
    [parse_embedded_ability]; [added_components] holds the elements of
    [components]. *)
Definition embedded_component (parsed_effects : value) (components : list string)
    (section_name : string) : list string :=
  if String.eqb section_name "trigger" then
    if in_effects "trigger" parsed_effects && negb (listed "trigger" components)
    then components ++ ["trigger"] else components
  else if String.eqb section_name "effect" then
    if truthy parsed_effects then
      if vhas "before" parsed_effects && vhas "after" parsed_effects then
        let components :=
          if negb (listed "before" components) then components ++ ["before"]
          else components in
        if negb (listed "after" components) then components ++ ["after"]
        else components
      else if vhas "before" parsed_effects && negb (listed "before" components)
      then components ++ ["before"]
      else if vhas "after" parsed_effects && negb (listed "after" components)
      then components ++ ["after"]
      else if vhas "effect" parsed_effects && negb (listed "effect" components)
      then components ++ ["effect"]
      else components
    else components
  else if String.eqb section_name "power_roll" && negb (listed "power_roll" components)
  then components ++ ["power_roll"]
  else if String.eqb section_name "mark_benefit" && negb (listed "mark_benefit" components)
  then components ++ ["mark_benefit"]
  else if String.eqb section_name "strained" && negb (listed "strained" components) then
    if in_effects "strained" parsed_effects then components ++ ["strained"]
    else components
  else if String.eqb section_name "persistent" && negb (listed "persistent" components)
  then components ++ ["persistent"]
  else if String.eqb section_name "cost_options" && negb (listed "cost_options" components)
  then components ++ ["cost_options"]
  else components.

Definition embedded_components (ability_text : str) (parsed_effects : value)
  : list string :=
  fold_left (embedded_component parsed_effects) (sorted_sections ability_text) [].

(** [v is not None and v != [] and v != ""] *)
Definition kept (v : value) : bool :=
  match v with
  | VNone => false
  | VList [] => false
  | VStr [] => false
  | _ => true
  end.

(** The record before the final clean-up; [ability_text] is the text without
    its blockquote markers. *)
Definition embedded_fields (ability_text ability_name : str) : dict :=
  let ability :=
    [("name", VStr ability_name);
     ("flavor_text", VNone);
     ("action_type", VNone);
     ("keywords", VList []);
     ("distance", VNone);
     ("target", VNone);
     ("cost_options", VList [])] in
  let ability :=
    match re_search no_flags (re "\*([^*]+)\*") ability_text with
    | Some flavor_match =>
      dset "flavor_text" (VStr (strip (grp ability_text 1 flavor_match))) ability
    | None => ability
    end in
  let power_roll := parse_ability_power_roll ability_text in
  let ability := dset_if (truthy power_roll) "power_roll" power_roll ability in
  let effects := parse_ability_effects ability_text (negb (is_none power_roll)) in
  let ability := dset_if (truthy effects) "effects" effects ability in
  let ability :=
    match re_search DOTALL persistent_re ability_text with
    | Some persistent_match =>
      dset "persistent"
        (VDict [("turns", VInt (Z.of_N (int_of (grp ability_text 1 persistent_match))));
                ("description", VStr (strip (grp ability_text 2 persistent_match)))])
        ability
    | None => ability
    end in
  let ability :=
    dset "cost_options"
      (VList (map (cost_option ability_text) (re_finditer DOTALL spend_re ability_text)))
      ability in
  let ability := read_tables (tables_from [] (split_chr NL ability_text)) ability in
  let parsed_effects := parse_ability_effects ability_text (negb (is_none power_roll)) in
  let components := embedded_components ability_text parsed_effects in
  dset_if (negb (Nat.eqb (length components) 0)) "component_order"
    (names components) ability.

(** [re.sub(r'^>\s*', '', ability_text, flags=re.MULTILINE).strip()] *)
Definition unquoted (ability_text : str) : str :=
  strip (re_sub MULTILINE (re "^>\s*") [] ability_text).

Definition parse_embedded_ability (ability_text ability_name : str) : dict :=
  filter (fun kv => kept (snd kv)) (embedded_fields (unquoted ability_text) ability_name).

Definition ability_block_re : regex :=
  re ">\s*#{5,6}\s+([^\n]+)\n(.*?)(?=\n>\s*#{5,6}|\Z)".

(** [extract_abilities_from_content]: one record per block with a text. *)
Definition extract_abilities_from_content (content : str) : list dict :=
  flat_map
    (fun m =>
       let ability_name := strip (grp content 1 m) in
       let ability_text := strip (grp content 2 m) in
       if nonempty ability_text then [parse_embedded_ability ability_text ability_name]
       else [])
    (re_finditer DOTALL ability_block_re content).

(** ** Further functions of the scripts *)

(** *** slugify (parse_abilities.py and parse_features.py) *)

Definition slugify (text : str) : str :=
  let text := lower text in
  let text := re_sub no_flags (re "[^\w\s-]") [] text in
  let text := re_sub no_flags (re "[-\s]+") (py "-") text in
  strip_by (one_of (py "-")) text.

(** *** strip_markdown_links (parse_helpers.py) *)

Definition strip_markdown_links (text : str) : str :=
  let text := re_sub no_flags (re "\[([^\]]+)\]\([^\)]+\)") (py "\1") text in
  let text := re_sub no_flags (re "\[([^\]]+)\]\[[^\]]*\]") (py "\1") text in
  re_sub MULTILINE (re "^\[([^\]]+)\]:\s+.*$") [] text.

(** *** parse_frontmatter (parse_helpers.py) *)

(** The text before the first occurrence of [sep] and the text after it. *)
Fixpoint cut (sep s : str) : option (str * str) :=
  if startswith sep s then Some ([], skipn (length sep) s)
  else match s with
       | [] => None
       | c :: t =>
         match cut sep t with
         | Some (a, b) => Some (c :: a, b)
         | None => None
         end
       end.

(** [s.split(sep, maxsplit)] for a separator that is not empty *)
Fixpoint split_max (sep : str) (maxsplit : nat) (s : str) : list str :=
  match maxsplit with
  | O => [s]
  | S n =>
    match cut sep s with
    | Some (a, b) => a :: split_max sep n b
    | None => [s]
    end
  end.

(** One line of the front matter in the parser of [parse_frontmatter]; a
    list item replaces a value that is not a list. *)
Definition helper_line (st : fm_state) (raw : str) : fm_state :=
  let '(frontmatter, current_key) := st in
  let line := rstrip_by (isspace db) raw in
  if negb (nonempty line) then st
  else if startswith (py "- ") (strip line) then
    match current_key with
    | Some (c :: k) =>
      let key := key_of (c :: k) in
      let items :=
        if has_key key frontmatter
        then match dget key frontmatter with VList items => items | _ => [] end
        else [] in
      let item := VStr (strip_by (one_of quotes) (strip (skipn 2 (strip line)))) in
      (dset key (VList (items ++ [item])) frontmatter, current_key)
    | _ => st
    end
  else if contains (py ":") line then
    let '(key, val) := split_once 58%N line in
    let key := strip key in
    let val := strip_by (one_of quotes) (strip val) in
    (dset (key_of key) (VStr val) frontmatter, Some key)
  else st.

Definition parse_frontmatter (content : str) : value * str :=
  if negb (startswith (py "---") content) then (VDict [], content)
  else
    match split_max (py "---") 2 content with
    | _ :: part1 :: part2 :: _ =>
      let frontmatter_text := strip part1 in
      let body := strip part2 in
      match yaml with
      | Some safe_load =>
        match safe_load frontmatter_text with
        | Some frontmatter => (or_empty_dict frontmatter, body)
        | None => (VDict [], content)
        end
      | None =>
        (VDict (fst (fold_left helper_line (splitlines frontmatter_text) ([], None))),
         body)
      end
    | _ => (VDict [], content)
    end.

(** *** extract_tables (parse_features.py) *)

(** [str(n)] *)
Fixpoint decimal_from (fuel n : nat) (acc : str) : str :=
  match fuel with
  | O => acc
  | S fuel' =>
    let acc := (48 + N.of_nat (n mod 10))%N :: acc in
    if n / 10 =? 0 then acc else decimal_from fuel' (n / 10) acc
  end.

Definition decimal (n : nat) : str := decimal_from (S n) n [].

(** The loop that collects the lines of a table: the lines with a pipe that
    are not quoted; the first empty line after such a line ends it. *)
Fixpoint feature_table_lines (in_table : bool) (lines : list str) : list str :=
  match lines with
  | [] => []
  | line :: rest =>
    let line := strip line in
    if contains (py "|") line && negb (startswith (py ">") line)
    then line :: feature_table_lines true rest
    else if in_table && str_eqb line [] then []
    else feature_table_lines in_table rest
  end.

(** [rows]: the cells of each line, for the lines that have cells. *)
Definition table_rows (table_lines : list str) : list (list str) :=
  filter (fun cells => negb (Nat.eqb (length cells) 0))
         (map (fun line => map strip (inner_cells line)) table_lines).

(** [all('-' in cell or cell == '' for cell in row)] *)
Definition separator_row (row : list str) : bool :=
  forallb (fun cell => contains (py "-") cell || str_eqb cell []) row.

Definition data_rows_of (rows : list (list str)) : list (list str) :=
  if (2 <? length rows) && separator_row (nth 1 rows [])
  then skipn 2 rows else skipn 1 rows.

(** The loop [for j, cell in enumerate(row)], from the column [j] on. *)
Fixpoint row_dict_from (headers : list str) (j : nat) (row : list str) (row_dict : dict)
  : dict :=
  match row with
  | [] => row_dict
  | cell :: rest =>
    let header :=
      if j <? length headers then nth j headers []
      else py "col_" ++ decimal j in
    row_dict_from headers (S j) rest (dset (key_of header) (VStr cell) row_dict)
  end.

Definition table_data_of (headers : list str) (data_rows : list (list str))
  : list value :=
  map (fun row => VDict (row_dict_from headers 0 row []))
      (filter (fun row => length row =? length headers) data_rows).

(** The table under a heading, when there is one. *)
Definition feature_table (heading table_content : str) : option value :=
  let heading := strip heading in
  match match_at no_flags heading (re "#{4,6}\s+(.+)") 0 with
  | None => None
  | Some heading_match =>
    let table_name := strip (grp heading 1 heading_match) in
    let table_lines := feature_table_lines false (split_chr NL table_content) in
    if length table_lines <? 2 then None
    else
      let rows := table_rows table_lines in
      if length rows <? 2 then None
      else
        let headers := nth 0 rows [] in
        let table_data := table_data_of headers (data_rows_of rows) in
        match table_data with
        | [] => None
        | _ => Some (VDict [("name", VStr table_name);
                            ("headers", VList (map VStr headers));
                            ("data", VList table_data)])
        end
  end.

(** The loop over the headings: [sections[i]] is the heading, [sections[i + 1]]
    the text up to the next heading. *)
Fixpoint tables_of (splits : list (str * option str)) : list value :=
  match splits with
  | (_, Some heading) :: (((table_content, _) :: _) as rest) =>
    match feature_table heading table_content with
    | Some table => table :: tables_of rest
    | None => tables_of rest
    end
  | _ => []
  end.

Definition extract_tables (content : str) : list value :=
  tables_of
    (pieces_with_group content 0
       (re_finditer MULTILINE (re "(#{4,6}\s+.+\s*$)") content)).

(** * Vocabulary of the properties *)

(** The matches of [step] from a position within the text end within the
    text and not before that position. *)
Definition bounded (n : nat) (step : nat -> caps -> list mstate) : Prop :=
  forall i c st, i <= n -> In st (step i c) -> i <= fst st <= n.

Definition tier_labels : list str := [py "weak"; py "average"; py "strong"; py "unknown"].

(** The text a pattern captures: [m.group(1).strip()] of the first match. *)
Definition captured (fl : flags) (r : regex) (content : str) : option str :=
  match re_search fl r content with
  | Some m => Some (strip (grp content 1 m))
  | None => None
  end.

(** What the renaming leaves of the effects found before and after the
    power roll. *)
Definition text_or_none (o : option str) : value :=
  match o with Some t => VStr t | None => VNone end.

Definition renamed_keys (before after : option str) (e : value) : Prop :=
  vget "before" e = (match after with Some _ => text_or_none before | None => VNone end)
  /\ vget "after" e = (match before with Some _ => text_or_none after | None => VNone end)
  /\ vget "effect" e =
     (match before, after with
      | Some b, None => VStr b
      | None, Some a => VStr a
      | _, _ => VNone
      end)
  /\ vhas "before" e = (match before, after with Some _, Some _ => true | _, _ => false end)
  /\ vhas "after" e = (match before, after with Some _, Some _ => true | _, _ => false end)
  /\ vhas "effect" e =
     (match before, after with
      | Some _, None => true
      | None, Some _ => true
      | _, _ => false
      end).

Definition exclusive (e : value) : bool :=
  vhas "effect" e && (vhas "before" e || vhas "after" e).

(** The primary pattern matches and its candidate passes the validation. *)
Definition primary_ok (part : str) : bool :=
  match re_search IGNORECASE damage_clause_re part with
  | Some m => looks_like_formula (formula_candidate (damage_candidate part m))
  | None => false
  end.

(** The secondary pattern "Type damage equal to X" matches. *)
Definition secondary_ok (part : str) : bool :=
  match re_search IGNORECASE equal_to_re part with
  | Some _ => true
  | None => false
  end.

(** The part contains "damage". *)
Definition damage_like (part : str) : bool :=
  contains (py "damage") (lower (strip part)).

(** The part is offered to the normalizer and accepted by it. *)
Definition accepted (part : str) : bool :=
  damage_like part && truthy (parse_damage_clause (strip part)).

(** The part is kept as a plain effect: a part without "damage" that is not
    empty, or a part with "damage" that the normalizer rejects. *)
Definition plain (part : str) : bool :=
  if damage_like part then negb (truthy (parse_damage_clause (strip part)))
  else nonempty (strip part).

Definition plain_effects (parts : list str) : list str :=
  map strip (filter plain parts).

(** The pre-filter of the stand-alone parser lets the part through. *)
Definition prefiltered (part : str) : bool :=
  match re_search IGNORECASE damage_like_re (strip part) with
  | Some _ => true
  | None => false
  end.

Definition passes_prefilter (part : str) : bool :=
  implb (damage_like part) (prefiltered part).

Fixpoint last_accepted (parts : list str) : option str :=
  match parts with
  | [] => None
  | p :: rest =>
    match last_accepted rest with
    | Some q => Some q
    | None => if accepted p then Some p else None
    end
  end.

(** One iteration, in terms of [accepted] and [plain]. *)
Definition step_of (wrap : dict -> dict) (st : tier_state) (part : str) : tier_state :=
  (if accepted part then VDict (wrap (damage_of (parse_damage_clause (strip part))))
   else fst st,
   if plain part then snd st ++ [strip part] else snd st).

(** The type of the damage record of the part is one characteristic
    letter. *)
Definition letter_typed (part : str) : bool :=
  accepted part
  && match vget "type" (parse_damage_clause (strip part)) with
     | VStr t => characteristic_letter t
     | _ => false
     end.


Definition tiers_of (power_roll : value) : list value :=
  match vget "tiers" power_roll with VList l => l | _ => [] end.

Definition unique_keys (d : dict) : Prop := NoDup (keys d).

(** The table of an embedded ability sets [keywords], [distance],
    [action_type] and [target] only. *)
Definition table_key (k : string) : bool :=
  String.eqb "keywords" k || String.eqb "distance" k
  || String.eqb "action_type" k || String.eqb "target" k.

Definition same_elsewhere (d d' : dict) : Prop :=
  (unique_keys d -> unique_keys d')
  /\ forall k, table_key k = false -> has_key k d' = has_key k d /\ dget k d' = dget k d.

(** The component a token of the stand-alone [component_order] names is
    populated. *)
Definition file_populated (parsed_effects power_roll persistent cost : value)
    (name : string) : bool :=
  if String.eqb name "power_roll" then negb (is_none power_roll)
  else if String.eqb name "persistent" then negb (is_none persistent)
  else if String.eqb name "cost" then truthy cost
  else existsb (String.eqb name)
         ["trigger"; "before"; "after"; "effect"; "mark_benefit"; "strained"]
       && in_effects name parsed_effects.

(** The pattern is within the subset of the syntax that [re] reads. *)
Definition compiles (pattern : string) : bool :=
  match Syntax.p_alt (3 * length (py pattern) + 3) (py pattern) 1 with
  | Some (_, [], _) => true
  | _ => false
  end.

(** The patterns of the scripts. *)
Definition script_patterns : list string :=
    ["([0-9dD\w\s+\-\*\/\(\),]+?)(?:\s+([a-zA-Z]+(?:\s+[a-zA-Z]+)*))?\s+damage";
     "([A-Za-z]+)\s+damage\s+equal to\s+([^;]+)";
     ",|\bor\b";
     "\d|\d+d\d+|\b[AaMmRrPpIi]\b";
     "\blevel\b|your level";
     "\*\*([^*]+)\*\*";
     "\s*([+\-])\s*";
     "\s+";
     "<br/>.*";
     "Level\s+(\d+)";
     "EV\s+(.+)";
     "^>\s*>?\s*";
     ">?\s*#{6}\s+(.+?)\s+Statblock\s*\n";
     "\n(?:>\s*)?#{1,6}\s+";
     ">?\s*\*\*(.+?)\*\*\s*\n";
     "^>\s*";
     "\n>\s*>\s*\*\*([^*]+)\*\*\s*\n";
     "\*\*Power Roll \+ ([^:]+):\*\*";
     "([0-9dD\s+\-\*\/A-Za-z\(\)]+?)(?:\s+([a-zA-Z]+(?:\s+[a-zA-Z]+)*))?\s+damage";
     "(?:>\s*)?-\s*\*\*([^:]+):\*\*\s*(.+?)(?=(?:\n(?:>\s*)?-\s*\*\*|\n\*\*|\Z))";
     "\n\*\*[^*]+\*\*";
     "\*\*Effect:\*\*\s*([^.]+)\.\s*(?:If you target an enemy|Otherwise),?\s*you make a power roll";
     "\*\*Persistent (\d+):\*\*\s*(.+?)(?=\n\n|\Z)";
     "\*\*Trigger:\*\*\s*(.+?)(?=\n\n\*\*|\n\*\*|\Z)";
     "(?:\*\*🎯[^*]+\*\*|\*\*Trigger:\*\*[^\n]+).*?\n\n\*\*Effect:\*\*\s*(.+?)(?=\n\n\*\*Power Roll)";
     "\*\*Mark Benefit:\*\*\s*(.+?)(?=\n\n\*\*Persistent|\n\n|$)";
     "\*\*Strained:\*\*\s*(.+?)(?=\n\n\*\*|\n\*\*|\Z)";
     "\*\*Power Roll.+?\n(?:- \*\*[^*]+\*\*[^*]*\n)+.*?\n\n\*\*Effect:\*\*\s*(.+?)(?=\n\n\*\*Mark Benefit|\n\n\*\*Persistent|\n\n|$)";
     "\*\*Effect:\*\*\s*(.+?)(?=\n#{5,6}|\Z)";
     "\*\*📏\s*([^*]+?)\*\*";
     "\*\*🎯\s*([^*]+?)\*\*";
     "^\s*-\s+(.*)$";
     "^---\s*\n(.*?)\n---\s*\n(.*)$";
     "\*\*Trigger:\*\*";
     "\*\*Effect:\*\*";
     "\*\*Power Roll";
     "\*\*Mark Benefit:\*\*";
     "\*\*Strained:\*\*";
     "\*\*Persistent";
     "\*\*Spend";
     "#+ .+?\n\n\*(.+?)\*";
     "-\d+-\w+$";
     "\*\*Power Roll.+?\n(?:- \*\*[^*]+\*\*[^*]*\n)+.*?\n\n\*\*Effect:\*\*\s*(.+?)(?=\n\n\*\*Mark Benefit|\n\n\*\*Persistent|\n\n\*\*Spend|\Z)";
     "\*\*Effect:\*\*\s*(.+?)(?=\n>\s*#{5,6}|\Z)";
     "-\s*\*\*([^:]+):\*\*\s*(.+?)(?=\n-\s*\*\*|$)";
     "\*\*Spend (\d+\+?) ([^:]+):\*\*\s*(.+?)(?=\n\n\*\*Spend|\Z)";
     "\*([^*]+)\*";
     ">\s*#{5,6}\s+([^\n]+)\n(.*?)(?=\n>\s*#{5,6}|\Z)"].

(** ** Sample documents *)

Definition v (s : string) : value := VStr (py s).

Definition both_effects_body : str :=
  py "**🎯 One creature**

**Effect:** You shift 1.

**Power Roll + Might:**
- **≤11:** 3 damage
- **12-16:** 5 damage
- **17+:** 8 damage

**Effect:** The target is slowed.
".

Definition both_effects_file : file :=
  {| file_name := py "strike.md";
     file_content := Some (py "---
item_id: strike
---
" ++ both_effects_body) |}.

Definition order_of (record : outcome value) : value :=
  match record with
  | Returns r => vget "component_order" r
  | Raises => VNone
  end.

Definition effects_of (record : outcome value) : value :=
  match record with
  | Returns r => vget "effects" r
  | Raises => VNone
  end.

Definition plain_file : file :=
  {| file_name := py "plain.md";
     file_content := Some (py "---
item_id: plain
---
Just text.") |}.

Definition unreadable_file : file :=
  {| file_name := py "broken.md"; file_content := None |}.

Definition bare_file : file :=
  {| file_name := py "bare.md"; file_content := Some (py "Just text.") |}.

(** ** Vocabulary of the further properties *)

(** The first character of the text and its last one do not satisfy [f]. *)
Definition edge_free (f : N -> bool) (t : str) : bool :=
  match t with
  | [] => true
  | c :: _ => negb (f c) && negb (f (last t c))
  end.

(** Two characters that satisfy [p] stand side by side in the text. *)
Fixpoint adjacent (p : N -> bool) (t : str) : bool :=
  match t with
  | c :: ((d :: _) as rest) => (p c && p d) || adjacent p rest
  | _ => false
  end.

Definition effect_keys : list string :=
  ["trigger"; "before"; "after"; "effect"; "mark_benefit"; "strained"].

(** What an effect extractor returns: [None], or a mapping that is not
    empty, from keys of [effect_keys] to trimmed texts. *)
Definition effects_mapping (e : value) : Prop :=
  match e with
  | VNone => True
  | VDict d =>
    truthy (VDict d) = true
    /\ NoDup (keys d)
    /\ Forall (fun kv => In (fst kv) effect_keys
                         /\ exists t, snd kv = VStr t /\ strip t = t) d
  | _ => False
  end.

(** An effect of a tier: a trimmed text that is not empty. *)
Definition kept_effect (e : str) : Prop := strip e = e /\ nonempty e = true.

(** The [damage] of a tier: [None], or a mapping with a text under [formula]
    and, under [type], a text or [None]. *)
Definition damage_field (d : value) : Prop :=
  match d with
  | VNone => True
  | VDict dm =>
    (exists f, dget "formula" dm = VStr f)
    /\ has_key "type" dm = true
    /\ (dget "type" dm = VNone \/ exists t, dget "type" dm = VStr t)
  | _ => False
  end.

Definition tier_shape (t : value) : Prop :=
  exists label range damage effects,
    t = VDict [("tier", VStr label); ("range", VStr range);
               ("damage", damage); ("effects", VList (map VStr effects))]
    /\ In label tier_labels
    /\ damage_field damage.

(** The label for which a token of [component_order] is listed. *)
Definition section_of (token : string) : string :=
  if String.eqb token "before" || String.eqb token "after" || String.eqb token "effect"
  then "effect"
  else if String.eqb token "cost" then "cost_options"
  else token.

(** The offset [section_positions] holds for a label. *)
Definition position (body : str) (name : string) : option nat :=
  option_map snd (find (fun x => String.eqb (fst x) name) (section_positions body)).

Fixpoint ascending (l : list nat) : bool :=
  match l with
  | a :: ((b :: _) as rest) => (a <=? b) && ascending rest
  | _ => true
  end.

(** The label of every token occurs in the text, and the tokens are in the
    order of the first occurrences of their labels. *)
Definition in_document_order (body : str) (order : list string) : bool :=
  forallb (fun token => match position body (section_of token) with
                        | Some _ => true
                        | None => false
                        end) order
  && ascending (map (fun token => match position body (section_of token) with
                                  | Some p => p
                                  | None => 0
                                  end) order).

(** The loop of [parse_ability_file] over the labels, before the fall-back. *)
Definition file_loop (body : str) (parsed_effects power_roll persistent cost : value)
  : list string :=
  fold_left (file_component parsed_effects power_roll persistent cost)
            (sorted_sections body) [].

Definition is_markdown (f : file) : bool := endswith (py ".md") (file_name f).

(** A text, or a list of texts. *)
Definition text_or_texts (v : value) : bool :=
  match v with
  | VStr _ => true
  | VList l => forallb (fun x => match x with VStr _ => true | _ => false end) l
  | _ => false
  end.

Definition embedded_keys : list string :=
  ["name"; "flavor_text"; "action_type"; "keywords"; "distance"; "target";
   "cost_options"; "power_roll"; "effects"; "persistent"; "component_order"].

(** *** Substitutions of runs of a class *)

(** The number of characters at the head of the text that satisfy [ok]. *)
Fixpoint run_len (ok : N -> bool) (l : str) : nat :=
  match l with
  | c :: t => if ok c then S (run_len ok t) else 0
  | [] => 0
  end.

(** The offset of the first character that satisfies [ok]. *)
Fixpoint first_ok (ok : N -> bool) (l : str) : option nat :=
  match l with
  | [] => None
  | c :: t => if ok c then Some 0 else option_map S (first_ok ok t)
  end.

(** The text with each maximal run of characters that satisfy [ok] replaced
    by [t]; [in_run] tells that such a run is being read. *)
Fixpoint squeeze (ok : N -> bool) (t : str) (in_run : bool) (l : str) : str :=
  match l with
  | [] => []
  | c :: r =>
    if ok c then (if in_run then squeeze ok t true r else t ++ squeeze ok t true r)
    else c :: squeeze ok t false r
  end.

(** The text with each character that satisfies [ok] replaced by [t]. *)
Definition replace_each (ok : N -> bool) (t : str) (l : str) : str :=
  flat_map (fun c => if ok c then t else [c]) l.

(** The match of a pattern that begins at a character satisfying [ok] and
    takes [ext] of the characters that follow. *)
Definition class_match (ok : N -> bool) (ext : str -> nat) (s : str) (i : nat)
  : option rmatch :=
  match nth_error s i with
  | Some x =>
    if ok x
    then Some {| m_start := i; m_end := S i + ext (skipn (S i) s); m_caps := [] |}
    else None
  | None => None
  end.

(** A replacement template without group references. *)
Definition plain_template (t : str) : bool := forallb (fun c => negb (c =? 92)%N) t.

Definition hyphen (c : N) : bool := (c =? 45)%N.

(** White space in the text is single spaces only. *)
Definition single_spaced (f : str) : bool :=
  negb (adjacent (isspace db) f)
  && forallb (fun c => implb (isspace db c) (c =? 32)%N) f.

(** Neither an en dash nor an em dash. *)
Definition no_long_dash (c : N) : bool := negb (c =? 8211)%N && negb (c =? 8212)%N.

(** A character of a slug: a word character or a hyphen. *)
Definition slug_char (c : N) : bool := is_word c || hyphen c.

(** A table of [extract_tables]: a name, headers and rows, with one header
    at least and one row at least; the keys of every row are the headers. *)
Definition table_shape (t : value) : Prop :=
  exists (name : str) (headers : list str) (rows : list dict),
    t = VDict [("name", VStr name);
               ("headers", VList (map VStr headers));
               ("data", VList (map VDict rows))]
    /\ strip name = name
    /\ 0 < length headers
    /\ 0 < length rows
    /\ Forall (fun row => forall k, has_key k row = true <-> In k (map key_of headers))
              rows.

Definition no_bracket (c : N) : bool := negb (c =? 91)%N.

(** *** Stat blocks *)

Definition stat_keys : list string :=
  ["ancestry"; "level"; "role"; "ev"; "size"; "speed"; "stamina"; "stability";
   "free_strike"; "immunities"; "movement"; "with_captain"; "weaknesses"].

Definition numeric_keys : list string :=
  ["level"; "speed"; "stamina"; "stability"; "free_strike"].

(** The text of a cell that has one: it is not empty and not a dash. *)
Definition cell_text (v : str) : bool := nonempty v && negb (str_eqb v (py "-")).

(** An entry of [stats]: an integer under a numeric key, or a text, which is
    the text of a cell unless the key is [ev]. *)
Definition stat_entry (kv : string * value) : bool :=
  existsb (String.eqb (fst kv)) stat_keys
  && match snd kv with
     | VInt _ => existsb (String.eqb (fst kv)) numeric_keys
     | VStr v => String.eqb (fst kv) "ev" || cell_text v
     | _ => false
     end.

(** A trait: an [ability] with its [content], which has a pipe, or a
    [trait] with its [description], which has none. *)
Definition trait_shape (t : value) : Prop :=
  exists name text,
    (contains (py "|") text = true
     /\ t = VDict [("name", VStr name); ("type", VStr (py "ability"));
                   ("content", VStr text)])
    \/ (contains (py "|") text = false
        /\ t = VDict [("name", VStr name); ("type", VStr (py "trait"));
                      ("description", VStr text)]).

Definition stat_block_shape (b : value) : Prop :=
  match b with
  | VNone => True
  | VDict d =>
    exists name full table stats traits,
      d = [("name", VStr name); ("full_content", VStr full); ("stat_table", table);
           ("stats", stats); ("traits", traits)]
      /\ strip name = name
      /\ strip full = full
      /\ (table = VNone \/ exists t, table = VStr t)
      /\ match stats with
         | VNone => truthy table = false
         | VDict s => truthy table = true /\ NoDup (keys s) /\ forallb stat_entry s = true
         | _ => False
         end
      /\ match traits with
         | VNone => True
         | VList (t :: l) => Forall trait_shape (t :: l)
         | _ => False
         end
  | _ => False
  end.

(** *** The record of a stand-alone ability *)

Definition base_keys : list string :=
  ["item_id"; "base_id"; "item_name"; "item_index"; "source"; "type"; "class";
   "level"; "ability_type"; "feature_type"].

Definition section_keys : list string :=
  ["cost"; "targeting"; "flavor"; "power_roll"; "effects"; "persistent"].

(** The key, when the record has it. *)
Definition optional (k : string) (r : dict) : list string :=
  if has_key k r then [k] else [].

(** The fields of a stand-alone record, in their order. *)
Definition standalone_keys (r : dict) : list string :=
  base_keys ++ optional "action" r ++ section_keys
  ++ optional "component_order" r ++ optional "stat_block" r ++ optional "subclass" r.

Definition standalone_record (r : value) : Prop :=
  exists d, r = VDict d /\ keys d = standalone_keys d.

(** The patterns of the further functions. *)
Definition further_patterns : list string :=
  ["[^\w\s-]";
   "[-\s]+";
   "\[([^\]]+)\]\([^\)]+\)";
   "\[([^\]]+)\]\[[^\]]*\]";
   "^\[([^\]]+)\]:\s+.*$";
   "#{4,6}\s+(.+)";
   "(#{4,6}\s+.+\s*$)"].

(** * Properties *)

(** ** The matcher

    The bound on the iterations of a repetition is never what ends it: any
    larger bound gives the same matches. *)

Lemma flat_map_nil {A B : Type} (f : A -> list B) (l : list A) :
  (forall x, In x l -> f x = []) -> flat_map f l = [].
Proof.
  induction l as [|a l IH]; simpl; intros H; [reflexivity|].
  rewrite (H a (or_introl eq_refl)), IH; auto.
Qed.

Lemma flat_map_same {A B : Type} (f g : A -> list B) (l : list A) :
  (forall x, In x l -> f x = g x) -> flat_map f l = flat_map g l.
Proof.
  induction l as [|a l IH]; simpl; intros H; [reflexivity|].
  rewrite (H a (or_introl eq_refl)), IH; auto.
Qed.

Lemma rep_loop_bounded (n : nat) (step : nat -> caps -> list mstate) (greedy : bool) :
  bounded n step ->
  forall fuel lo hi, bounded n (rep_loop step greedy fuel lo hi).
Proof.
  intros B fuel. induction fuel as [|fuel IH]; intros lo hi i c st Hi; simpl.
  - destruct lo; simpl; [|tauto]. intros [<-|[]]. simpl. lia.
  - assert (Hstop : In st (match lo with O => [(i, c)] | S _ => [] end) ->
                    i <= fst st <= n).
    { destruct lo; simpl; [|tauto]. intros [<-|[]]. simpl. lia. }
    assert (Hmore : In st (flat_map
                             (fun st0 : mstate =>
                                if (0 <? lo) || (i <? fst st0)
                                then rep_loop step greedy fuel (pred lo)
                                       (option_map pred hi) (fst st0) (snd st0)
                                else []) (step i c)) ->
                    i <= fst st <= n).
    { intros H. apply in_flat_map in H as (x & Hx & H).
      destruct ((0 <? lo) || (i <? fst x)); [|destruct H].
      destruct (B i c x Hi Hx) as [L U].
      destruct (IH _ _ _ _ _ U H). lia. }
    destruct hi as [[|h]|]; destruct greedy; simpl;
      rewrite ?app_nil_r; try exact Hstop;
      intros H; apply in_app_or in H as [H|H]; auto.
Qed.

Lemma run_bounded (fl : flags) (s : str) (r : regex) : bounded (length s) (run fl s r).
Proof.
  assert (Hone : forall ok, bounded (length s) (one_char s ok)).
  { intros ok i c st Hi. unfold one_char, char_at.
    destruct (nth_error s i) eqn:E; [|intros []].
    destruct (ok n); [|intros []]. intros [<-|[]]. simpl.
    assert (i < length s) by (apply nth_error_Some; congruence). lia. }
  assert (Hzero : forall ok i c st, In st (zero_width ok i c) -> fst st = i).
  { intros ok i c st. unfold zero_width. destruct ok; [|intros []].
    now intros [<-|[]]. }
  induction r; intros i cp st Hi; simpl;
    try (intros H; apply Hzero in H; lia);
    try apply Hone; auto.
  - intros [<-|[]]. simpl. lia.
  - intros H. apply in_flat_map in H as (x & Hx & H).
    destruct (IHr1 i cp x Hi Hx) as [L U].
    destruct (IHr2 _ _ _ U H). lia.
  - intros H. apply in_app_or in H as [H|H]; eauto.
  - apply rep_loop_bounded; auto.
  - intros H. apply in_map_iff in H as (x & <- & Hx). simpl. eauto.
  - destruct (run fl s r i cp); [intros []|]. intros [<-|[]]. simpl. lia.
Qed.

Lemma rep_loop_fuel (n : nat) (step : nat -> caps -> list mstate) (greedy : bool) :
  bounded n step ->
  forall fuel lo hi i c,
    i <= n -> n - i + lo <= fuel ->
    rep_loop step greedy (S fuel) lo hi i c = rep_loop step greedy fuel lo hi i c.
Proof.
  intros B fuel. induction fuel as [|fuel IH]; intros lo hi i c Hi Hf.
  - assert (lo = 0) by lia. assert (i = n) by lia. subst lo i.
    assert (Hnil : forall x, In x (step n c) -> (n <? fst x) = false).
    { intros x Hx. destruct (B n c x (le_n n) Hx).
      apply Nat.ltb_ge. lia. }
    destruct hi as [[|h]|]; destruct greedy; simpl; try reflexivity;
      rewrite flat_map_nil; try reflexivity;
      intros x Hx; now rewrite (Hnil x Hx).
  - assert (Hmore :
      flat_map
        (fun st : mstate =>
           if (0 <? lo) || (i <? fst st)
           then rep_loop step greedy (S fuel) (pred lo) (option_map pred hi)
                  (fst st) (snd st)
           else []) (step i c)
      = flat_map
          (fun st : mstate =>
             if (0 <? lo) || (i <? fst st)
             then rep_loop step greedy fuel (pred lo) (option_map pred hi)
                    (fst st) (snd st)
             else []) (step i c)).
    { apply flat_map_same. intros x Hx. destruct (B i c x Hi Hx) as [L U].
      destruct ((0 <? lo) || (i <? fst x)) eqn:E; [|reflexivity].
      apply IH; [exact U|].
      apply orb_true_iff in E as [E|E];
        [apply Nat.ltb_lt in E | apply Nat.ltb_lt in E]; lia. }
    change (rep_loop step greedy (S (S fuel)) lo hi i c)
      with (let stop := match lo with O => [(i, c)] | S _ => [] end in
            let more :=
              match hi with
              | Some O => []
              | _ =>
                flat_map
                  (fun st : mstate =>
                     if (0 <? lo) || (i <? fst st)
                     then rep_loop step greedy (S fuel) (pred lo) (option_map pred hi)
                            (fst st) (snd st)
                     else []) (step i c)
              end in
            if greedy then more ++ stop else stop ++ more).
    cbv zeta. rewrite Hmore. reflexivity.
Qed.

(** A repetition run with more iterations allowed than the text has
    characters left finds the matches of [run]. *)
Lemma repetition_fuel_adequate (fl : flags) (s : str) (r : regex)
    (lo : nat) (hi : option nat) (greedy : bool) (i : nat) (c : caps) (extra : nat) :
  i <= length s ->
  rep_loop (run fl s r) greedy (length s - i + lo + extra) lo hi i c
  = run fl s (Rep lo hi greedy r) i c.
Proof.
  intros Hi.
  change (run fl s (Rep lo hi greedy r) i c)
    with (rep_loop (run fl s r) greedy (length s - i + lo) lo hi i c).
  induction extra as [|extra IH].
  - now rewrite Nat.add_0_r.
  - replace (length s - i + lo + S extra)
      with (S (length s - i + lo + extra)) by lia.
    rewrite rep_loop_fuel with (n := length s);
      [exact IH | apply run_bounded | exact Hi | lia].
Qed.


(** ** Dictionaries *)

Lemma has_key_dset (k k' : string) (v : value) (d : dict) :
  has_key k (dset k' v d) = String.eqb k' k || has_key k d.
Proof.
  induction d as [|[k0 v0] d IH]; simpl.
  - now rewrite orb_false_r.
  - destruct (String.eqb k0 k') eqn:E; simpl.
    + apply String.eqb_eq in E; subst k0.
      destruct (String.eqb k' k); reflexivity.
    + rewrite IH. destruct (String.eqb k0 k), (String.eqb k' k); reflexivity.
Qed.

Lemma dget_dset_same (k : string) (v : value) (d : dict) :
  dget k (dset k v d) = v.
Proof.
  induction d as [|[k0 v0] d IH]; simpl.
  - now rewrite String.eqb_refl.
  - destruct (String.eqb k0 k) eqn:E; simpl; rewrite E; auto.
Qed.

Lemma dget_dset_other (k k' : string) (v : value) (d : dict) :
  String.eqb k' k = false -> dget k (dset k' v d) = dget k d.
Proof.
  intros N. induction d as [|[k0 v0] d IH]; simpl.
  - now rewrite N.
  - destruct (String.eqb k0 k') eqn:E; simpl.
    + apply String.eqb_eq in E; subst k0. now rewrite N.
    + now rewrite IH.
Qed.

Lemma has_key_dset_if (c : bool) (k k' : string) (v : value) (d : dict) :
  has_key k (dset_if c k' v d) = (c && String.eqb k' k) || has_key k d.
Proof.
  unfold dset_if. destruct c; simpl; [apply has_key_dset | reflexivity].
Qed.

Lemma dget_dset_if_other (c : bool) (k k' : string) (v : value) (d : dict) :
  String.eqb k' k = false -> dget k (dset_if c k' v d) = dget k d.
Proof.
  unfold dset_if. destruct c; intros; [now apply dget_dset_other | reflexivity].
Qed.

(** ** Tier classification (C8) *)

(** C8: tier classification is total: every range text gets exactly one label
    of weak, average, strong, unknown (the label of the tier record of either
    parser); "≤11" is weak, "12-16" is average, "17+" is strong and "foo",
    which matches no pattern, is unknown. *)
Theorem tier_classification_total :
  (forall range_text : str, In (tier_of range_text) tier_labels)
  /\ NoDup tier_labels
  /\ (forall text m,
        vget "tier" (table_tier text m) = VStr (tier_of (strip (grp text 1 m)))
        /\ vget "tier" (embedded_tier text m) = VStr (tier_of (strip (grp text 1 m))))
  /\ tier_of (py "≤11") = py "weak"
  /\ tier_of (py "12-16") = py "average"
  /\ tier_of (py "17+") = py "strong"
  /\ tier_of (py "foo") = py "unknown".
Proof.
  split; [|split; [|split]].
  - intros range_text. unfold tier_of, tier_labels.
    destruct (contains (py "≤11") range_text || contains (py "11-") range_text);
      [now left|].
    destruct (contains (py "12-16") range_text || contains (py "12–16") range_text);
      [now right; left|].
    destruct (contains (py "17+") range_text || contains (py "17–") range_text);
      [now right; right; left | now right; right; right; left].
  - vm_compute. repeat constructor; simpl; intuition discriminate.
  - intros text m. split; reflexivity.
  - repeat split; vm_compute; reflexivity.
Qed.

(** ** The effect section extractor (C4) *)

Lemma capture_captured fl r content key effects :
  capture fl r content key effects =
  match captured fl r content with
  | Some t => dset key (VStr t) effects
  | None => effects
  end.
Proof. unfold capture, captured. now destruct (re_search fl r content). Qed.

Ltac effect_cases :=
  repeat match goal with
         | |- context [captured ?fl ?r ?c] => destruct (captured fl r c)
         end;
  simpl; repeat split; reflexivity.

Lemma parse_effects_renamed content :
  renamed_keys (captured DOTALL before_re content) (captured DOTALL after_re content)
               (parse_effects content true).
Proof.
  unfold renamed_keys, parse_effects. rewrite !capture_captured. effect_cases.
Qed.

Lemma parse_ability_effects_renamed content :
  renamed_keys (captured DOTALL before_re content)
               (captured DOTALL embedded_after_re content)
               (parse_ability_effects content true).
Proof.
  unfold renamed_keys, parse_ability_effects. rewrite !capture_captured. effect_cases.
Qed.

(** C4: the effects mapping of either extractor never holds [effect] together
    with [before] or [after]; for an ability with a power roll a lone [before]
    or [after] is found under [effect], and [before] and [after] are kept
    only when both were found. *)
Theorem effect_key_exclusivity (content : str) (has_power_roll : bool) :
  exclusive (parse_effects content has_power_roll) = false
  /\ exclusive (parse_ability_effects content has_power_roll) = false
  /\ renamed_keys (captured DOTALL before_re content) (captured DOTALL after_re content)
                  (parse_effects content true)
  /\ renamed_keys (captured DOTALL before_re content)
                  (captured DOTALL embedded_after_re content)
                  (parse_ability_effects content true).
Proof.
  split; [|split; [|split]].
  - unfold exclusive, parse_effects. rewrite !capture_captured.
    destruct has_power_roll; effect_cases.
  - unfold exclusive, parse_ability_effects. rewrite !capture_captured.
    destruct has_power_roll; effect_cases.
  - apply parse_effects_renamed.
  - apply parse_ability_effects_renamed.
Qed.

(** ** The power roll segmenter (C5) *)

Lemma table_tiers_nil content m :
  table_tiers content m = [] <->
  re_finditer DOTALL table_tier_re (power_roll_content content m) = [].
Proof.
  unfold table_tiers.
  destruct (re_finditer DOTALL table_tier_re (power_roll_content content m));
    simpl; split; intros H; try reflexivity; discriminate.
Qed.

(** C5: the segmenter returns [None] exactly when the body has no
    "Power Roll + X:" marker or no tier bullet is found after the marker;
    the [tiers] of a power roll it returns are never empty. *)
Theorem power_roll_none_iff_no_marker_or_no_tier (content : str) :
  (parse_power_roll_table content = VNone <->
   re_search no_flags power_roll_re content = None
   \/ exists m, re_search no_flags power_roll_re content = Some m
                /\ re_finditer DOTALL table_tier_re (power_roll_content content m) = [])
  /\ match parse_power_roll_table content with
     | VNone => True
     | power_roll =>
       exists tier tiers, vget "tiers" power_roll = VList (tier :: tiers)
                          /\ length (tier :: tiers)
                             = length (match re_search no_flags power_roll_re content with
                                       | Some m => re_finditer DOTALL table_tier_re
                                                     (power_roll_content content m)
                                       | None => []
                                       end)
     end.
Proof.
  unfold parse_power_roll_table.
  destruct (re_search no_flags power_roll_re content) as [m|].
  - unfold table_tiers.
    destruct (re_finditer DOTALL table_tier_re (power_roll_content content m))
      as [|t ts] eqn:E; simpl.
    + split; [|exact I]. split; [|reflexivity].
      intros _. right. exists m. split; [reflexivity | exact E].
    + split.
      * split; [discriminate|].
        intros [H|[m' [H1 H2]]]; [discriminate|].
        injection H1 as <-. rewrite E in H2. discriminate.
      * eexists; eexists. split; [reflexivity|].
        simpl. now rewrite length_map.
  - split; [|exact I]. split; [now left | reflexivity].
Qed.

(** ** The damage clause normalizer (C2) *)

Lemma damage_record_formula (c : candidate) :
  exists d, damage_record c = VDict d
            /\ dget "formula" d = VStr (normalize_formula (formula_candidate c))
            /\ truthy (VDict d) = true.
Proof.
  unfold damage_record.
  destruct (damage_type c) as [[|x t]|]; destruct (char_list c) as [[|y l]|];
    simpl; eexists; repeat split; reflexivity.
Qed.

Lemma primary_clause_ok (part : str) :
  match primary_clause part with
  | Some parsed => primary_ok part = true /\ truthy parsed = true
                   /\ exists f, vget "formula" parsed = VStr f
  | None => primary_ok part = false
  end.
Proof.
  unfold primary_clause, primary_ok.
  destruct (re_search IGNORECASE damage_clause_re part) as [m|]; [|reflexivity].
  destruct (looks_like_formula (formula_candidate (damage_candidate part m)));
    [|reflexivity].
  destruct (damage_record_formula (damage_candidate part m)) as (d & -> & Hf & Ht).
  repeat split; auto. simpl. eauto.
Qed.

Lemma equal_to_clause_ok (part : str) :
  match equal_to_clause part with
  | Some parsed => secondary_ok part = true /\ truthy parsed = true
                   /\ exists f, vget "formula" parsed = VStr f
  | None => secondary_ok part = false
  end.
Proof.
  unfold equal_to_clause, secondary_ok.
  destruct (re_search IGNORECASE equal_to_re part); [|reflexivity].
  repeat split; simpl; eauto.
Qed.

(** A clause is accepted exactly when it contains "damage" and one of the
    two patterns yields a record. *)
Lemma parse_damage_clause_truthy (part : str) :
  truthy (parse_damage_clause part)
  = nonempty part && contains (py "damage") (lower part)
    && (primary_ok part || secondary_ok part).
Proof.
  unfold parse_damage_clause.
  destruct (nonempty part); simpl; [|reflexivity].
  destruct (contains (py "damage") (lower part)); simpl; [|reflexivity].
  pose proof (primary_clause_ok part) as P.
  pose proof (equal_to_clause_ok part) as Q.
  destruct (primary_clause part).
  - destruct P as (-> & -> & _). reflexivity.
  - rewrite P. simpl.
    destruct (equal_to_clause part).
    + destruct Q as (-> & -> & _). reflexivity.
    + now rewrite Q.
Qed.

(** An accepted clause is a record with a formula. *)
Lemma parse_damage_clause_formula (part : str) :
  truthy (parse_damage_clause part) = true ->
  exists f, vget "formula" (parse_damage_clause part) = VStr f.
Proof.
  unfold parse_damage_clause.
  destruct (negb (nonempty part) || negb (contains (py "damage") (lower part)));
    [discriminate|].
  pose proof (primary_clause_ok part) as P.
  pose proof (equal_to_clause_ok part) as Q.
  destruct (primary_clause part).
  - intros _. apply P.
  - destruct (equal_to_clause part); [intros _; apply Q | discriminate].
Qed.

(** ** The loop over the parts of a tier result (C1, C2, C6, C10) *)



Lemma last_accepted_accepted (parts : list str) (q : str) :
  last_accepted parts = Some q -> accepted q = true.
Proof.
  induction parts as [|p rest IH]; simpl; [discriminate|].
  destruct (last_accepted rest); [auto|].
  destruct (accepted p) eqn:E; [|discriminate].
  now intros [= <-].
Qed.

Lemma embedded_part_step (st : tier_state) (part : str) :
  embedded_part st part = step_of fold_type st part.
Proof.
  unfold embedded_part, step_of, accepted, plain, damage_like. destruct st as [d e].
  destruct (contains (py "damage") (lower (strip part))); simpl.
  - now destruct (truthy (parse_damage_clause (strip part))).
  - now destruct (nonempty (strip part)).
Qed.

Lemma table_part_step (st : tier_state) (part : str) :
  passes_prefilter part = true ->
  table_part st part = step_of (fun d => d) st part.
Proof.
  unfold table_part, step_of, passes_prefilter, prefiltered, accepted, plain, damage_like.
  destruct st as [d e].
  destruct (contains (py "damage") (lower (strip part))); simpl.
  - destruct (re_search IGNORECASE damage_like_re (strip part)); [|discriminate].
    intros _. now destruct (truthy (parse_damage_clause (strip part))).
  - intros _. now destruct (nonempty (strip part)).
Qed.

Lemma steps_of (wrap : dict -> dict) (parts : list str) (st : tier_state) :
  fold_left (step_of wrap) parts st
  = (match last_accepted parts with
     | Some q => VDict (wrap (damage_of (parse_damage_clause (strip q))))
     | None => fst st
     end,
     snd st ++ plain_effects parts).
Proof.
  revert st. induction parts as [|p rest IH]; intros [d e]; simpl.
  - now rewrite app_nil_r.
  - rewrite IH. unfold step_of at 1 2. simpl. f_equal.
    + destruct (last_accepted rest); [reflexivity|]. now destruct (accepted p).
    + unfold plain_effects. simpl. destruct (plain p); simpl; [|reflexivity].
      now rewrite <- app_assoc.
Qed.

Lemma embedded_loop (parts : list str) (st : tier_state) :
  fold_left embedded_part parts st = fold_left (step_of fold_type) parts st.
Proof.
  revert st. induction parts as [|p rest IH]; intros st; simpl; [reflexivity|].
  now rewrite embedded_part_step, IH.
Qed.

Lemma table_loop (parts : list str) (st : tier_state) :
  forallb passes_prefilter parts = true ->
  fold_left table_part parts st = fold_left (step_of (fun d => d)) parts st.
Proof.
  revert st. induction parts as [|p rest IH]; intros st; simpl; [reflexivity|].
  intros H. apply andb_true_iff in H as [Hp Hrest].
  now rewrite table_part_step, IH.
Qed.


(** C2 (as amended): the normalizer returns a damage record exactly when the
    clause contains "damage" and either the candidate formula of the primary
    pattern passes the validation (a digit, a dice expression, a
    characteristic letter standing alone, or the word "level") or the clause
    matches the secondary pattern "Type damage equal to X"; otherwise it
    returns [None], and a tier parser that offered the clause to it retains
    the clause as a plain effect string. *)
Theorem damage_record_iff_validated_or_equal_to (part : str) :
  truthy (parse_damage_clause part)
  = nonempty part && contains (py "damage") (lower part)
    && (primary_ok part || secondary_ok part)
  /\ (truthy (parse_damage_clause part) = false -> parse_damage_clause part = VNone)
  /\ (forall st : tier_state,
        damage_like part = true ->
        truthy (parse_damage_clause (strip part)) = false ->
        embedded_part st part = (fst st, snd st ++ [strip part])
        /\ (prefiltered part = true ->
            table_part st part = (fst st, snd st ++ [strip part]))).
Proof.
  split; [apply parse_damage_clause_truthy | split].
  - unfold parse_damage_clause.
    destruct (negb (nonempty part) || negb (contains (py "damage") (lower part)));
      [reflexivity|].
    pose proof (primary_clause_ok part) as P.
    pose proof (equal_to_clause_ok part) as Q.
    destruct (primary_clause part).
    + destruct P as (_ & -> & _). discriminate.
    + destruct (equal_to_clause part); [|reflexivity].
      destruct Q as (_ & -> & _). discriminate.
  - intros st Hlike Hrej. split.
    + rewrite embedded_part_step. unfold step_of, accepted, plain.
      now rewrite Hlike, Hrej.
    + intros Hpre. rewrite table_part_step.
      * unfold step_of, accepted, plain. now rewrite Hlike, Hrej.
      * unfold passes_prefilter. now rewrite Hlike, Hpre.
Qed.

(** ** The two modes (C6) *)

Lemma damage_of_type (parsed : value) :
  dget "type" (damage_of parsed) = vget "type" parsed.
Proof. unfold damage_of. now destruct (vhas "characteristics" parsed). Qed.

Lemma damage_of_formula (parsed : value) :
  dget "formula" (damage_of parsed) = vget "formula" parsed.
Proof. unfold damage_of. now destruct (vhas "characteristics" parsed). Qed.


Lemma fold_type_id (part : str) :
  letter_typed part = false -> accepted part = true ->
  fold_type (damage_of (parse_damage_clause (strip part)))
  = damage_of (parse_damage_clause (strip part)).
Proof.
  unfold letter_typed. intros H Ha. rewrite Ha in H. simpl in H.
  unfold fold_type. rewrite damage_of_type, damage_of_formula.
  destruct (vget "type" (parse_damage_clause (strip part))); try reflexivity.
  rewrite H, andb_false_r.
  now destruct (vget "formula" (parse_damage_clause (strip part))).
Qed.

Lemma last_accepted_In (parts : list str) (q : str) :
  last_accepted parts = Some q -> In q parts.
Proof.
  induction parts as [|p rest IH]; simpl; [discriminate|].
  destruct (last_accepted rest); [auto|].
  destruct (accepted p); [|discriminate].
  intros [= <-]. now left.
Qed.

Ltac shared_cases :=
  repeat match goal with
         | |- context [captured ?fl ?r ?c] => destruct (captured fl r c)
         end;
  simpl; repeat split; reflexivity.

(** C6 (as amended): the two modes share the damage clause normalizer and
    the tier classification, and they parse a tier result text to the same
    tier record whenever its segments with "damage" pass the pre-filter of
    the stand-alone parser and no accepted damage has a single characteristic
    letter as its type; their effect extractors agree on [trigger],
    [mark_benefit] and [strained]. *)
Theorem modes_agree_on_tier_results (range_text result_text : str) :
  forallb passes_prefilter (split_chr 59%N result_text) = true ->
  existsb letter_typed (split_chr 59%N result_text) = false ->
  tier_record range_text (table_result result_text)
  = tier_record range_text (embedded_result result_text)
  /\ forall content has_power_roll,
       vget "trigger" (parse_effects content has_power_roll)
       = vget "trigger" (parse_ability_effects content has_power_roll)
       /\ vget "mark_benefit" (parse_effects content has_power_roll)
          = vget "mark_benefit" (parse_ability_effects content has_power_roll)
       /\ vget "strained" (parse_effects content has_power_roll)
          = vget "strained" (parse_ability_effects content has_power_roll).
Proof.
  intros Hpre Hletter. split.
  - f_equal. unfold table_result, embedded_result.
    rewrite (table_loop _ _ Hpre), embedded_loop, !steps_of.
    destruct (last_accepted (split_chr 59%N result_text)) as [q|] eqn:E;
      [|reflexivity].
    rewrite fold_type_id; [reflexivity| |now apply last_accepted_accepted in E].
    apply last_accepted_In in E.
    destruct (letter_typed q) eqn:L; [|reflexivity].
    assert (existsb letter_typed (split_chr 59%N result_text) = true)
      by (apply existsb_exists; eauto).
    congruence.
  - intros content has_power_roll.
    unfold parse_effects, parse_ability_effects. rewrite !capture_captured.
    destruct has_power_roll; shared_cases.
Qed.

(** ** Folding of a one-letter damage type in embedded mode (C10) *)




(** ** Field presence in the records (C7) *)

Lemma keys_dset (k : string) (v : value) (d : dict) :
  keys (dset k v d) = if has_key k d then keys d else keys d ++ [k].
Proof.
  unfold keys. induction d as [|[k0 v0] d IH]; simpl; [reflexivity|].
  destruct (String.eqb k0 k) eqn:E; simpl; [reflexivity|].
  rewrite IH. now destruct (has_key k d).
Qed.

Lemma has_key_In (k : string) (d : dict) : has_key k d = true <-> In k (keys d).
Proof.
  unfold keys. induction d as [|[k0 v0] d IH]; simpl.
  - split; [discriminate | tauto].
  - rewrite orb_true_iff, IH, String.eqb_eq. tauto.
Qed.

Lemma unique_dset (k : string) (v : value) (d : dict) :
  unique_keys d -> unique_keys (dset k v d).
Proof.
  unfold unique_keys. intros U. rewrite keys_dset.
  destruct (has_key k d) eqn:E; [exact U|].
  apply NoDup_app; [exact U | repeat constructor; simpl; tauto |].
  intros x Hx [<-|[]]. apply has_key_In in Hx. congruence.
Qed.

Lemma unique_dset_if (c : bool) (k : string) (v : value) (d : dict) :
  unique_keys d -> unique_keys (dset_if c k v d).
Proof. unfold dset_if. destruct c; [apply unique_dset | auto]. Qed.

(** The keys of a dictionary built by assignments are distinct, so a key
    survives the final clean-up exactly when its value is kept. *)
Lemma has_key_filter_kept (k : string) (d : dict) :
  unique_keys d ->
  has_key k (filter (fun kv => kept (snd kv)) d) = has_key k d && kept (dget k d).
Proof.
  unfold unique_keys, keys. induction d as [|[k0 v0] d IH]; simpl; [reflexivity|].
  intros U. inversion U as [|? ? Hnotin U']; subst.
  destruct (String.eqb k0 k) eqn:E; simpl.
  - apply String.eqb_eq in E; subst k0.
    assert (Hk : has_key k d = false).
    { destruct (has_key k d) eqn:F; [|reflexivity].
      apply has_key_In in F. contradiction. }
    destruct (kept v0); simpl.
    + now rewrite String.eqb_refl.
    + rewrite (IH U'), Hk. reflexivity.
  - destruct (kept v0); simpl; [rewrite E|]; now rewrite (IH U').
Qed.

Lemma same_refl (d : dict) : same_elsewhere d d.
Proof. split; auto. Qed.

Lemma same_trans (a b c : dict) :
  same_elsewhere a b -> same_elsewhere b c -> same_elsewhere a c.
Proof.
  intros [U1 H1] [U2 H2]. split; [auto|].
  intros k Hk. destruct (H1 k Hk), (H2 k Hk). split; congruence.
Qed.

Lemma same_dset (k : string) (v : value) (d : dict) :
  table_key k = true -> same_elsewhere d (dset k v d).
Proof.
  intros Hk. split; [apply unique_dset|].
  intros k' Hk'.
  assert (E : String.eqb k k' = false).
  { destruct (String.eqb k k') eqn:E; [|reflexivity].
    apply String.eqb_eq in E. congruence. }
  rewrite has_key_dset, E, dget_dset_other by exact E. auto.
Qed.

Lemma same_dset_if (c : bool) (k : string) (v : value) (d : dict) :
  table_key k = true -> same_elsewhere d (dset_if c k v d).
Proof. unfold dset_if. destruct c; [apply same_dset | intros; apply same_refl]. Qed.

Lemma same_two_columns (h dcols : list str) (d : dict) :
  same_elsewhere d (two_columns h dcols d).
Proof.
  unfold two_columns.
  repeat (eapply same_trans; [|apply same_dset_if; reflexivity]).
  destruct (comma_list (nth 0 h [])); [apply same_refl | now apply same_dset].
Qed.

Lemma same_other_column (d : dict) (col : str * str) :
  same_elsewhere d (other_column d col).
Proof.
  unfold other_column.
  repeat match goal with
         | |- context [if ?c then _ else _] => destruct c
         end;
    try apply same_refl; now apply same_dset.
Qed.

Lemma same_other_columns (cols : list (str * str)) (d : dict) :
  same_elsewhere d (fold_left other_column cols d).
Proof.
  revert d. induction cols as [|c cols IH]; intros d; simpl; [apply same_refl|].
  eapply same_trans; [apply same_other_column | apply IH].
Qed.

Lemma same_read_tables (tables : list (list str)) (d : dict) :
  same_elsewhere d (read_tables tables d).
Proof.
  induction tables as [|t tables IH]; simpl; [apply same_refl|].
  repeat match goal with
         | |- context [if ?c then _ else _] => destruct c
         end;
    auto using same_two_columns, same_other_columns.
Qed.

Lemma truthy_kept (v : value) : truthy v = true -> kept v = true.
Proof. destruct v as [| | |[|]|[|]|]; simpl; auto. Qed.

Ltac dict_step :=
  first [ rewrite has_key_dset
        | rewrite has_key_dset_if
        | rewrite dget_dset_same
        | rewrite dget_dset_other by reflexivity
        | rewrite dget_dset_if_other by reflexivity ].

(** The keys of the record of an embedded ability before the clean-up. *)
Lemma embedded_fields_keys (ability_text ability_name : str) :
  let d := embedded_fields ability_text ability_name in
  let power_roll := parse_ability_power_roll ability_text in
  let effects := parse_ability_effects ability_text (negb (is_none power_roll)) in
  unique_keys d
  /\ has_key "power_roll" d && kept (dget "power_roll" d) = truthy power_roll
  /\ has_key "effects" d && kept (dget "effects" d) = truthy effects
  /\ has_key "persistent" d && kept (dget "persistent" d)
     = (match re_search DOTALL persistent_re ability_text with
        | Some _ => true | None => false end)
  /\ has_key "cost_options" d && kept (dget "cost_options" d)
     = negb (Nat.eqb (length (re_finditer DOTALL spend_re ability_text)) 0)
  /\ has_key "stat_block" d = false.
Proof.
  intros d power_roll effects. subst d. unfold embedded_fields.
  fold power_roll. fold effects.
  match goal with
  | |- context [read_tables ?t ?b] =>
    pose proof (same_read_tables t b) as [U S]; set (tabled := read_tables t b) in *;
      set (base := b) in *
  end.
  assert (Ubase : unique_keys base).
  { subst base. apply unique_dset.
    destruct (re_search DOTALL persistent_re ability_text);
      [apply unique_dset|]; repeat apply unique_dset_if;
      (destruct (re_search no_flags (re "\*([^*]+)\*") ability_text);
       [apply unique_dset|]; unfold unique_keys; simpl;
       repeat constructor; simpl; intuition discriminate). }
  split; [apply unique_dset_if; auto|].
  destruct (S "power_roll" eq_refl) as [H1 G1].
  destruct (S "effects" eq_refl) as [H2 G2].
  destruct (S "persistent" eq_refl) as [H3 G3].
  destruct (S "cost_options" eq_refl) as [H4 G4].
  destruct (S "stat_block" eq_refl) as [H5 G5].
  rewrite !has_key_dset_if, !dget_dset_if_other by reflexivity.
  rewrite !andb_false_r. simpl.
  rewrite H1, G1, H2, G2, H3, G3, H4, G4, H5.
  clear U S H1 G1 H2 G2 H3 G3 H4 G4 H5 G5 Ubase tabled.
  subst base.
  destruct (re_search no_flags (re "\*([^*]+)\*") ability_text);
    destruct (re_search DOTALL persistent_re ability_text);
    destruct (truthy power_roll) eqn:TP; destruct (truthy effects) eqn:TE;
    unfold dset_if; simpl;
    try rewrite (truthy_kept _ TP); try rewrite (truthy_kept _ TE);
    repeat split;
    try reflexivity;
    now destruct (re_finditer DOTALL spend_re ability_text).
Qed.

(** The sections of a stand-alone record. *)
Lemma ability_record_fields
    (frontmatter : dict) (body : str) (item_id base_id : value) :
  let r := ability_record frontmatter body item_id base_id in
  (has_key "power_roll" r = true
   /\ dget "power_roll" r = parse_power_roll_table body)
  /\ (has_key "effects" r = true
      /\ dget "effects" r
         = parse_effects body (negb (is_none (parse_power_roll_table body))))
  /\ (has_key "persistent" r = true /\ dget "persistent" r = parse_persistent body)
  /\ has_key "stat_block" r = truthy (parse_stat_block body)
  /\ has_key "cost_options" r = false.
Proof.
  intros r. subst r. unfold ability_record.
  repeat split; repeat dict_step; simpl;
    rewrite ?andb_false_r, ?orb_false_r, ?andb_true_r; reflexivity.
Qed.

(** C7 (as amended): a stand-alone record always has the fields [power_roll],
    [effects] and [persistent], with the value [None] when the section is
    absent; it has [stat_block] only when a stat block was found and it never
    has [cost_options]. An embedded record omits what is absent: none of its
    values is [None], [[]] or [""]; [power_roll], [effects], [persistent] and
    [cost_options] are present exactly when they were found, and it never
    has [stat_block]. *)
Theorem field_presence
    (frontmatter : dict) (body : str) (item_id base_id : value)
    (ability_text ability_name : str) :
  let r := ability_record frontmatter body item_id base_id in
  let e := parse_embedded_ability ability_text ability_name in
  let text := unquoted ability_text in
  (has_key "power_roll" r = true
   /\ dget "power_roll" r = parse_power_roll_table body)
  /\ (has_key "effects" r = true
      /\ dget "effects" r
         = parse_effects body (negb (is_none (parse_power_roll_table body))))
  /\ (has_key "persistent" r = true /\ dget "persistent" r = parse_persistent body)
  /\ has_key "stat_block" r = truthy (parse_stat_block body)
  /\ has_key "cost_options" r = false
  /\ forallb (fun kv => kept (snd kv)) e = true
  /\ has_key "power_roll" e = truthy (parse_ability_power_roll text)
  /\ has_key "effects" e
     = truthy (parse_ability_effects text
                 (negb (is_none (parse_ability_power_roll text))))
  /\ has_key "persistent" e
     = (match re_search DOTALL persistent_re text with
        | Some _ => true | None => false end)
  /\ has_key "cost_options" e
     = negb (Nat.eqb (length (re_finditer DOTALL spend_re text)) 0)
  /\ has_key "stat_block" e = false.
Proof.
  intros r e text.
  pose proof (ability_record_fields frontmatter body item_id base_id) as R.
  fold r in R.
  destruct R as (R1 & R2 & R3 & R4 & R5).
  destruct (embedded_fields_keys text ability_name) as (U & E1 & E2 & E3 & E4 & E5).
  repeat (split; [assumption|]).
  subst e. unfold parse_embedded_ability. fold text.
  split.
  - apply forallb_forall. intros kv H. apply filter_In in H. exact (proj2 H).
  - rewrite !has_key_filter_kept by exact U.
    rewrite E1, E2, E3, E4, E5. repeat split; reflexivity.
Qed.

(** ** Documents that yield no record (C9) *)

Lemma has_key_truthy (k : string) (d : dict) :
  has_key k d = true -> truthy (VDict d) = true.
Proof. destruct d; [discriminate | reflexivity]. Qed.

Lemma skipped_in_batch (f : file) (pre post : list file) :
  parse_ability_file f = Returns VNone ->
  parse_abilities_directory (pre ++ f :: post) = parse_abilities_directory (pre ++ post).
Proof.
  intros Hf. induction pre as [|g pre IH]; simpl.
  - rewrite Hf. simpl.
    destruct (endswith (py ".md") (file_name f)); [|reflexivity].
    now destruct (parse_abilities_directory post).
  - now rewrite IH.
Qed.

(** C9 (as amended): a document that cannot be read, or that has no front
    matter (or an empty one), does not raise: the stand-alone parser returns [None] for it, and
    the batch caller skips it and goes on with the other documents, so that
    no record is emitted for it. A document with front matter (a mapping
    whose [item_id] is a text or is missing) and no recoverable section is
    not skipped: it yields a record whose [power_roll], [effects] and
    [persistent] are what the extractors return, [None] for absent sections. *)
Theorem unreadable_or_no_frontmatter_skipped :
  (forall name : str,
      parse_ability_file {| file_name := name; file_content := None |} = Returns VNone)
  /\ (forall (name content : str),
         match_at DOTALL content frontmatter_re 0 = None ->
         parse_ability_file {| file_name := name; file_content := Some content |}
         = Returns VNone)
  /\ (forall (name content : str),
         truthy (fst (extract_frontmatter content)) = false ->
         parse_ability_file {| file_name := name; file_content := Some content |}
         = Returns VNone)
  /\ (forall (f : file) (pre post : list file),
         parse_ability_file f = Returns VNone ->
         parse_abilities_directory (pre ++ f :: post)
         = parse_abilities_directory (pre ++ post))
  /\ (forall (name content body : str) (fm : dict),
         extract_frontmatter content = (VDict fm, body) ->
         truthy (VDict fm) = true ->
         (dget "item_id" fm = VNone \/ exists id, dget "item_id" fm = VStr id) ->
         exists r,
           parse_ability_file {| file_name := name; file_content := Some content |}
           = Returns (VDict r)
           /\ truthy (VDict r) = true
           /\ dget "power_roll" r = parse_power_roll_table body
           /\ dget "effects" r
              = parse_effects body (negb (is_none (parse_power_roll_table body)))
           /\ dget "persistent" r = parse_persistent body).
Proof.
  split; [reflexivity | split; [|split; [|split; [exact skipped_in_batch|]]]].
  - intros name content H. unfold parse_ability_file, extract_frontmatter. simpl.
    now rewrite H.
  - intros name content H. unfold parse_ability_file. simpl.
    destruct (extract_frontmatter content) as [frontmatter body]. simpl in H.
    now rewrite H.
  - intros name content body fm Hfm Ht Hid.
    unfold parse_ability_file. simpl. rewrite Hfm, Ht. simpl.
    destruct Hid as [Hid|[id Hid]]; rewrite Hid; simpl.
    + pose proof (ability_record_fields fm body VNone VNone) as (R1 & R2 & R3 & _).
      eexists. split; [reflexivity|].
      split; [eapply has_key_truthy; apply R1|].
      repeat split; [apply R1 | apply R2 | apply R3].
    + destruct (negb (Nat.eqb (length id) 0)).
      * pose proof (ability_record_fields fm body (VStr id)
                      (VStr (re_sub no_flags (re "-\d+-\w+$") [] id)))
          as (R1 & R2 & R3 & _).
        eexists. split; [reflexivity|].
        split; [eapply has_key_truthy; apply R1|].
        repeat split; [apply R1 | apply R2 | apply R3].
      * pose proof (ability_record_fields fm body (VStr id) (VStr id))
          as (R1 & R2 & R3 & _).
        eexists. split; [reflexivity|].
        split; [eapply has_key_truthy; apply R1|].
        repeat split; [apply R1 | apply R2 | apply R3].
Qed.

(** ** The component order (C3)

    What holds of the order lists: no token is listed twice, and the
    stand-alone parser lists populated components only. *)

Lemma listed_In (name : string) (components : list string) :
  listed name components = true <-> In name components.
Proof.
  unfold listed. rewrite existsb_exists. split.
  - intros (x & Hx & E). apply String.eqb_eq in E. now subst.
  - intros H. exists name. split; [exact H | apply String.eqb_refl].
Qed.

Lemma NoDup_snoc (name : string) (components : list string) :
  NoDup components -> negb (listed name components) = true ->
  NoDup (components ++ [name]).
Proof.
  intros N H. apply negb_true_iff in H.
  apply NoDup_app; [exact N | repeat constructor; simpl; tauto |].
  intros x Hx [<-|[]]. apply listed_In in Hx. congruence.
Qed.

Ltac split_guards :=
  repeat match goal with
         | H : _ && _ = true |- _ => apply andb_true_iff in H; destruct H
         end.

Ltac chain_cases :=
  repeat match goal with
         | |- context [if ?c then _ else _] => destruct c eqn:?
         end.

Lemma file_component_once parsed_effects power_roll persistent cost components name :
  NoDup components ->
  NoDup (file_component parsed_effects power_roll persistent cost components name).
Proof.
  intros N. unfold file_component. chain_cases; split_guards;
    try exact N; apply NoDup_snoc; assumption.
Qed.

Lemma embedded_component_once parsed_effects components name :
  NoDup components ->
  NoDup (embedded_component parsed_effects components name).
Proof.
  intros N. unfold embedded_component. cbv zeta. chain_cases; split_guards;
    try exact N; try (apply NoDup_snoc; assumption).
  apply NoDup_snoc; [apply NoDup_snoc|]; assumption.
Qed.

Lemma file_component_populated parsed_effects power_roll persistent cost components name :
  Forall (fun n => file_populated parsed_effects power_roll persistent cost n = true)
         components ->
  Forall (fun n => file_populated parsed_effects power_roll persistent cost n = true)
         (file_component parsed_effects power_roll persistent cost components name).
Proof.
  intros F. unfold file_component. chain_cases; split_guards;
    try exact F; apply Forall_app; (split; [exact F|]);
    (apply Forall_cons; [|apply Forall_nil]);
    unfold file_populated; simpl; try assumption;
    unfold in_effects;
    repeat match goal with H : _ = true |- _ => rewrite H end; reflexivity.
Qed.

(** X5: the order lists hold no token twice, and every token of the
    stand-alone list names a populated component. *)
Lemma components_listed_once (body : str)
    (parsed_effects power_roll persistent cost : value) :
  NoDup (file_components body parsed_effects power_roll persistent cost)
  /\ Forall (fun n => file_populated parsed_effects power_roll persistent cost n = true)
            (file_components body parsed_effects power_roll persistent cost)
  /\ NoDup (embedded_components body parsed_effects).
Proof.
  assert (Hfile : forall secs acc,
             NoDup acc ->
             Forall (fun n => file_populated parsed_effects power_roll persistent cost n
                              = true) acc ->
             NoDup (fold_left (file_component parsed_effects power_roll persistent cost)
                              secs acc)
             /\ Forall (fun n => file_populated parsed_effects power_roll persistent cost n
                                 = true)
                       (fold_left (file_component parsed_effects power_roll persistent cost)
                                  secs acc)).
  { induction secs as [|n secs IH]; intros acc N F; simpl; [auto|].
    apply IH; [now apply file_component_once | now apply file_component_populated]. }
  assert (Hemb : forall secs acc,
             NoDup acc ->
             NoDup (fold_left (embedded_component parsed_effects) secs acc)).
  { induction secs as [|n secs IH]; intros acc N; simpl; [auto|].
    apply IH. now apply embedded_component_once. }
  assert (Hfall : NoDup (file_fallback parsed_effects power_roll persistent)
                  /\ Forall (fun n => file_populated parsed_effects power_roll persistent
                                        cost n = true)
                            (file_fallback parsed_effects power_roll persistent)).
  { unfold file_fallback.
    destruct (in_effects "trigger" parsed_effects) eqn:E1;
      destruct (in_effects "before" parsed_effects) eqn:E2;
      destruct (negb (is_none power_roll)) eqn:E3;
      destruct (in_effects "after" parsed_effects) eqn:E4;
      destruct (in_effects "mark_benefit" parsed_effects) eqn:E5;
      destruct (negb (is_none persistent)) eqn:E6;
      destruct (in_effects "effect" parsed_effects) eqn:E7;
      simpl; split;
        try (repeat constructor; simpl; intuition discriminate);
        repeat constructor; unfold file_populated; simpl; assumption. }
  split; [|split].
  - unfold file_components.
    destruct (Hfile (sorted_sections body) [] (NoDup_nil _) (Forall_nil _)) as [N _].
    destruct (fold_left _ (sorted_sections body) []); [apply Hfall | exact N].
  - unfold file_components.
    destruct (Hfile (sorted_sections body) [] (NoDup_nil _) (Forall_nil _)) as [_ F].
    destruct (fold_left _ (sorted_sections body) []); [apply Hfall | exact F].
  - apply Hemb. constructor.
Qed.

(** ** Trimmed texts *)

Lemma lstrip_by_split (f : N -> bool) (s : str) :
  exists a, s = a ++ lstrip_by f s /\ forallb f a = true.
Proof.
  induction s as [|c t IH]; simpl.
  - exists []. auto.
  - destruct (f c) eqn:E.
    + destruct IH as (a & Ha & Hf). exists (c :: a). simpl.
      rewrite E, Hf. split; [now rewrite <- Ha | reflexivity].
    + exists []. auto.
Qed.

Lemma lstrip_by_head (f : N -> bool) (s : str) :
  match lstrip_by f s with c :: _ => f c = false | [] => True end.
Proof.
  induction s as [|c t IH]; simpl; [exact I|].
  destruct (f c) eqn:E; [exact IH | exact E].
Qed.

Lemma lstrip_by_fixed (f : N -> bool) (s : str) :
  match s with c :: _ => f c = false | [] => True end -> lstrip_by f s = s.
Proof. destruct s as [|c t]; simpl; [reflexivity|]. now intros ->. Qed.

Lemma lstrip_by_idem (f : N -> bool) (s : str) :
  lstrip_by f (lstrip_by f s) = lstrip_by f s.
Proof. apply lstrip_by_fixed, lstrip_by_head. Qed.

Lemma rstrip_by_split (f : N -> bool) (s : str) :
  exists b, s = rstrip_by f s ++ b /\ forallb f b = true.
Proof.
  unfold rstrip_by. destruct (lstrip_by_split f (rev s)) as (a & Ha & Hf).
  exists (rev a). split.
  - rewrite <- rev_app_distr, <- Ha. now rewrite rev_involutive.
  - rewrite forallb_forall in *. intros x Hx. apply Hf. now apply in_rev.
Qed.

Lemma rstrip_by_idem (f : N -> bool) (s : str) :
  rstrip_by f (rstrip_by f s) = rstrip_by f s.
Proof. unfold rstrip_by. now rewrite rev_involutive, lstrip_by_idem. Qed.

Lemma strip_by_split (f : N -> bool) (s : str) :
  exists a b, s = a ++ strip_by f s ++ b.
Proof.
  unfold strip_by. destruct (lstrip_by_split f s) as (a & Ha & _).
  destruct (rstrip_by_split f (lstrip_by f s)) as (b & Hb & _).
  exists a, b. now rewrite <- Hb.
Qed.

Lemma strip_by_head (f : N -> bool) (s : str) :
  match strip_by f s with c :: _ => f c = false | [] => True end.
Proof.
  unfold strip_by. pose proof (lstrip_by_head f s) as H.
  destruct (rstrip_by_split f (lstrip_by f s)) as (b & Hb & _).
  destruct (rstrip_by f (lstrip_by f s)) as [|c r]; [exact I|].
  rewrite Hb in H. exact H.
Qed.

Lemma strip_by_last (f : N -> bool) (s : str) (d : N) :
  match strip_by f s with _ :: _ => f (last (strip_by f s) d) = false | [] => True end.
Proof.
  unfold strip_by, rstrip_by.
  pose proof (lstrip_by_head f (rev (lstrip_by f s))) as H.
  destruct (lstrip_by f (rev (lstrip_by f s))) as [|c r]; [exact I|].
  simpl rev. destruct (rev r ++ [c]) eqn:E.
  - now destruct (rev r).
  - rewrite <- E, last_last. exact H.
Qed.

Lemma strip_by_idem (f : N -> bool) (s : str) :
  strip_by f (strip_by f s) = strip_by f s.
Proof.
  pose proof (strip_by_head f s) as H.
  unfold strip_by at 1. rewrite (lstrip_by_fixed f _ H).
  unfold strip_by. apply rstrip_by_idem.
Qed.

Lemma strip_by_edge_free (f : N -> bool) (s : str) :
  edge_free f (strip_by f s) = true.
Proof.
  unfold edge_free. pose proof (strip_by_head f s) as Hh.
  destruct (strip_by f s) as [|c r] eqn:E; [reflexivity|].
  pose proof (strip_by_last f s c) as Hl. rewrite E in Hl.
  now rewrite Hh, Hl.
Qed.

Lemma strip_idem (t : str) : strip (strip t) = strip t.
Proof. apply strip_by_idem. Qed.

Lemma adjacent_app (p : N -> bool) (a b : str) :
  adjacent p (a ++ b) = false -> adjacent p a = false /\ adjacent p b = false.
Proof.
  induction a as [|c a IH]; simpl; [auto|].
  destruct a as [|d a]; simpl in *.
  - destruct b as [|e b]; [auto|].
    intros H. apply orb_false_iff in H as [_ H]. auto.
  - intros H. apply orb_false_iff in H as [H1 H2].
    destruct (IH H2) as [Ha Hb]. rewrite H1, Ha. auto.
Qed.

Lemma strip_by_adjacent (p f : N -> bool) (s : str) :
  adjacent p s = false -> adjacent p (strip_by f s) = false.
Proof.
  intros H. destruct (strip_by_split f s) as (a & b & E).
  rewrite E in H. apply adjacent_app in H as [_ H].
  now apply adjacent_app in H as [H _].
Qed.

Lemma strip_by_forallb (q f : N -> bool) (s : str) :
  forallb q s = true -> forallb q (strip_by f s) = true.
Proof.
  intros H. destruct (strip_by_split f s) as (a & b & E).
  rewrite E, !forallb_app in H.
  apply andb_true_iff in H as [_ H]. now apply andb_true_iff in H as [H _].
Qed.

(** ** The effects mapping *)

Lemma captured_trimmed fl r content t :
  captured fl r content = Some t -> strip t = t.
Proof.
  unfold captured. destruct (re_search fl r content); [|discriminate].
  intros [= <-]. apply strip_idem.
Qed.

Ltac mapping_cases :=
  repeat match goal with
         | |- context [captured ?fl ?r ?c] =>
           let E := fresh "E" in
           destruct (captured fl r c) eqn:E;
           [apply captured_trimmed in E|]
         end;
  simpl; try exact I;
  (split; [reflexivity|]; split;
   [repeat constructor; simpl; intuition discriminate
   |repeat (apply Forall_cons; [simpl; split; [tauto | eauto]|]); apply Forall_nil]).

(** X1: an effect extractor returns [None] or a mapping that is not empty;
    the keys of the mapping are distinct and among [trigger], [before],
    [after], [effect], [mark_benefit] and [strained], and every value is a
    trimmed text. *)
Theorem effects_none_or_trimmed_texts (content : str) (has_power_roll : bool) :
  effects_mapping (parse_effects content has_power_roll)
  /\ effects_mapping (parse_ability_effects content has_power_roll).
Proof.
  split.
  - unfold effects_mapping, parse_effects. rewrite !capture_captured.
    destruct has_power_roll; mapping_cases.
  - unfold effects_mapping, parse_ability_effects. rewrite !capture_captured.
    destruct has_power_roll; mapping_cases.
Qed.

(** ** The tier records *)

Lemma tier_of_label (range_text : str) : In (tier_of range_text) tier_labels.
Proof.
  unfold tier_of, tier_labels.
  destruct (contains (py "≤11") range_text || contains (py "11-") range_text);
    [now left|].
  destruct (contains (py "12-16") range_text || contains (py "12–16") range_text);
    [now right; left|].
  destruct (contains (py "17+") range_text || contains (py "17–") range_text);
    [now right; right; left | now right; right; right; left].
Qed.

(** The pre-filter needs a text to match. *)
Lemma prefilter_needs_text : re_search IGNORECASE damage_like_re [] = None.
Proof. reflexivity. Qed.

Lemma table_part_effects (st : tier_state) (part : str) :
  Forall kept_effect (snd st) -> Forall kept_effect (snd (table_part st part)).
Proof.
  intros H. unfold table_part.
  destruct (contains (py "damage") (lower (strip part))).
  - destruct (re_search IGNORECASE damage_like_re (strip part)) eqn:E; [|exact H].
    destruct (truthy (parse_damage_clause (strip part))); [exact H|].
    simpl. apply Forall_app. split; [exact H|].
    apply Forall_cons; [|apply Forall_nil]. split; [apply strip_idem|].
    destruct (strip part); [|reflexivity].
    rewrite prefilter_needs_text in E. discriminate.
  - destruct (nonempty (strip part)) eqn:E; [|exact H].
    simpl. apply Forall_app. split; [exact H|].
    apply Forall_cons; [|apply Forall_nil]. split; [apply strip_idem | exact E].
Qed.

Lemma embedded_part_effects (st : tier_state) (part : str) :
  lower [] = [] ->
  Forall kept_effect (snd st) -> Forall kept_effect (snd (embedded_part st part)).
Proof.
  intros Hl H. unfold embedded_part.
  destruct (contains (py "damage") (lower (strip part))) eqn:C.
  - destruct (truthy (parse_damage_clause (strip part))); [exact H|].
    simpl. apply Forall_app. split; [exact H|].
    apply Forall_cons; [|apply Forall_nil]. split; [apply strip_idem|].
    destruct (strip part); [|reflexivity].
    rewrite Hl in C. discriminate.
  - destruct (nonempty (strip part)) eqn:E; [|exact H].
    simpl. apply Forall_app. split; [exact H|].
    apply Forall_cons; [|apply Forall_nil]. split; [apply strip_idem | exact E].
Qed.

(** X2: no effect of a tier is empty or has white space at either end: the
    stand-alone parser appends trimmed segments that are not empty (a
    segment with "damage" is appended only after the pre-filter matched in
    it), and so does the embedded parser, given that the lower case of the
    empty text is the empty text. *)
Theorem tier_effects_trimmed_nonempty (result_text : str) :
  Forall (fun e => strip e = e /\ nonempty e = true) (snd (table_result result_text))
  /\ (lower [] = [] ->
      Forall (fun e => strip e = e /\ nonempty e = true)
             (snd (embedded_result result_text))).
Proof.
  split.
  - unfold table_result.
    assert (H : forall parts st,
               Forall kept_effect (snd st) ->
               Forall kept_effect (snd (fold_left table_part parts st))).
    { induction parts as [|p parts IH]; intros st Hst; simpl; [exact Hst|].
      apply IH. now apply table_part_effects. }
    apply H. apply Forall_nil.
  - intros Hl. unfold embedded_result.
    assert (H : forall parts st,
               Forall kept_effect (snd st) ->
               Forall kept_effect (snd (fold_left embedded_part parts st))).
    { induction parts as [|p parts IH]; intros st Hst; simpl; [exact Hst|].
      apply IH. now apply embedded_part_effects. }
    apply H. apply Forall_nil.
Qed.

Lemma damage_record_type (c : candidate) :
  vget "type" (damage_record c) = VNone
  \/ exists t, vget "type" (damage_record c) = VStr t.
Proof.
  unfold damage_record.
  destruct (damage_type c) as [[|x t]|]; destruct (char_list c) as [[|y l]|];
    simpl; eauto.
Qed.

Lemma parse_damage_clause_type (part : str) :
  vget "type" (parse_damage_clause part) = VNone
  \/ exists t, vget "type" (parse_damage_clause part) = VStr t.
Proof.
  unfold parse_damage_clause.
  destruct (negb (nonempty part) || negb (contains (py "damage") (lower part)));
    [now left|].
  unfold primary_clause, equal_to_clause.
  destruct (re_search IGNORECASE damage_clause_re part) as [m|].
  - destruct (looks_like_formula (formula_candidate (damage_candidate part m))).
    + apply damage_record_type.
    + destruct (re_search IGNORECASE equal_to_re part); simpl; eauto.
  - destruct (re_search IGNORECASE equal_to_re part); simpl; eauto.
Qed.

Lemma has_key_damage_of (parsed : value) : has_key "type" (damage_of parsed) = true.
Proof. unfold damage_of. now destruct (vhas "characteristics" parsed). Qed.

Lemma damage_of_field (part : str) :
  truthy (parse_damage_clause part) = true ->
  damage_field (VDict (damage_of (parse_damage_clause part))).
Proof.
  intros H. simpl. rewrite damage_of_formula, damage_of_type, has_key_damage_of.
  split; [now apply parse_damage_clause_formula|].
  split; [reflexivity | apply parse_damage_clause_type].
Qed.

Lemma fold_type_field (dm : dict) :
  damage_field (VDict dm) -> damage_field (VDict (fold_type dm)).
Proof.
  intros (Hf & Hk & Ht). unfold fold_type.
  destruct (dget "type" dm) eqn:T; try (simpl; rewrite T; now auto).
  destruct (dget "formula" dm) eqn:F; try (simpl; rewrite T, F; now auto).
  destruct (nonempty s && characteristic_letter s);
    [|simpl; rewrite T, F; now eauto].
  simpl. rewrite dget_dset_same, has_key_dset.
  rewrite dget_dset_other by reflexivity. rewrite dget_dset_same.
  simpl. repeat split; eauto.
Qed.

Lemma table_part_damage (st : tier_state) (part : str) :
  damage_field (fst st) -> damage_field (fst (table_part st part)).
Proof.
  intros H. unfold table_part.
  destruct (contains (py "damage") (lower (strip part))).
  - destruct (re_search IGNORECASE damage_like_re (strip part)); [|exact H].
    destruct (truthy (parse_damage_clause (strip part))) eqn:T; [|exact H].
    now apply damage_of_field.
  - now destruct (nonempty (strip part)).
Qed.

Lemma embedded_part_damage (st : tier_state) (part : str) :
  damage_field (fst st) -> damage_field (fst (embedded_part st part)).
Proof.
  intros H. unfold embedded_part.
  destruct (contains (py "damage") (lower (strip part))).
  - destruct (truthy (parse_damage_clause (strip part))) eqn:T; [|exact H].
    apply fold_type_field. now apply damage_of_field.
  - now destruct (nonempty (strip part)).
Qed.

Lemma tier_record_shape (range_text : str) (st : tier_state) :
  damage_field (fst st) -> tier_shape (tier_record range_text st).
Proof.
  intros H. exists (tier_of range_text), range_text, (fst st), (snd st).
  split; [reflexivity | split; [apply tier_of_label | exact H]].
Qed.

(** X3: every tier of a power roll, of the stand-alone parser or of the
    embedded one, has the four fields [tier], [range], [damage] and
    [effects], in this order; [tier] is one of the four labels, [effects] a
    list of texts, and [damage] is [None] or a mapping that has a text under
    [formula] and, under [type], a text or [None]. *)
Theorem tiers_have_four_fields (content : str) :
  Forall tier_shape (tiers_of (parse_power_roll_table content))
  /\ Forall tier_shape (tiers_of (parse_ability_power_roll content)).
Proof.
  assert (Ht : forall parts st,
             damage_field (fst st) ->
             damage_field (fst (fold_left table_part parts st))).
  { induction parts as [|p parts IH]; intros st Hst; simpl; [exact Hst|].
    apply IH. now apply table_part_damage. }
  assert (He : forall parts st,
             damage_field (fst st) ->
             damage_field (fst (fold_left embedded_part parts st))).
  { induction parts as [|p parts IH]; intros st Hst; simpl; [exact Hst|].
    apply IH. now apply embedded_part_damage. }
  split.
  - unfold parse_power_roll_table, tiers_of.
    destruct (re_search no_flags power_roll_re content) as [m|];
      [|apply Forall_nil].
    destruct (table_tiers content m) as [|t ts] eqn:E; [apply Forall_nil|].
    simpl. rewrite <- E. unfold table_tiers. apply Forall_map.
    apply Forall_forall. intros x _. unfold table_tier.
    apply tier_record_shape, Ht. exact I.
  - unfold parse_ability_power_roll, tiers_of.
    destruct (re_search no_flags power_roll_re content) as [m|];
      [|apply Forall_nil].
    destruct (embedded_tiers content) as [|t ts] eqn:E; [apply Forall_nil|].
    simpl. rewrite <- E. unfold embedded_tiers. apply Forall_map.
    apply Forall_forall. intros x _. unfold embedded_tier.
    apply tier_record_shape, He. exact I.
Qed.

(** ** The order of the tokens of [component_order] *)

Lemma ascending_cons (a : nat) (l : list nat) :
  ascending (a :: l) = true <-> Forall (fun b => a <= b) l /\ ascending l = true.
Proof.
  revert a. induction l as [|b l IH]; intros a.
  - simpl. split; auto.
  - change (ascending (a :: b :: l)) with ((a <=? b) && ascending (b :: l)).
    rewrite andb_true_iff, Nat.leb_le. split.
    + intros [Hab Hl]. split; [|exact Hl].
      apply Forall_cons; [exact Hab|].
      apply IH in Hl as [Hb _].
      eapply Forall_impl; [|exact Hb]. simpl. intros c Hc. lia.
    + intros [Hf Hl]. inversion Hf; subst. auto.
Qed.

Lemma ascending_app (l1 l2 : list nat) :
  ascending l1 = true -> ascending l2 = true ->
  (forall a b, In a l1 -> In b l2 -> a <= b) ->
  ascending (l1 ++ l2) = true.
Proof.
  induction l1 as [|a l1 IH]; intros H1 H2 H; [exact H2|].
  simpl app. apply ascending_cons. apply ascending_cons in H1 as [Hf Hl].
  split.
  - apply Forall_app. split; [exact Hf|].
    apply Forall_forall. intros b Hb. apply H; [now left | exact Hb].
  - apply IH; auto. intros x y Hx Hy. apply H; [now right | exact Hy].
Qed.

Lemma insert_by_pos_In (x y : string * nat) (l : list (string * nat)) :
  In x (insert_by_pos y l) <-> x = y \/ In x l.
Proof.
  induction l as [|z l IH]; simpl.
  - intuition congruence.
  - destruct (snd y <=? snd z); simpl; [intuition congruence|].
    rewrite IH. intuition congruence.
Qed.

Lemma sorted_by_pos_In (x : string * nat) (l : list (string * nat)) :
  In x (sorted_by_pos l) <-> In x l.
Proof.
  induction l as [|y l IH]; simpl; [tauto|].
  rewrite insert_by_pos_In, IH. intuition congruence.
Qed.

Lemma insert_by_pos_ascending (x : string * nat) (l : list (string * nat)) :
  ascending (map snd l) = true -> ascending (map snd (insert_by_pos x l)) = true.
Proof.
  induction l as [|y l IH]; intros H; [reflexivity|].
  simpl insert_by_pos. destruct (snd x <=? snd y) eqn:E.
  - change (map snd (x :: y :: l)) with (snd x :: map snd (y :: l)).
    apply ascending_cons. split; [|exact H].
    apply Nat.leb_le in E. simpl map in H. apply ascending_cons in H as [Hf _].
    simpl map. apply Forall_cons; [exact E|].
    eapply Forall_impl; [|exact Hf]. simpl. intros c Hc. lia.
  - simpl map in *. apply ascending_cons in H as [Hf Hl].
    apply ascending_cons. split; [|now apply IH].
    apply Forall_forall. intros b Hb.
    apply in_map_iff in Hb as (z & <- & Hz).
    apply insert_by_pos_In in Hz as [->|Hz].
    + apply Nat.leb_gt in E. lia.
    + rewrite Forall_forall in Hf. apply Hf. now apply in_map.
Qed.

Lemma sorted_by_pos_ascending (l : list (string * nat)) :
  ascending (map snd (sorted_by_pos l)) = true.
Proof.
  induction l as [|x l IH]; [reflexivity|].
  simpl. now apply insert_by_pos_ascending.
Qed.

Lemma section_positions_of_names (secs : list (string * regex)) (body : str) :
  (forall n, In n (map fst (section_positions_of secs body)) -> In n (map fst secs))
  /\ (NoDup (map fst secs) -> NoDup (map fst (section_positions_of secs body))).
Proof.
  induction secs as [|[name pattern] secs [IHin IHnd]]; simpl; [auto|].
  split.
  - destruct (re_search no_flags pattern body); simpl; intuition.
  - intros N. inversion N as [|? ? Hnotin N']; subst.
    destruct (re_search no_flags pattern body); simpl; [|auto].
    constructor; auto.
Qed.

Lemma find_by_name (l : list (string * nat)) (n : string) (p : nat) :
  NoDup (map fst l) -> In (n, p) l ->
  find (fun x => String.eqb (fst x) n) l = Some (n, p).
Proof.
  induction l as [|[m q] l IH]; simpl; [tauto|].
  intros N. inversion N as [|? ? Hnotin N']; subst.
  intros [[= -> ->]|Hin].
  - now rewrite String.eqb_refl.
  - destruct (String.eqb m n) eqn:E; [|auto].
    apply String.eqb_eq in E. subst m.
    exfalso. apply Hnotin. apply in_map_iff. exists (n, p). auto.
Qed.

Lemma position_of_section (body : str) (n : string) (p : nat) :
  In (n, p) (sorted_by_pos (section_positions body)) -> position body n = Some p.
Proof.
  intros H. apply (proj1 (sorted_by_pos_In _ _)) in H. unfold position.
  rewrite (find_by_name _ n p); [reflexivity| |exact H].
  apply section_positions_of_names. unfold sections. simpl.
  repeat constructor; simpl; intuition discriminate.
Qed.

Lemma in_document_order_iff (body : str) (order : list string) :
  in_document_order body order = true <->
  Forall (fun token => exists p, position body (section_of token) = Some p) order
  /\ ascending (map (fun token => match position body (section_of token) with
                                  | Some p => p
                                  | None => 0
                                  end) order) = true.
Proof.
  unfold in_document_order. rewrite andb_true_iff, forallb_forall, Forall_forall.
  split; intros [H1 H2]; (split; [|exact H2]); intros x Hx.
  - specialize (H1 x Hx). destruct (position body (section_of x)); [eauto|discriminate].
  - destruct (H1 x Hx) as [p ->]. reflexivity.
Qed.

(** A loop whose iterations append tokens of the label they visit keeps
    the tokens in the order of the labels. *)
Lemma order_loop (body : str) (step : list string -> string -> list string) :
  (forall acc name, exists added,
      step acc name = acc ++ added
      /\ Forall (fun token => section_of token = name) added) ->
  forall (L : list (string * nat)) (acc : list string),
    ascending (map snd L) = true ->
    Forall (fun x => position body (fst x) = Some (snd x)) L ->
    in_document_order body acc = true ->
    (forall token x, In token acc -> In x L ->
                     match position body (section_of token) with
                     | Some p => p
                     | None => 0
                     end <= snd x) ->
    in_document_order body (fold_left step (map fst L) acc) = true.
Proof.
  intros Hstep L. induction L as [|[name p] L IH]; intros acc HL HP Hacc Hle;
    [exact Hacc|].
  simpl. destruct (Hstep acc name) as (added & -> & Hadded).
  inversion HP as [|? ? Hp HP']; subst. simpl in Hp.
  simpl map in HL. apply ascending_cons in HL as [HLf HL'].
  assert (Hval : forall token, In token added ->
                 position body (section_of token) = Some p).
  { intros token Hin. rewrite Forall_forall in Hadded.
    now rewrite (Hadded token Hin). }
  apply IH; auto.
  - apply in_document_order_iff. apply in_document_order_iff in Hacc as [A1 A2].
    split.
    + apply Forall_app. split; [exact A1|].
      apply Forall_forall. intros token Hin. exists p. auto.
    + rewrite map_app. apply ascending_app; [exact A2| |].
      * clear - Hval. induction added as [|t added IHa]; [reflexivity|].
        simpl map. apply ascending_cons. split.
        -- apply Forall_forall. intros b Hb.
           apply in_map_iff in Hb as (u & <- & Hu).
           rewrite (Hval t (or_introl eq_refl)), (Hval u (or_intror Hu)). lia.
        -- apply IHa. intros token Hin. apply Hval. now right.
      * intros a b Ha Hb.
        apply in_map_iff in Ha as (t & <- & Ht).
        apply in_map_iff in Hb as (u & <- & Hu).
        rewrite (Hval u Hu). apply (Hle t (name, p) Ht). now left.
  - intros token x Hin Hx. apply in_app_or in Hin as [Hin|Hin].
    + apply (Hle token x Hin). now right.
    + rewrite (Hval token Hin). rewrite Forall_forall in HLf.
      apply HLf. now apply in_map.
Qed.

Ltac name_cases :=
  repeat match goal with
         | H : _ && _ = true |- _ => apply andb_true_iff in H; destruct H
         | H : String.eqb _ _ = true |- _ => apply String.eqb_eq in H; subst
         end.

Lemma file_component_appends parsed_effects power_roll persistent cost acc name :
  exists added,
    file_component parsed_effects power_roll persistent cost acc name = acc ++ added
    /\ Forall (fun token => section_of token = name) added.
Proof.
  unfold file_component. chain_cases; name_cases;
    first [ exists []; split; [now rewrite app_nil_r | apply Forall_nil]
          | eexists; split; [reflexivity | repeat constructor] ].
Qed.

Lemma embedded_component_appends parsed_effects acc name :
  exists added,
    embedded_component parsed_effects acc name = acc ++ added
    /\ Forall (fun token => section_of token = name) added.
Proof.
  unfold embedded_component. cbv zeta. chain_cases; name_cases;
    first [ exists []; split; [now rewrite app_nil_r | apply Forall_nil]
          | eexists; split; [reflexivity | repeat constructor]
          | eexists; split; [rewrite <- app_assoc; reflexivity | repeat constructor] ].
Qed.

Lemma sorted_sections_loop (body : str) (step : list string -> string -> list string) :
  (forall acc name, exists added,
      step acc name = acc ++ added
      /\ Forall (fun token => section_of token = name) added) ->
  in_document_order body (fold_left step (sorted_sections body) []) = true.
Proof.
  intros Hstep. unfold sorted_sections.
  apply order_loop; [exact Hstep | apply sorted_by_pos_ascending | |reflexivity|].
  - apply Forall_forall. intros [n p] Hin. now apply position_of_section.
  - intros token x [].
Qed.

(** X4: the tokens that the loops over the section labels list in
    [component_order] are in the order of the text: the label of every
    token occurs in the text, and the offsets of the first occurrences of
    the labels do not decrease along the list. The stand-alone parser uses
    the list of its loop unless that list is empty, in which case it uses
    its fall-back ordering. *)
Theorem component_order_follows_document
    (body : str) (parsed_effects power_roll persistent cost : value) :
  in_document_order body (file_loop body parsed_effects power_roll persistent cost) = true
  /\ (file_components body parsed_effects power_roll persistent cost
      = file_loop body parsed_effects power_roll persistent cost
      \/ (file_loop body parsed_effects power_roll persistent cost = []
          /\ file_components body parsed_effects power_roll persistent cost
             = file_fallback parsed_effects power_roll persistent))
  /\ in_document_order body (embedded_components body parsed_effects) = true.
Proof.
  split; [|split].
  - apply sorted_sections_loop. intros acc name. apply file_component_appends.
  - unfold file_components, file_loop.
    destruct (fold_left _ (sorted_sections body) []); [right | left]; auto.
  - apply sorted_sections_loop. intros acc name. apply embedded_component_appends.
Qed.

(** ** The batch of documents *)

Lemma batch_app (a b : list file) :
  parse_abilities_directory (a ++ b)
  = match parse_abilities_directory a, parse_abilities_directory b with
    | Returns x, Returns y => Returns (x ++ y)
    | _, _ => Raises
    end.
Proof.
  induction a as [|f a IH]; simpl.
  - now destruct (parse_abilities_directory b).
  - destruct (endswith (py ".md") (file_name f)); [|exact IH].
    destruct (parse_ability_file f) as [ability|]; [|reflexivity].
    rewrite IH.
    destruct (parse_abilities_directory a), (parse_abilities_directory b);
      try reflexivity.
    now destruct (truthy ability).
Qed.

Lemma batch_filter (a : list file) :
  parse_abilities_directory (filter is_markdown a) = parse_abilities_directory a.
Proof.
  induction a as [|f a IH]; simpl; [reflexivity|].
  unfold is_markdown at 1.
  destruct (endswith (py ".md") (file_name f)) eqn:E; simpl; [|exact IH].
  now rewrite E, IH.
Qed.

Lemma batch_results (a : list file) :
  match parse_abilities_directory a with
  | Returns x => forallb truthy x = true /\ length x <= length (filter is_markdown a)
  | Raises => True
  end.
Proof.
  induction a as [|f a IH]; simpl; [auto|].
  unfold is_markdown at 1.
  destruct (endswith (py ".md") (file_name f)); [|exact IH].
  destruct (parse_ability_file f) as [ability|]; [|exact I].
  destruct (parse_abilities_directory a) as [x|]; [|exact I].
  destruct IH as [Ht Hl].
  destruct (truthy ability) eqn:T; simpl; rewrite ?T, ?Ht; split; auto; lia.
Qed.

Lemma batch_raises (a : list file) :
  parse_abilities_directory a = Raises
  <-> exists f, In f a /\ is_markdown f = true /\ parse_ability_file f = Raises.
Proof.
  induction a as [|f a IH]; simpl.
  - split; [discriminate | intros (f & [] & _)].
  - destruct (endswith (py ".md") (file_name f)) eqn:E.
    + destruct (parse_ability_file f) as [ability|] eqn:P.
      * destruct (parse_abilities_directory a) as [x|].
        -- split; [discriminate|].
           intros (g & [<-|Hin] & Hm & Hr); [congruence|].
           assert (Hx : Returns x = Raises) by (apply IH; eauto).
           discriminate Hx.
        -- split; [|reflexivity]. intros _.
           destruct (proj1 IH eq_refl) as (g & Hin & Hm & Hr). eauto.
      * split; [|reflexivity]. intros _. exists f. auto.
    + rewrite IH. split; intros (g & Hin & Hm & Hr).
      * eauto.
      * destruct Hin as [<-|Hin]; [|eauto].
        unfold is_markdown in Hm. congruence.
Qed.

(** X6: the batch over two lists of files, one after the other, returns the
    records of the first followed by those of the second, and raises when
    either raises; files whose name does not end in ".md" are ignored; a
    batch that returns holds no [None] and no empty record, and at most one
    record for each ".md" file; a batch raises exactly when the parser
    raises on one of its ".md" files. *)
Theorem batch_of_documents (a b : list file) :
  parse_abilities_directory (a ++ b)
  = match parse_abilities_directory a, parse_abilities_directory b with
    | Returns x, Returns y => Returns (x ++ y)
    | _, _ => Raises
    end
  /\ parse_abilities_directory (filter is_markdown a) = parse_abilities_directory a
  /\ match parse_abilities_directory a with
     | Returns x => forallb truthy x = true /\ length x <= length (filter is_markdown a)
     | Raises => True
     end
  /\ (parse_abilities_directory a = Raises
      <-> exists f, In f a /\ is_markdown f = true /\ parse_ability_file f = Raises).
Proof.
  split; [apply batch_app | split; [apply batch_filter | split]].
  - apply batch_results.
  - apply batch_raises.
Qed.

(** ** The front matter read without PyYAML *)

Lemma forallb_dset (q : value -> bool) (k : string) (v : value) (d : dict) :
  forallb (fun kv => q (snd kv)) d = true -> q v = true ->
  forallb (fun kv => q (snd kv)) (dset k v d) = true.
Proof.
  intros Hd Hv. induction d as [|[k0 v0] d IH]; simpl in *.
  - now rewrite Hv.
  - apply andb_true_iff in Hd as [H0 Hd].
    destruct (String.eqb k0 k); simpl; [now rewrite Hv | now rewrite H0, IH].
Qed.

Lemma forallb_dget (q : value -> bool) (k : string) (d : dict) :
  forallb (fun kv => q (snd kv)) d = true -> has_key k d = true ->
  q (dget k d) = true.
Proof.
  induction d as [|[k0 v0] d IH]; simpl; [discriminate|].
  intros Hd. apply andb_true_iff in Hd as [H0 Hd].
  destruct (String.eqb k0 k); simpl; auto.
Qed.

Lemma dget_absent (k : string) (d : dict) : has_key k d = false -> dget k d = VNone.
Proof.
  induction d as [|[k0 v0] d IH]; simpl; [reflexivity|].
  destruct (String.eqb k0 k); simpl; [discriminate | exact IH].
Qed.

Lemma frontmatter_line_values (st st' : fm_state) (raw : str) :
  frontmatter_line st raw = Some st' ->
  unique_keys (fst st) /\ forallb (fun kv => text_or_texts (snd kv)) (fst st) = true ->
  unique_keys (fst st') /\ forallb (fun kv => text_or_texts (snd kv)) (fst st') = true.
Proof.
  destruct st as [frontmatter current_key]. unfold frontmatter_line.
  destruct (negb (nonempty (rstrip_by (isspace db) raw))); [now intros [= <-]|].
  set (line := rstrip_by (isspace db) raw).
  intros H [U V]. simpl in U, V.
  destruct (match match_at no_flags line (re "^\s*-\s+(.*)$") 0, current_key with
            | Some m_list, Some (c :: k) => Some (m_list, c :: k)
            | _, _ => None
            end) as [[m_list key]|].
  - set (fm := if has_key (key_of key) frontmatter then frontmatter
               else dset (key_of key) (VList []) frontmatter) in H.
    assert (Ufm : unique_keys fm)
      by (subst fm; destruct (has_key (key_of key) frontmatter);
          [exact U | now apply unique_dset]).
    assert (Vfm : forallb (fun kv => text_or_texts (snd kv)) fm = true)
      by (subst fm; destruct (has_key (key_of key) frontmatter);
          [exact V | now apply forallb_dset]).
    assert (Kfm : has_key (key_of key) fm = true).
    { subst fm. destruct (has_key (key_of key) frontmatter) eqn:E; [exact E|].
      rewrite has_key_dset, String.eqb_refl. reflexivity. }
    pose proof (forallb_dget text_or_texts _ _ Vfm Kfm) as Hitems.
    destruct (dget (key_of key) fm) as [| | | |items|]; try discriminate.
    injection H as <-. simpl. split; [now apply unique_dset|].
    apply forallb_dset; [exact Vfm|].
    simpl in *. rewrite forallb_app, Hitems. reflexivity.
  - destruct (contains (py ":") line); [|now injection H as <-].
    destruct (split_once 58%N line) as [key val].
    destruct (negb (nonempty (strip val))); injection H as <-; simpl.
    + destruct (has_key (key_of (strip key)) frontmatter);
        [auto | split; [now apply unique_dset | now apply forallb_dset]].
    + split; [now apply unique_dset | now apply forallb_dset].
Qed.

Lemma frontmatter_lines_values (lines : list str) (st : fm_state) (d : dict) :
  frontmatter_lines st lines = Some d ->
  unique_keys (fst st) /\ forallb (fun kv => text_or_texts (snd kv)) (fst st) = true ->
  unique_keys d /\ forallb (fun kv => text_or_texts (snd kv)) d = true.
Proof.
  revert st. induction lines as [|raw lines IH]; intros st; simpl.
  - now intros [= <-].
  - destruct (frontmatter_line st raw) as [st'|] eqn:E; [|discriminate].
    intros H Hst. apply (IH st' H). now apply (frontmatter_line_values st st' raw).
Qed.

(** X7: without PyYAML the front matter that [extract_frontmatter] returns
    is a mapping with distinct keys whose values are texts or lists of
    texts, whatever the document; the stand-alone parser then raises on a
    document exactly when its [item_id] is a list that is not empty. *)
Theorem fallback_frontmatter_texts (name content : str) :
  yaml = None ->
  exists fm,
    fst (extract_frontmatter content) = VDict fm
    /\ NoDup (keys fm)
    /\ forallb (fun kv => text_or_texts (snd kv)) fm = true
    /\ (parse_ability_file {| file_name := name; file_content := Some content |} = Raises
        <-> exists x l, dget "item_id" fm = VList (x :: l)).
Proof.
  intros Hyaml.
  assert (Hfm : exists fm body,
             extract_frontmatter content = (VDict fm, body)
             /\ unique_keys fm
             /\ forallb (fun kv => text_or_texts (snd kv)) fm = true).
  { unfold extract_frontmatter. rewrite Hyaml.
    destruct (match_at DOTALL content frontmatter_re 0) as [m|].
    - destruct (frontmatter_lines ([], None) (splitlines (grp content 1 m)))
        as [d|] eqn:E.
      + destruct (frontmatter_lines_values _ _ _ E) as [U V];
          [split; [apply NoDup_nil | reflexivity]|].
        exists d. eexists. auto.
      + exists []. eexists. repeat split; [apply NoDup_nil].
    - exists []. eexists. repeat split; [apply NoDup_nil]. }
  destruct Hfm as (fm & body & E & U & V).
  assert (Hid : dget "item_id" fm = VNone
                \/ (exists id, dget "item_id" fm = VStr id)
                \/ exists l, dget "item_id" fm = VList l).
  { destruct (has_key "item_id" fm) eqn:K.
    - pose proof (forallb_dget text_or_texts _ _ V K) as Hv.
      destruct (dget "item_id" fm); try discriminate; eauto.
    - left. now apply dget_absent. }
  exists fm. rewrite E. repeat split; auto.
  - unfold parse_ability_file. simpl. rewrite E.
    destruct (negb (truthy (VDict fm))); [discriminate|].
    destruct Hid as [Hid|[[id Hid]|[[|x l] Hid]]]; rewrite Hid; simpl;
      try discriminate; eauto.
    destruct (negb (Nat.eqb (length id) 0)); discriminate.
  - intros (x & l & Hx). unfold parse_ability_file. simpl. rewrite E.
    destruct (negb (truthy (VDict fm))) eqn:T.
    + destruct fm; [discriminate Hx | discriminate T].
    + now rewrite Hx.
Qed.

(** ** The record of an embedded ability *)

Lemma NoDup_keys_filter (q : string * value -> bool) (d : dict) :
  NoDup (keys d) -> NoDup (keys (filter q d)).
Proof.
  unfold keys. induction d as [|[k v] d IH]; simpl; [auto|].
  intros N. inversion N as [|? ? Hnotin N']; subst.
  destruct (q (k, v)); simpl; [|auto].
  constructor; [|auto].
  intros Hin. apply Hnotin. apply in_map_iff in Hin as (x & <- & Hx).
  apply filter_In in Hx as [Hx _]. now apply in_map.
Qed.

Lemma keys_filter (q : string * value -> bool) (d : dict) (k : string) :
  In k (keys (filter q d)) -> In k (keys d).
Proof.
  unfold keys. intros H. apply in_map_iff in H as (x & <- & Hx).
  apply filter_In in Hx as [Hx _]. now apply in_map.
Qed.

Lemma dget_filter_kept (k : string) (d : dict) :
  unique_keys d ->
  dget k (filter (fun kv => kept (snd kv)) d)
  = if kept (dget k d) then dget k d else VNone.
Proof.
  unfold unique_keys, keys. induction d as [|[k0 v0] d IH]; simpl; [reflexivity|].
  intros U. inversion U as [|? ? Hnotin U']; subst.
  destruct (String.eqb k0 k) eqn:E.
  - apply String.eqb_eq in E; subst k0.
    destruct (kept v0) eqn:K; simpl.
    + now rewrite String.eqb_refl.
    + rewrite (IH U').
      assert (Hk : has_key k d = false).
      { destruct (has_key k d) eqn:F; [|reflexivity].
        apply has_key_In in F. contradiction. }
      now rewrite (dget_absent k d Hk).
  - destruct (kept v0); simpl; [rewrite E|]; apply (IH U').
Qed.

Lemma table_key_listed (k : string) : table_key k = true -> In k embedded_keys.
Proof.
  unfold table_key, embedded_keys. intros H.
  repeat (apply orb_true_iff in H as [H|H]);
    apply String.eqb_eq in H; subst; simpl; tauto.
Qed.

Lemma has_key_cons (k k0 : string) (v : value) (d : dict) :
  has_key k ((k0, v) :: d) = String.eqb k0 k || has_key k d.
Proof. reflexivity. Qed.

Lemma eqb_listed (k k' : string) (l : list string) :
  In k' l -> String.eqb k' k = true -> In k l.
Proof. intros H E. apply String.eqb_eq in E. now subst. Qed.

Lemma embedded_fields_listed (ability_text ability_name : str) (k : string) :
  has_key k (embedded_fields ability_text ability_name) = true -> In k embedded_keys.
Proof.
  unfold embedded_fields.
  match goal with
  | |- context [read_tables ?t ?b] =>
    pose proof (same_read_tables t b) as [_ S]; set (tabled := read_tables t b) in *;
      set (base := b) in *
  end.
  rewrite has_key_dset_if. intros H.
  apply orb_true_iff in H as [H|H].
  { apply andb_true_iff in H as [_ H].
    eapply eqb_listed; [|exact H]. unfold embedded_keys. simpl. tauto. }
  destruct (table_key k) eqn:T; [now apply table_key_listed|].
  destruct (S k T) as [Hk _]. rewrite Hk in H. clear S Hk tabled.
  subst base. revert H.
  destruct (re_search no_flags (re "\*([^*]+)\*") ability_text);
    destruct (re_search DOTALL persistent_re ability_text);
    rewrite ?has_key_dset, ?has_key_dset_if, ?has_key_cons;
    change (has_key k []) with false; intros H;
    repeat (apply orb_true_iff in H as [H|H]);
    try (apply andb_true_iff in H as [_ H]);
    try discriminate H;
    (eapply eqb_listed; [|exact H]; unfold embedded_keys; simpl; tauto).
Qed.

Lemma embedded_fields_name (ability_text ability_name : str) :
  dget "name" (embedded_fields ability_text ability_name) = VStr ability_name.
Proof.
  unfold embedded_fields.
  match goal with
  | |- context [read_tables ?t ?b] =>
    pose proof (same_read_tables t b) as [_ S]; set (tabled := read_tables t b) in *;
      set (base := b) in *
  end.
  rewrite dget_dset_if_other by reflexivity.
  destruct (S "name" eq_refl) as [_ ->]. subst base.
  destruct (re_search no_flags (re "\*([^*]+)\*") ability_text);
    destruct (re_search DOTALL persistent_re ability_text);
    repeat first [ rewrite dget_dset_other by reflexivity
                 | rewrite dget_dset_if_other by reflexivity ];
    reflexivity.
Qed.

Lemma parse_embedded_ability_keys (ability_text ability_name : str) :
  NoDup (keys (parse_embedded_ability ability_text ability_name))
  /\ incl (keys (parse_embedded_ability ability_text ability_name)) embedded_keys.
Proof.
  unfold parse_embedded_ability.
  destruct (embedded_fields_keys (unquoted ability_text) ability_name) as [U _].
  split; [now apply NoDup_keys_filter|].
  intros k Hk. apply keys_filter in Hk. apply has_key_In in Hk.
  now apply embedded_fields_listed in Hk.
Qed.

(** X8: the record of an embedded ability has distinct keys, all of them
    among the eleven names of the embedded schema; its [name] is the name
    it was given, or is absent when that name is empty. Every record that
    [extract_abilities_from_content] returns is such a record, and there is
    at most one record for each heading matched. *)
Theorem embedded_record_keys (ability_text ability_name content : str) :
  NoDup (keys (parse_embedded_ability ability_text ability_name))
  /\ incl (keys (parse_embedded_ability ability_text ability_name)) embedded_keys
  /\ dget "name" (parse_embedded_ability ability_text ability_name)
     = (if nonempty ability_name then VStr ability_name else VNone)
  /\ has_key "name" (parse_embedded_ability ability_text ability_name)
     = nonempty ability_name
  /\ Forall (fun r => NoDup (keys r) /\ incl (keys r) embedded_keys)
            (extract_abilities_from_content content)
  /\ length (extract_abilities_from_content content)
     <= length (re_finditer DOTALL ability_block_re content).
Proof.
  destruct (parse_embedded_ability_keys ability_text ability_name) as [N I].
  destruct (embedded_fields_keys (unquoted ability_text) ability_name) as [U _].
  split; [exact N | split; [exact I | split; [|split; [|split]]]].
  - unfold parse_embedded_ability. rewrite (dget_filter_kept _ _ U).
    rewrite embedded_fields_name. now destruct ability_name.
  - unfold parse_embedded_ability. rewrite (has_key_filter_kept _ _ U).
    rewrite embedded_fields_name.
    assert (Hk : has_key "name" (embedded_fields (unquoted ability_text) ability_name)
                 = true).
    { pose proof (embedded_fields_name (unquoted ability_text) ability_name) as Hn.
      destruct (has_key "name" (embedded_fields (unquoted ability_text) ability_name))
        eqn:F; [reflexivity|].
      rewrite (dget_absent _ _ F) in Hn. discriminate. }
    rewrite Hk. now destruct ability_name.
  - unfold extract_abilities_from_content.
    induction (re_finditer DOTALL ability_block_re content) as [|m ms IH];
      simpl; [apply Forall_nil|].
    destruct (nonempty (strip (grp content 2 m))); simpl; [|exact IH].
    apply Forall_cons; [apply parse_embedded_ability_keys | exact IH].
  - unfold extract_abilities_from_content.
    induction (re_finditer DOTALL ability_block_re content) as [|m ms IH];
      simpl; [lia|].
    destruct (nonempty (strip (grp content 2 m))); simpl; lia.
Qed.

(** ** Substitution of the runs of a class

    [re.sub] of a class, or of a class repeated with [+], is a function of
    the characters of the text: each character of the class, or each maximal
    run of them, is replaced. *)

Lemma skipn_nth (s : str) (i : nat) (x : N) :
  nth_error s i = Some x -> skipn i s = x :: skipn (S i) s.
Proof.
  revert i. induction s as [|a s IH]; intros [|i]; simpl; try discriminate.
  - now intros [= ->].
  - apply IH.
Qed.

Lemma skipn_none (s : str) (i : nat) : nth_error s i = None -> skipn i s = [].
Proof. intros H. apply skipn_all2. now apply nth_error_None. Qed.

Lemma first_ok_bound (ok : N -> bool) (l : str) (k : nat) :
  first_ok ok l = Some k -> k < length l.
Proof.
  revert k. induction l as [|c l IH]; simpl; intros k; [discriminate|].
  destruct (ok c); [intros [= <-]; lia|].
  destruct (first_ok ok l) as [j|]; [|discriminate].
  intros [= <-]. specialize (IH j eq_refl). lia.
Qed.

Lemma run_len_bound (ok : N -> bool) (l : str) : run_len ok l <= length l.
Proof. induction l as [|c l IH]; simpl; [lia|]. destruct (ok c); lia. Qed.

Section Runs.
Variable fl : flags.
Variable s : str.
Variable P : regex.
Variable ok : N -> bool.
Variable ext : str -> nat.
Variable t : str.
Variable G : str -> str.
Variable f : rmatch -> str.

Hypothesis P_matches : forall i, match_at fl s P i = class_match ok ext s i.
Hypothesis ext_bounded : forall l, ext l <= length l.
Hypothesis f_constant : forall m, f m = t.
Hypothesis G_none : forall l, first_ok ok l = None -> G l = l.
Hypothesis G_some : forall l k,
  first_ok ok l = Some k ->
  G l = firstn k l ++ t ++ G (skipn (S k + ext (skipn (S k) l)) l).

Lemma search_first (n i : nat) :
  i + n = length s ->
  search_upto fl s P n i
  = match first_ok ok (skipn i s) with
    | Some k => Some {| m_start := i + k;
                        m_end := S (i + k) + ext (skipn (S (i + k)) s);
                        m_caps := [] |}
    | None => None
    end.
Proof.
  revert i. induction n as [|n IH]; intros i Hn.
  - cbn [search_upto]. rewrite P_matches. unfold class_match.
    assert (E : nth_error s i = None) by (apply nth_error_None; lia).
    rewrite E, (skipn_none s i E). reflexivity.
  - destruct (nth_error s i) as [x|] eqn:E.
    2:{ apply nth_error_None in E. lia. }
    cbn [search_upto]. rewrite P_matches. unfold class_match.
    rewrite E, (skipn_nth s i x E). cbn [first_ok].
    destruct (ok x).
    + now rewrite Nat.add_0_r.
    + rewrite IH by lia.
      destruct (first_ok ok (skipn (S i) s)) as [k|]; cbn [option_map];
        [|reflexivity].
      replace (i + S k) with (S i + k) by lia. reflexivity.
Qed.

Lemma splice_runs (fuel i : nat) :
  i <= length s -> length s - i < fuel ->
  splice s f i (finditer_from fl s P fuel i) = G (skipn i s).
Proof.
  revert i. induction fuel as [|fuel IH]; intros i Hi Hf; [lia|].
  cbn [finditer_from]. unfold search_from.
  assert (Hle : (i <=? length s) = true) by now apply Nat.leb_le.
  rewrite Hle, search_first by lia.
  destruct (first_ok ok (skipn i s)) as [k|] eqn:F.
  - pose proof (first_ok_bound _ _ _ F) as Hk. rewrite length_skipn in Hk.
    pose proof (ext_bounded (skipn (S (i + k)) s)) as He.
    rewrite length_skipn in He.
    cbn [m_end m_start].
    assert (Hne : (S (i + k) + ext (skipn (S (i + k)) s) =? i + k) = false)
      by (apply Nat.eqb_neq; lia).
    rewrite Hne. cbn [splice m_start m_end].
    rewrite IH by lia. rewrite f_constant, (G_some _ _ F).
    unfold slice. replace (i + k - i) with k by lia.
    rewrite !skipn_skipn.
    replace (S k + i) with (S (i + k)) by lia.
    replace (S k + ext (skipn (S (i + k)) s) + i)
      with (S (i + k) + ext (skipn (S (i + k)) s)) by lia.
    reflexivity.
  - cbn [splice]. now rewrite G_none.
Qed.

Lemma sub_runs : splice s f 0 (re_finditer fl P s) = G s.
Proof. unfold re_finditer. rewrite splice_runs; [reflexivity | lia | lia]. Qed.

End Runs.

Lemma expand_plain (s : str) (m : rmatch) (t : str) :
  plain_template t = true -> expand s m t = t.
Proof.
  unfold plain_template. induction t as [|c t IH]; simpl; [reflexivity|].
  intros H. apply andb_true_iff in H as [Hc Ht].
  apply negb_true_iff in Hc. rewrite Hc. now rewrite IH.
Qed.

(** *** A class *)

Lemma replace_each_none (ok : N -> bool) (t l : str) :
  first_ok ok l = None -> replace_each ok t l = l.
Proof.
  unfold replace_each. induction l as [|c l IH]; simpl; [reflexivity|].
  destruct (ok c); [discriminate|].
  destruct (first_ok ok l); [discriminate|]. intros _. simpl. now rewrite IH.
Qed.

Lemma replace_each_some (ok : N -> bool) (t l : str) (k : nat) :
  first_ok ok l = Some k ->
  replace_each ok t l = firstn k l ++ t ++ replace_each ok t (skipn (S k + 0) l).
Proof.
  unfold replace_each. revert k. induction l as [|c l IH]; simpl; intros k;
    [discriminate|].
  destruct (ok c).
  - intros [= <-]. reflexivity.
  - destruct (first_ok ok l) as [j|]; [|discriminate].
    intros [= <-]. simpl. now rewrite (IH j eq_refl).
Qed.

Lemma class_matches (fl : flags) (s : str) (neg : bool) (items : list citem) (i : nat) :
  match_at fl s (Cls neg items) i
  = class_match (cls_matches fl neg items) (fun _ => 0) s i.
Proof.
  unfold match_at, class_match. simpl. unfold one_char, char_at.
  destruct (nth_error s i) as [x|]; [|reflexivity].
  destruct (cls_matches fl neg items x); [|reflexivity].
  simpl. now rewrite Nat.add_0_r.
Qed.

Lemma re_sub_class (fl : flags) (neg : bool) (items : list citem) (t s : str) :
  plain_template t = true ->
  re_sub fl (Cls neg items) t s = replace_each (cls_matches fl neg items) t s.
Proof.
  intros Ht. unfold re_sub.
  apply (sub_runs fl s (Cls neg items) (cls_matches fl neg items) (fun _ => 0) t).
  - apply class_matches.
  - intros l. lia.
  - intros m. now apply expand_plain.
  - apply replace_each_none.
  - apply replace_each_some.
Qed.

(** *** A class repeated with [+] *)

Lemma greedy_step (step : nat -> caps -> list mstate) (fuel i : nat) (c : caps) :
  rep_loop step true (S fuel) 0 None i c
  = flat_map (fun st : mstate =>
                if (0 <? 0) || (i <? fst st)
                then rep_loop step true fuel 0 None (fst st) (snd st)
                else []) (step i c)
    ++ [(i, c)].
Proof. reflexivity. Qed.

Lemma at_least_one_step (step : nat -> caps -> list mstate) (fuel i : nat) (c : caps) :
  rep_loop step true (S fuel) 1 None i c
  = flat_map (fun st : mstate => rep_loop step true fuel 0 None (fst st) (snd st))
             (step i c).
Proof. cbn [rep_loop Nat.ltb Nat.leb orb pred option_map]. apply app_nil_r. Qed.

Lemma greedy_class_end (s : str) (ok : N -> bool) (fuel i : nat) (c : caps) :
  length s - i <= fuel ->
  exists rest,
    rep_loop (one_char s ok) true fuel 0 None i c
    = (i + run_len ok (skipn i s), c) :: rest.
Proof.
  revert i. induction fuel as [|fuel IH]; intros i Hf.
  - cbn [rep_loop]. rewrite skipn_all2 by lia. cbn [run_len].
    rewrite Nat.add_0_r. eauto.
  - rewrite greedy_step.
    change (one_char s ok i c)
      with (match nth_error s i with
            | Some x => if ok x then [(S i, c)] else []
            | None => []
            end).
    destruct (nth_error s i) as [x|] eqn:E.
    + rewrite (skipn_nth s i x E). cbn [run_len].
      destruct (ok x); cbn [flat_map fst snd app].
      * assert (Hlt : ((0 <? 0) || (i <? S i)) = true)
          by (apply orb_true_iff; right; apply Nat.ltb_lt; lia).
        rewrite Hlt. destruct (IH (S i)) as [rest Hrest]; [lia|].
        rewrite Hrest. cbn [app].
        replace (i + S (run_len ok (skipn (S i) s)))
          with (S i + run_len ok (skipn (S i) s)) by lia.
        eauto.
      * rewrite Nat.add_0_r. eauto.
    + rewrite (skipn_none s i E). cbn [run_len flat_map app].
      rewrite Nat.add_0_r. eauto.
Qed.

Lemma class_plus_matches (fl : flags) (s : str) (neg : bool) (items : list citem)
    (i : nat) :
  match_at fl s (Rep 1 None true (Cls neg items)) i
  = class_match (cls_matches fl neg items) (run_len (cls_matches fl neg items)) s i.
Proof.
  unfold match_at, class_match.
  change (run fl s (Rep 1 None true (Cls neg items)) i [])
    with (rep_loop (one_char s (cls_matches fl neg items)) true
            (length s - i + 1) 1 None i []).
  replace (length s - i + 1) with (S (length s - i)) by lia.
  rewrite at_least_one_step.
  change (one_char s (cls_matches fl neg items) i [])
    with (match nth_error s i with
          | Some x => if cls_matches fl neg items x then [(S i, [] : caps)] else []
          | None => []
          end).
  destruct (nth_error s i) as [x|]; [|reflexivity].
  destruct (cls_matches fl neg items x); [|reflexivity].
  cbn [flat_map fst snd].
  destruct (greedy_class_end s (cls_matches fl neg items) (length s - i) (S i) [])
    as [rest ->]; [lia|].
  reflexivity.
Qed.

Lemma squeeze_in_run (ok : N -> bool) (t l : str) :
  squeeze ok t true l = squeeze ok t false (skipn (run_len ok l) l).
Proof.
  induction l as [|c l IH]; simpl; [reflexivity|].
  destruct (ok c) eqn:E; simpl; [exact IH | now rewrite E].
Qed.

Lemma squeeze_none (ok : N -> bool) (t l : str) :
  first_ok ok l = None -> squeeze ok t false l = l.
Proof.
  induction l as [|c l IH]; simpl; [reflexivity|].
  destruct (ok c); [discriminate|].
  destruct (first_ok ok l); [discriminate|]. intros _. now rewrite IH.
Qed.

Lemma squeeze_some (ok : N -> bool) (t l : str) (k : nat) :
  first_ok ok l = Some k ->
  squeeze ok t false l
  = firstn k l ++ t ++ squeeze ok t false (skipn (S k + run_len ok (skipn (S k) l)) l).
Proof.
  revert k. induction l as [|c l IH]; simpl; intros k; [discriminate|].
  destruct (ok c).
  - intros [= <-]. simpl. now rewrite squeeze_in_run.
  - destruct (first_ok ok l) as [j|]; [|discriminate].
    intros [= <-]. simpl. now rewrite (IH j eq_refl).
Qed.

Lemma re_sub_class_plus (fl : flags) (neg : bool) (items : list citem) (t s : str) :
  plain_template t = true ->
  re_sub fl (Rep 1 None true (Cls neg items)) t s
  = squeeze (cls_matches fl neg items) t false s.
Proof.
  intros Ht. unfold re_sub.
  apply (sub_runs fl s (Rep 1 None true (Cls neg items)) (cls_matches fl neg items)
           (run_len (cls_matches fl neg items)) t).
  - apply class_plus_matches.
  - apply run_len_bound.
  - intros m. now apply expand_plain.
  - apply squeeze_none.
  - apply squeeze_some.
Qed.

(** *** What the substitutions leave *)

Lemma replace_each_forallb (ok q : N -> bool) (t l : str) :
  forallb q t = true ->
  (forall c, In c l -> ok c = false -> q c = true) ->
  forallb q (replace_each ok t l) = true.
Proof.
  intros Ht. unfold replace_each. induction l as [|c l IH]; intros H; simpl;
    [reflexivity|].
  rewrite forallb_app, IH by (intros x Hx; apply H; now right).
  destruct (ok c) eqn:E; [now rewrite Ht|].
  simpl. rewrite (H c (or_introl eq_refl) E). reflexivity.
Qed.

Lemma squeeze_forallb (ok q : N -> bool) (t : str) (b : bool) (l : str) :
  forallb q t = true ->
  (forall c, In c l -> ok c = false -> q c = true) ->
  forallb q (squeeze ok t b l) = true.
Proof.
  intros Ht. revert b. induction l as [|c l IH]; intros b H; simpl; [reflexivity|].
  assert (Hl : forall b', forallb q (squeeze ok t b' l) = true)
    by (intros b'; apply IH; intros x Hx; apply H; now right).
  destruct (ok c) eqn:E.
  - destruct b; [apply Hl|]. now rewrite forallb_app, Ht, Hl.
  - simpl. now rewrite (H c (or_introl eq_refl) E), Hl.
Qed.

Lemma adjacent_cons (p : N -> bool) (c : N) (l : str) :
  match l with d :: _ => p c && p d = false | [] => True end ->
  adjacent p l = false -> adjacent p (c :: l) = false.
Proof. destruct l as [|d l]; [reflexivity|]. simpl. now intros -> ->. Qed.

Lemma squeeze_adjacent (ok p : N -> bool) (a : N) (b : bool) (l : str) :
  (forall c, p c = true -> ok c = true) ->
  adjacent p (squeeze ok [a] b l) = false
  /\ (b = true ->
      match squeeze ok [a] b l with d :: _ => ok d = false | [] => True end).
Proof.
  intros Hp. revert b. induction l as [|c l IH]; intros b; simpl; [auto|].
  destruct (ok c) eqn:E.
  - destruct b.
    + apply IH.
    + split; [|discriminate]. simpl app.
      destruct (IH true) as [Ha Hh]. apply adjacent_cons; [|exact Ha].
      specialize (Hh eq_refl).
      destruct (squeeze ok [a] true l) as [|d r]; [exact I|].
      destruct (p d) eqn:D; [|apply andb_false_r].
      apply Hp in D. congruence.
  - split; [|auto].
    destruct (IH false) as [Ha _]. apply adjacent_cons; [|exact Ha].
    destruct (squeeze ok [a] false l) as [|d r]; [exact I|].
    destruct (p c) eqn:C; [|reflexivity].
    apply Hp in C. congruence.
Qed.

Lemma splice_forallb (q : N -> bool) (s : str) (f : rmatch -> str)
    (pos : nat) (ms : list rmatch) :
  forallb q s = true -> (forall m, forallb q (f m) = true) ->
  forallb q (splice s f pos ms) = true.
Proof.
  intros Hs Hf.
  assert (Hskip : forall n, forallb q (skipn n s) = true).
  { intros n. rewrite <- (firstn_skipn n s), forallb_app in Hs.
    now apply andb_true_iff in Hs as [_ Hs]. }
  assert (Hslice : forall a b, forallb q (slice a b s) = true).
  { intros a b. unfold slice. specialize (Hskip a).
    rewrite <- (firstn_skipn (b - a) (skipn a s)), forallb_app in Hskip.
    now apply andb_true_iff in Hskip as [Hskip _]. }
  revert pos. induction ms as [|m ms IH]; intros pos; simpl; [apply Hskip|].
  now rewrite !forallb_app, Hslice, Hf, IH.
Qed.

Lemma grp_forallb (q : N -> bool) (s : str) (k : nat) (m : rmatch) :
  forallb q s = true -> forallb q (grp s k m) = true.
Proof.
  intros Hs. unfold grp, group.
  destruct (span_of k (m_caps m)) as [[a b]|]; [|reflexivity].
  unfold slice.
  rewrite <- (firstn_skipn a s), forallb_app in Hs.
  apply andb_true_iff in Hs as [_ Hs].
  rewrite <- (firstn_skipn (b - a) (skipn a s)), forallb_app in Hs.
  now apply andb_true_iff in Hs as [Hs _].
Qed.

Lemma expand_forallb (q : N -> bool) (s : str) (m : rmatch) (t : str) :
  forallb q s = true -> forallb q t = true -> forallb q (expand s m t) = true.
Proof.
  intros Hs. remember (length t) as n eqn:Hn.
  revert t Hn. induction n as [n IH] using lt_wf_ind. intros t Hn Ht.
  destruct t as [|c t]; [reflexivity|]. simpl in Ht.
  apply andb_true_iff in Ht as [Hc Ht]. simpl.
  destruct (c =? 92)%N.
  - destruct t as [|d t]; [simpl; now rewrite Hc|].
    simpl in Ht. apply andb_true_iff in Ht as [Hd Ht'].
    destruct (between 49 57 d).
    + rewrite forallb_app, grp_forallb by exact Hs.
      apply (IH (length t)); [simpl in Hn; lia | reflexivity | exact Ht'].
    + cbn [forallb]. rewrite Hc.
      apply (IH (length (d :: t))); [simpl in *; lia | reflexivity|].
      simpl. now rewrite Hd, Ht'.
  - cbn [forallb]. rewrite Hc.
    apply (IH (length t)); [simpl in Hn; lia | reflexivity | exact Ht].
Qed.

Lemma re_sub_forallb (q : N -> bool) (fl : flags) (r : regex) (t s : str) :
  forallb q s = true -> forallb q t = true -> forallb q (re_sub fl r t s) = true.
Proof.
  intros Hs Ht. unfold re_sub. apply splice_forallb; [exact Hs|].
  intros m. now apply expand_forallb.
Qed.

Lemma replace_char_forallb (q : N -> bool) (a : N) (new l : str) :
  forallb q new = true ->
  (forall c, In c l -> (a =? c)%N = false -> q c = true) ->
  forallb q (replace [a] new l) = true.
Proof.
  intros Hnew. unfold replace. induction l as [|c l IH]; intros H; [reflexivity|].
  assert (Hl : forallb q (replace_from [a] new 0 l) = true)
    by (apply IH; intros x Hx; apply H; now right).
  simpl. destruct (a =? c)%N eqn:E; simpl.
  - now rewrite forallb_app, Hnew, Hl.
  - now rewrite (H c (or_introl eq_refl) E), Hl.
Qed.

(** ** Slugs and normalised formulas *)

Lemma class_patterns :
  re "[^\w\s-]" = Cls true [IWord; ISpace; IChr 45]
  /\ re "[-\s]+" = Rep 1 None true (Cls false [IChr 45; ISpace])
  /\ re "\s+" = Rep 1 None true (Cls false [ISpace]).
Proof. repeat split; reflexivity. Qed.

Lemma replace_each_removed (ok : N -> bool) (l : str) (c : N) :
  In c (replace_each ok [] l) -> ok c = false.
Proof.
  unfold replace_each. induction l as [|d l IH]; simpl; [tauto|].
  destruct (ok d) eqn:E; simpl; [exact IH|].
  intros [<-|H]; auto.
Qed.

Lemma edge_free_ext (f g : N -> bool) (t : str) :
  (forall c, f c = g c) -> edge_free f t = edge_free g t.
Proof. intros H. destruct t as [|c t]; simpl; [reflexivity|]. now rewrite !H. Qed.

(** X9: a slug holds word characters and hyphens only, no two hyphens side
    by side, and no hyphen at either end. *)
Theorem slug_is_well_formed (text : str) :
  forallb slug_char (slugify text) = true
  /\ adjacent hyphen (slugify text) = false
  /\ edge_free hyphen (slugify text) = true.
Proof.
  destruct class_patterns as (P1 & P2 & _).
  unfold slugify. rewrite P1, P2.
  rewrite re_sub_class by reflexivity.
  rewrite re_sub_class_plus by reflexivity.
  change (py "-") with [45%N].
  set (ok1 := cls_matches no_flags true [IWord; ISpace; IChr 45]).
  set (ok2 := cls_matches no_flags false [IChr 45; ISpace]).
  set (kept1 := replace_each ok1 [] (lower text)).
  split; [|split].
  - apply strip_by_forallb. apply squeeze_forallb.
    + unfold slug_char, hyphen. simpl. now rewrite orb_true_r.
    + intros c Hin H2. apply replace_each_removed in Hin.
      subst ok1 ok2. unfold cls_matches in *. simpl in *.
      unfold slug_char, hyphen.
      destruct (is_word c); [reflexivity|].
      destruct (isspace db c), (c =? 45)%N; simpl in *; congruence.
  - apply strip_by_adjacent.
    apply (squeeze_adjacent ok2 hyphen 45%N false kept1).
    intros c Hc. subst ok2. unfold cls_matches, hyphen in *. simpl.
    now rewrite Hc.
  - rewrite (edge_free_ext hyphen (one_of [45%N])).
    + apply strip_by_edge_free.
    + intros c. unfold hyphen, one_of. simpl. now rewrite orb_false_r.
Qed.

Lemma space_class (c : N) : cls_matches no_flags false [ISpace] c = isspace db c.
Proof. unfold cls_matches. simpl. now rewrite orb_false_r. Qed.

Lemma squeezed_single_spaced (l : str) :
  single_spaced (squeeze (cls_matches no_flags false [ISpace]) [32%N] false l) = true.
Proof.
  unfold single_spaced. apply andb_true_iff. split.
  - apply negb_true_iff.
    apply (squeeze_adjacent (cls_matches no_flags false [ISpace]) (isspace db)
             32%N false l).
    intros c Hc. now rewrite space_class.
  - apply squeeze_forallb.
    + simpl. now rewrite implb_true_r.
    + intros c _ Hc. rewrite space_class in Hc. now rewrite Hc.
Qed.

Lemma strip_single_spaced (l : str) :
  single_spaced l = true -> single_spaced (strip l) = true.
Proof.
  unfold single_spaced. intros H. apply andb_true_iff in H as [Ha Hf].
  apply negb_true_iff in Ha. apply andb_true_iff. split.
  - apply negb_true_iff. now apply strip_by_adjacent.
  - now apply strip_by_forallb.
Qed.

Lemma squeezed_forallb (q : N -> bool) (l : str) :
  q 32%N = true -> forallb q l = true ->
  forallb q (squeeze (cls_matches no_flags false [ISpace]) [32%N] false l) = true.
Proof.
  intros H32 Hl. apply squeeze_forallb.
  - simpl. now rewrite H32.
  - intros c Hin _. rewrite forallb_forall in Hl. now apply Hl.
Qed.

Lemma normalize_formula_squeezed (cand : str) :
  exists l,
    normalize_formula cand
    = strip (squeeze (cls_matches no_flags false [ISpace]) [32%N] false l)
    /\ forallb no_long_dash l = true.
Proof.
  destruct class_patterns as (_ & _ & P3).
  unfold normalize_formula. rewrite P3.
  rewrite re_sub_class_plus by reflexivity.
  change (py " ") with [32%N].
  eexists. split; [reflexivity|].
  apply re_sub_forallb; [|reflexivity].
  apply replace_char_forallb; [reflexivity|].
  intros c Hin Hc.
  assert (H1 : forallb (fun c => negb (c =? 8211)%N)
                 (replace [8211%N] (py "-")
                    (re_sub no_flags (re "\*\*([^*]+)\*\*") (py "\1") cand)) = true).
  { apply replace_char_forallb; [reflexivity|].
    intros d _ Hd. now rewrite N.eqb_sym, Hd. }
  rewrite forallb_forall in H1. specialize (H1 c Hin).
  unfold no_long_dash. now rewrite H1, N.eqb_sym, Hc.
Qed.

Lemma normalize_formula_single_spaced (cand : str) :
  single_spaced (normalize_formula cand) = true.
Proof.
  destruct (normalize_formula_squeezed cand) as (l & -> & _).
  apply strip_single_spaced, squeezed_single_spaced.
Qed.

(** X10: a normalised formula has no white space at either end, its white
    space is single spaces, and it holds neither an en dash nor an em dash.
    The formula of every record the normalizer returns has single spaces
    only; it is a normalised formula whenever the primary pattern was
    validated. *)
Theorem formula_is_normalised (cand part : str) :
  edge_free (isspace db) (normalize_formula cand) = true
  /\ single_spaced (normalize_formula cand) = true
  /\ forallb no_long_dash (normalize_formula cand) = true
  /\ match vget "formula" (parse_damage_clause part) with
     | VStr f => single_spaced f = true
     | _ => True
     end
  /\ (primary_ok part = true ->
      truthy (parse_damage_clause part) = true ->
      exists c, vget "formula" (parse_damage_clause part) = VStr (normalize_formula c)).
Proof.
  split; [|split; [|split; [|split]]].
  - destruct (normalize_formula_squeezed cand) as (l & -> & _).
    apply strip_by_edge_free.
  - apply normalize_formula_single_spaced.
  - destruct (normalize_formula_squeezed cand) as (l & -> & Hl).
    apply strip_by_forallb. now apply squeezed_forallb.
  - unfold parse_damage_clause.
    destruct (negb (nonempty part) || negb (contains (py "damage") (lower part)));
      [exact I|].
    unfold primary_clause, equal_to_clause.
    assert (Hsecond :
              match vget "formula"
                      match re_search IGNORECASE equal_to_re part with
                      | Some m2 =>
                        VDict [("formula",
                                VStr (re_sub no_flags (re "\s+") (py " ")
                                        (strip (grp part 2 m2))));
                               ("type", VStr (lower (grp part 1 m2)))]
                      | None => VNone
                      end
              with
              | VStr f => single_spaced f = true
              | _ => True
              end).
    { destruct (re_search IGNORECASE equal_to_re part) as [m2|]; [|exact I].
      simpl. destruct class_patterns as (_ & _ & ->).
      rewrite re_sub_class_plus by reflexivity.
      apply squeezed_single_spaced. }
    destruct (re_search IGNORECASE damage_clause_re part) as [m|].
    + destruct (looks_like_formula (formula_candidate (damage_candidate part m))).
      * destruct (damage_record_formula (damage_candidate part m)) as (d & -> & Hf & _).
        simpl. rewrite Hf. apply normalize_formula_single_spaced.
      * destruct (re_search IGNORECASE equal_to_re part); exact Hsecond.
    + destruct (re_search IGNORECASE equal_to_re part); exact Hsecond.
  - unfold primary_ok, parse_damage_clause, primary_clause.
    destruct (negb (nonempty part) || negb (contains (py "damage") (lower part)));
      [discriminate 2|].
    destruct (re_search IGNORECASE damage_clause_re part) as [m|]; [|discriminate].
    intros -> _.
    destruct (damage_record_formula (damage_candidate part m)) as (d & -> & Hf & _).
    simpl. eauto.
Qed.

(** ** Links *)

Lemma search_upto_none (fl : flags) (s : str) (r : regex) (n i : nat) :
  (forall j, match_at fl s r j = None) -> search_upto fl s r n i = None.
Proof.
  intros H. revert i. induction n as [|n IH]; intros i; cbn [search_upto];
    rewrite H; [reflexivity | apply IH].
Qed.

Lemma no_match_identity (fl : flags) (r : regex) (t s : str) :
  (forall j, match_at fl s r j = None) -> re_sub fl r t s = s.
Proof.
  intros H. unfold re_sub, re_finditer. cbn [finditer_from].
  unfold search_from. cbn [Nat.leb]. now rewrite search_upto_none.
Qed.

Lemma run_needs_first (fl : flags) (s : str) (a : N) (r : regex) (i : nat) (c : caps) :
  (forall x, In x s -> chr_matches fl a x = false) ->
  run fl s (Cat (Chr a) r) i c = [].
Proof.
  intros H. cbn [run]. unfold one_char, char_at.
  destruct (nth_error s i) as [x|] eqn:E; [|reflexivity].
  now rewrite (H x (nth_error_In _ _ E)).
Qed.

Lemma run_needs_first_of_line (fl : flags) (s : str) (a : N) (r : regex)
    (i : nat) (c : caps) :
  (forall x, In x s -> chr_matches fl a x = false) ->
  run fl s (Cat Bol (Cat (Chr a) r)) i c = [].
Proof.
  intros H.
  change (run fl s (Cat Bol (Cat (Chr a) r)) i c)
    with (flat_map (fun st : mstate => run fl s (Cat (Chr a) r) (fst st) (snd st))
                   (zero_width (at_bol fl s i) i c)).
  apply flat_map_nil. intros st _. now apply run_needs_first.
Qed.

Lemma link_patterns :
  (exists r, re "\[([^\]]+)\]\([^\)]+\)" = Cat (Chr 91) r)
  /\ (exists r, re "\[([^\]]+)\]\[[^\]]*\]" = Cat (Chr 91) r)
  /\ (exists r, re "^\[([^\]]+)\]:\s+.*$" = Cat Bol (Cat (Chr 91) r)).
Proof. repeat split; eexists; reflexivity. Qed.

Lemma expand_group1 (s : str) (m : rmatch) : expand s m (py "\1") = grp s 1 m.
Proof. change (py "\1") with [92%N; 49%N]. simpl. apply app_nil_r. Qed.

Lemma re_sub_group1_forallb (q : N -> bool) (fl : flags) (r : regex) (s : str) :
  forallb q s = true -> forallb q (re_sub fl r (py "\1") s) = true.
Proof.
  intros Hs. unfold re_sub. apply splice_forallb; [exact Hs|].
  intros m. rewrite expand_group1. now apply grp_forallb.
Qed.

(** X11: [strip_markdown_links] returns a text without an opening square
    bracket as it is, and it adds no character: whatever holds of every
    character of the text holds of every character of the result. *)
Theorem links_only_removed (text : str) :
  (forallb no_bracket text = true -> strip_markdown_links text = text)
  /\ (forall q : N -> bool,
        forallb q text = true -> forallb q (strip_markdown_links text) = true).
Proof.
  split.
  - intros H.
    assert (Hchr : forall fl, ignorecase fl = false ->
                   forall x, In x text -> chr_matches fl 91 x = false).
    { intros fl Hfl x Hx. unfold chr_matches. rewrite Hfl.
      rewrite forallb_forall in H. specialize (H x Hx).
      now apply negb_true_iff in H. }
    destruct link_patterns as ((r1 & P1) & (r2 & P2) & (r3 & P3)).
    unfold strip_markdown_links. rewrite P1, P2, P3.
    assert (H1 : re_sub no_flags (Cat (Chr 91) r1) (py "\1") text = text).
    { apply no_match_identity. intros j. unfold match_at.
      now rewrite run_needs_first by (apply Hchr; reflexivity). }
    rewrite H1.
    assert (H2 : re_sub no_flags (Cat (Chr 91) r2) (py "\1") text = text).
    { apply no_match_identity. intros j. unfold match_at.
      now rewrite run_needs_first by (apply Hchr; reflexivity). }
    rewrite H2.
    apply no_match_identity. intros j. unfold match_at.
    now rewrite run_needs_first_of_line by (apply Hchr; reflexivity).
  - intros q H. unfold strip_markdown_links.
    apply re_sub_forallb; [|reflexivity].
    now apply re_sub_group1_forallb, re_sub_group1_forallb.
Qed.

(** ** The front matter of [parse_frontmatter] *)




(** ** The tables of a feature *)

Lemma skipn_cons_nth (headers : list str) (j : nat) :
  j < length headers ->
  skipn j headers = nth j headers [] :: skipn (S j) headers.
Proof.
  revert j. induction headers as [|h headers IH]; intros [|j] H; simpl in *;
    try lia; [reflexivity|].
  apply IH. lia.
Qed.

Lemma row_dict_keys (headers row : list str) (j : nat) (d : dict) (k : string) :
  j + length row <= length headers ->
  has_key k (row_dict_from headers j row d) = true
  <-> has_key k d = true
      \/ In k (map key_of (firstn (length row) (skipn j headers))).
Proof.
  revert j d. induction row as [|cell row IH]; intros j d H.
  - simpl. tauto.
  - cbn [row_dict_from length]. simpl in H.
    assert (Hj : (j <? length headers) = true) by (apply Nat.ltb_lt; lia).
    rewrite Hj, IH by lia.
    rewrite has_key_dset, orb_true_iff, String.eqb_eq.
    rewrite (skipn_cons_nth headers j) by lia.
    cbn [firstn map In]. tauto.
Qed.

Lemma table_data_shape (headers : list str) (data_rows : list (list str)) :
  exists rows,
    table_data_of headers data_rows = map VDict rows
    /\ Forall (fun row => forall k, has_key k row = true <-> In k (map key_of headers))
              rows.
Proof.
  unfold table_data_of.
  induction data_rows as [|row data_rows (rows & E & F)]; simpl.
  - exists []. split; [reflexivity | apply Forall_nil].
  - destruct (length row =? length headers) eqn:L; [|exists rows; auto].
    apply Nat.eqb_eq in L.
    exists (row_dict_from headers 0 row [] :: rows). simpl. rewrite E.
    split; [reflexivity|]. apply Forall_cons; [|exact F].
    intros k. rewrite row_dict_keys by (simpl; lia).
    simpl skipn. rewrite L, firstn_all. simpl. intuition discriminate.
Qed.

Lemma feature_table_shape (heading table_content : str) (t : value) :
  feature_table heading table_content = Some t -> table_shape t.
Proof.
  unfold feature_table.
  destruct (match_at no_flags (strip heading) (re "#{4,6}\s+(.+)") 0) as [m|];
    [|discriminate].
  destruct (length (feature_table_lines false (split_chr NL table_content)) <? 2);
    [discriminate|].
  set (rows := table_rows (feature_table_lines false (split_chr NL table_content))).
  destruct (length rows <? 2) eqn:L; [discriminate|].
  apply Nat.ltb_ge in L.
  destruct (table_data_shape (nth 0 rows []) (data_rows_of rows)) as (data & E & F).
  rewrite E. destruct data as [|row data]; [discriminate|].
  intros [= <-].
  exists (strip (grp (strip heading) 1 m)), (nth 0 rows []), (row :: data).
  split; [reflexivity|]. split; [apply strip_idem|]. split; [|split; [simpl; lia | exact F]].
  assert (Hin : In (nth 0 rows []) rows) by (apply nth_In; lia).
  subst rows. unfold table_rows in Hin. apply filter_In in Hin as [_ Hin].
  destruct (nth 0 _ []); [discriminate | simpl; lia].
Qed.

(** X13: every table that [extract_tables] returns has a trimmed name, one
    header at least and one row at least, and the keys of each of its rows
    are exactly its headers: a row with another number of cells, and a
    table without such a row, are left out. *)
Theorem tables_rows_match_headers (content : str) :
  Forall table_shape (extract_tables content).
Proof.
  unfold extract_tables.
  generalize (pieces_with_group content 0
                (re_finditer MULTILINE (re "(#{4,6}\s+.+\s*$)") content)).
  intros splits. induction splits as [|[text [heading|]] splits IH];
    cbn [tables_of]; try apply Forall_nil.
  destruct splits as [|[table_content g] splits]; [apply Forall_nil|].
  destruct (feature_table heading table_content) as [t|] eqn:E; [|exact IH].
  apply Forall_cons; [|exact IH]. now apply (feature_table_shape heading table_content).
Qed.

(** ** Stat blocks *)

Lemma forallb_dset_entry (q : string * value -> bool) (k : string) (v : value)
    (d : dict) :
  forallb q d = true -> q (k, v) = true -> forallb q (dset k v d) = true.
Proof.
  intros Hd Hv. induction d as [|[k0 v0] d IH]; simpl in *.
  - now rewrite Hv.
  - apply andb_true_iff in Hd as [H0 Hd].
    destruct (String.eqb k0 k) eqn:E; simpl.
    + apply String.eqb_eq in E. subst k0. now rewrite Hv.
    + now rewrite H0, IH.
Qed.

Lemma extract_value_text (c v : str) : extract_value c = Some v -> cell_text v = true.
Proof.
  unfold extract_value, cell_text.
  destruct (re_search no_flags (re "\*\*([^*]+)\*\*") (strip c)) as [m|];
    match goal with
    | |- (if ?b then _ else _) = _ -> _ => destruct b eqn:E; [|discriminate]
    end; now intros [= <-].
Qed.

Lemma put_cell_entries (conv : str -> value) (k : string) (row : list str) (i : nat)
    (stats : dict) :
  (forall v, cell_text v = true -> stat_entry (k, conv v) = true) ->
  unique_keys stats /\ forallb stat_entry stats = true ->
  unique_keys (put_cell conv k row i stats)
  /\ forallb stat_entry (put_cell conv k row i stats) = true.
Proof.
  intros Hconv [U F]. unfold put_cell.
  destruct (extract_value (cell row i)) as [v|] eqn:E; [|auto].
  split; [now apply unique_dset|].
  apply forallb_dset_entry; [exact F|].
  apply Hconv. now apply extract_value_text in E.
Qed.

Lemma put_ev_entries (row : list str) (stats : dict) :
  unique_keys stats /\ forallb stat_entry stats = true ->
  unique_keys (put_ev row stats) /\ forallb stat_entry (put_ev row stats) = true.
Proof.
  intros [U F]. unfold put_ev.
  destruct (extract_value (cell row 4)) as [ev|]; [|auto].
  destruct (startswith (py "EV") ev); [|auto].
  split; [now apply unique_dset|].
  apply forallb_dset_entry; [exact F|].
  now destruct (re_search no_flags (re "EV\s+(.+)") ev).
Qed.

Lemma text_entry (k : string) (v : str) :
  existsb (String.eqb k) stat_keys = true -> cell_text v = true ->
  stat_entry (k, VStr v) = true.
Proof. intros Hk Hv. unfold stat_entry. simpl fst. simpl snd. now rewrite Hk, Hv, orb_true_r. Qed.

Lemma number_entry (k : string) (v : str) :
  existsb (String.eqb k) numeric_keys = true ->
  existsb (String.eqb k) stat_keys = true ->
  cell_text v = true ->
  stat_entry (k, int_or_text v) = true.
Proof.
  intros Hn Hk Hv. unfold stat_entry, int_or_text. simpl fst. simpl snd.
  rewrite Hk. destruct (py_int v); [exact Hn | now rewrite Hv, orb_true_r].
Qed.

Lemma level_entry (v : str) :
  cell_text v = true -> stat_entry ("level", level_value v) = true.
Proof.
  intros Hv. unfold stat_entry, level_value. simpl fst. simpl snd.
  destruct (re_search no_flags (re "Level\s+(\d+)") v); [reflexivity|].
  now rewrite Hv.
Qed.

Lemma stat_block_table_entries (table : str) :
  unique_keys (stat_block_table_fields table)
  /\ forallb stat_entry (stat_block_table_fields table) = true.
Proof.
  assert (Hnil : unique_keys [] /\ forallb stat_entry [] = true)
    by (split; [apply NoDup_nil | reflexivity]).
  unfold stat_block_table_fields.
  destruct (negb (nonempty table)); [exact Hnil|].
  destruct (length (split_chr NL (strip table)) <? 3); [exact Hnil|].
  cbv zeta.
  set (row1 := split_row (nth 0 (split_chr NL (strip table)) [])).
  set (row2 := split_row (nth 2 (split_chr NL (strip table)) [])).
  set (row3 := if 3 <? length (split_chr NL (strip table))
               then split_row (nth 3 (split_chr NL (strip table)) []) else []).
  assert (H1 : unique_keys
                 (if 5 <=? length row1
                  then put_ev row1
                         (put_cell VStr "role" row1 3
                            (put_cell level_value "level" row1 2
                               (put_cell VStr "ancestry" row1 0 [])))
                  else [])
               /\ forallb stat_entry
                    (if 5 <=? length row1
                     then put_ev row1
                            (put_cell VStr "role" row1 3
                               (put_cell level_value "level" row1 2
                                  (put_cell VStr "ancestry" row1 0 [])))
                     else []) = true).
  { destruct (5 <=? length row1); [|exact Hnil].
    apply put_ev_entries.
    apply put_cell_entries; [intros v; now apply text_entry|].
    apply put_cell_entries; [apply level_entry|].
    apply put_cell_entries; [intros v; now apply text_entry | exact Hnil]. }
  set (stats1 := if 5 <=? length row1 then _ else _) in *.
  assert (H2 : unique_keys
                 (if 5 <=? length row2
                  then put_cell int_or_text "free_strike" row2 4
                         (put_cell int_or_text "stability" row2 3
                            (put_cell int_or_text "stamina" row2 2
                               (put_cell int_or_text "speed" row2 1
                                  (put_cell VStr "size" row2 0 stats1))))
                  else stats1)
               /\ forallb stat_entry
                    (if 5 <=? length row2
                     then put_cell int_or_text "free_strike" row2 4
                            (put_cell int_or_text "stability" row2 3
                               (put_cell int_or_text "stamina" row2 2
                                  (put_cell int_or_text "speed" row2 1
                                     (put_cell VStr "size" row2 0 stats1))))
                     else stats1) = true).
  { destruct (5 <=? length row2); [|exact H1].
    repeat (apply put_cell_entries; [intros v; now apply number_entry|]).
    apply put_cell_entries; [intros v; now apply text_entry | exact H1]. }
  set (stats2 := if 5 <=? length row2 then _ else _) in *.
  destruct (5 <=? length row3); [|exact H2].
  repeat (apply put_cell_entries; [intros v; now apply text_entry|]).
  exact H2.
Qed.

Lemma traits_of_shape (splits : list (str * option str)) :
  Forall trait_shape (traits_of splits).
Proof.
  induction splits as [|[text [name|]] splits IH]; cbn [traits_of];
    try apply Forall_nil.
  destruct splits as [|[content g] splits]; [apply Forall_nil|].
  apply Forall_cons; [|exact IH].
  set (trait_content := strip (re_sub MULTILINE (re "^>\s*>?\s*") [] content)).
  exists (strip name), trait_content.
  destruct (contains (py "|") trait_content) eqn:E; [left | right]; auto.
Qed.

(** X14: [parse_stat_block] returns [None] or a record with the fields
    [name], [full_content], [stat_table], [stats] and [traits], in this
    order, with a trimmed name and a trimmed content. [stats] is [None]
    exactly when there is no table text; otherwise its keys are distinct and
    among the thirteen stat names, an integer stands under a numeric key
    only, and a text other than that of [ev] is never empty nor a dash.
    [traits] is [None] or a list that is not empty, of abilities whose
    content has a pipe and of traits whose description has none. *)
Theorem stat_block_record_shape (content : str) :
  stat_block_shape (parse_stat_block content)
  /\ (parse_stat_block content = VNone
      <-> re_search IGNORECASE (re ">?\s*#{6}\s+(.+?)\s+Statblock\s*\n") content = None).
Proof.
  unfold parse_stat_block.
  destruct (re_search IGNORECASE (re ">?\s*#{6}\s+(.+?)\s+Statblock\s*\n") content)
    as [m|]; [|split; [exact I | tauto]].
  split; [|split; discriminate].
  cbv zeta.
  match goal with
  | |- stat_block_shape
         (VDict [("name", VStr ?n); ("full_content", VStr ?f);
                 ("stat_table", ?t); ("stats", ?s); ("traits", ?r)]) =>
    exists n, f, t, s, r
  end.
  split; [reflexivity|].
  split.
  { destruct (re_search no_flags (re ">?\s*\*\*(.+?)\*\*\s*\n") _);
      apply strip_idem. }
  split; [apply strip_idem|].
  match goal with
  | |- context [table_lines ?n false ?l] => generalize (table_lines n false l)
  end.
  intros lines.
  split; [|split].
  - destruct lines; [now left|]. right.
    destruct (nonempty (strip (join [NL] (s :: lines)))); eauto.
  - destruct lines as [|l0 lines]; [reflexivity|].
    destruct (nonempty (strip (join [NL] (l0 :: lines)))) eqn:E.
    + destruct (re_sub MULTILINE (re "^>\s*") [] (strip (join [NL] (l0 :: lines))))
        as [|c t] eqn:R; [reflexivity|].
      split; [reflexivity | apply stat_block_table_entries].
    + destruct (strip (join [NL] (l0 :: lines))); [reflexivity | discriminate E].
  - match goal with
    | |- context [traits_of ?sp] =>
      pose proof (traits_of_shape sp) as T; destruct (traits_of sp); [exact I | exact T]
    end.
Qed.

(** ** The record of a stand-alone ability *)

Lemma ability_record_keys
    (frontmatter : dict) (body : str) (item_id base_id : value) :
  keys (ability_record frontmatter body item_id base_id)
  = standalone_keys (ability_record frontmatter body item_id base_id).
Proof.
  unfold ability_record, standalone_keys, optional, base_keys, section_keys.
  destruct (truthy (dget "action_type" frontmatter)
            || truthy (dget_or "keywords" (VList []) frontmatter));
    destruct (truthy (parse_stat_block body));
    destruct (has_key "subclass" frontmatter);
    match goal with
    | |- context [dset_if (negb ?c)] => destruct c
    end;
    reflexivity.
Qed.

Lemma parse_ability_file_record (f : file) :
  match parse_ability_file f with
  | Returns VNone | Raises => True
  | Returns r => standalone_record r
  end.
Proof.
  unfold parse_ability_file.
  destruct (file_content f) as [content|]; [|exact I].
  destruct (extract_frontmatter content) as [frontmatter body].
  destruct (negb (truthy frontmatter)); [exact I|].
  destruct frontmatter as [|b|n|t|l|fm]; try exact I.
  destruct (truthy (dget "item_id" fm)).
  - destruct (dget "item_id" fm); try exact I.
    eexists. split; [reflexivity | apply ability_record_keys].
  - eexists. split; [reflexivity | apply ability_record_keys].
Qed.

(** X15: the fields of a stand-alone record come in a fixed order: the ten
    fields taken from the front matter, [action] when there is an action
    type or a keyword, then [cost], [targeting], [flavor], [power_roll],
    [effects] and [persistent], then [component_order], [stat_block] and
    [subclass] when they are present. [source] and [type] have their
    defaults when the front matter lacks them, and [cost] is [None] unless
    the front matter has both an amount and a resource. What the parser
    returns for a file is [None] or such a record, and every record of a
    batch is such a record. *)
Theorem standalone_record_schema
    (frontmatter : dict) (body : str) (item_id base_id : value)
    (f : file) (files : list file) :
  let r := ability_record frontmatter body item_id base_id in
  keys r = standalone_keys r
  /\ has_key "action" r
     = truthy (dget "action_type" frontmatter)
       || truthy (dget_or "keywords" (VList []) frontmatter)
  /\ has_key "subclass" r = has_key "subclass" frontmatter
  /\ dget "source" r = dget_or "source" (VStr (py "mcdm.heroes.v1")) frontmatter
  /\ dget "type" r = dget_or "type" (VStr (py "ability")) frontmatter
  /\ dget "cost" r
     = (if truthy (dget "cost_amount" frontmatter)
           && truthy (dget "cost_resource" frontmatter)
        then VDict [("amount", dget "cost_amount" frontmatter);
                    ("resource", dget "cost_resource" frontmatter)]
        else VNone)
  /\ match parse_ability_file f with
     | Returns VNone | Raises => True
     | Returns record => standalone_record record
     end
  /\ match parse_abilities_directory files with
     | Returns records => Forall standalone_record records
     | Raises => True
     end.
Proof.
  intros r. split; [apply ability_record_keys|].
  subst r. unfold ability_record.
  repeat split; repeat dict_step; simpl;
    rewrite ?andb_false_r, ?orb_false_r, ?andb_true_r; try reflexivity.
  - apply parse_ability_file_record.
  - induction files as [|g files IH]; simpl; [apply Forall_nil|].
    destruct (endswith (py ".md") (file_name g)); [|exact IH].
    pose proof (parse_ability_file_record g) as R.
    destruct (parse_ability_file g) as [ability|]; [|exact I].
    destruct (parse_abilities_directory files) as [abilities|]; [|exact I].
    destruct (truthy ability) eqn:T; [|exact IH].
    apply Forall_cons; [|exact IH].
    destruct ability; try exact R. discriminate T.
Qed.

End Python.

(** * Evaluations on the ASCII database

    The texts below use ASCII letters and digits only, besides the marks "≤"
    and "🎯" of the rule texts; PyYAML is taken as absent, which makes
    [extract_frontmatter] use the parser of the script itself. *)

(** ** The patterns *)

Example patterns_compile : forallb compiles script_patterns = true.
Proof. vm_compute. reflexivity. Qed.

Example lazy_group_then_optional_type :
  re_search ascii_db IGNORECASE damage_clause_re (py "5 + M damage")
  = Some {| m_start := 0; m_end := 12; m_caps := [(2, (4, 5)); (1, (0, 3))] |}.
Proof. vm_compute. reflexivity. Qed.

(** ** The damage clause normalizer *)

Example clause_with_two_words_type :
  parse_damage_clause ascii_db (py "2d6 + A fire damage")
  = VDict [("formula", v "2d6 + A"); ("type", v "fire");
           ("characteristics", VList [v "A"])].
Proof. vm_compute. reflexivity. Qed.

Example clause_equal_to_level :
  parse_damage_clause ascii_db (py "Lightning damage equal to your level")
  = VDict [("formula", v "your level"); ("type", v "lightning")].
Proof. vm_compute. reflexivity. Qed.

Example clause_without_formula :
  parse_damage_clause ascii_db (py "resistance to all damage") = VNone.
Proof. vm_compute. reflexivity. Qed.

(** C2, counterexample: the secondary pattern yields a record for a clause
    in which neither the candidate of the primary pattern ("Fire") nor the
    formula returned has a digit, a dice expression, a characteristic letter
    or the word "level". *)
Lemma equal_to_record_without_formula_token :
  parse_damage_clause ascii_db (py "Fire damage equal to twice your Reason score")
  = VDict [("formula", v "twice your Reason score"); ("type", v "fire")]
  /\ primary_ok ascii_db (py "Fire damage equal to twice your Reason score") = false
  /\ looks_like_formula ascii_db (py "twice your Reason score") = false.
Proof. repeat split; vm_compute; reflexivity. Qed.

(** C2, witness: "resistance to all damage" is rejected and retained by both
    tier parsers. *)
Lemma damage_record_iff_validated_or_equal_to_witness :
  truthy (parse_damage_clause ascii_db (py "resistance to all damage")) = false
  /\ parse_damage_clause ascii_db (py "resistance to all damage") = VNone
  /\ embedded_part ascii_db (VNone, []) (py "resistance to all damage")
     = (VNone, [py "resistance to all damage"])
  /\ table_part ascii_db (VNone, []) (py "resistance to all damage")
     = (VNone, [py "resistance to all damage"]).
Proof.
  destruct (damage_record_iff_validated_or_equal_to ascii_db
              (py "resistance to all damage")) as (H1 & H2 & H3).
  assert (Hf : truthy (parse_damage_clause ascii_db (py "resistance to all damage"))
               = false) by (vm_compute; reflexivity).
  assert (Hl : damage_like ascii_db (py "resistance to all damage") = true)
    by (vm_compute; reflexivity).
  assert (Hs : truthy (parse_damage_clause ascii_db
                         (strip ascii_db (py "resistance to all damage"))) = false)
    by (vm_compute; reflexivity).
  destruct (H3 (VNone, []) Hl Hs) as [He Ht].
  split; [exact Hf | split; [exact (H2 Hf) | split]].
  - exact He.
  - apply Ht. vm_compute. reflexivity.
Defined.

(** ** Tier results *)



Example spec_scenario :
  parse_power_roll_table ascii_db
    (py "**Power Roll + Might:**
- **≤11:** 3 damage
- **12-16:** 5 damage
- **17+:** 8 damage; target is weakened")
  = VDict [("characteristic", v "Might");
           ("conditional", VNone);
           ("tiers",
            VList [VDict [("tier", v "weak"); ("range", v "≤11");
                          ("damage", VDict [("formula", v "3"); ("type", VNone)]);
                          ("effects", VList [])];
                   VDict [("tier", v "average"); ("range", v "12-16");
                          ("damage", VDict [("formula", v "5"); ("type", VNone)]);
                          ("effects", VList [])];
                   VDict [("tier", v "strong"); ("range", v "17+");
                          ("damage", VDict [("formula", v "8"); ("type", VNone)]);
                          ("effects", VList [v "target is weakened"])]])].
Proof. vm_compute. reflexivity. Qed.

Example demoted_clause :
  table_result ascii_db (py "no damage this turn; target is dazed")
  = (VNone, [py "no damage this turn"; py "target is dazed"]).
Proof. vm_compute. reflexivity. Qed.

(** A segment with "damage" that fails the pre-filter of the stand-alone
    parser is never offered to the normalizer there; the embedded parser
    keeps it as an effect. *)
Example segment_failing_the_prefilter :
  table_result ascii_db (py "8 damage; undamaged allies cheer")
  = (VDict [("formula", v "8"); ("type", VNone)], [])
  /\ embedded_result ascii_db (py "8 damage; undamaged allies cheer")
     = (VDict [("formula", v "8"); ("type", VNone)], [py "undamaged allies cheer"]).
Proof. split; vm_compute; reflexivity. Qed.

(** ** The two modes *)

(** C6, counterexample: on the same body the stand-alone parser reports the
    type "m" and the formula "5 +", the embedded parser the formula "5 + M"
    and no type; only the stand-alone power roll has [conditional]. *)
Lemma modes_differ_on_letter_type :
  parse_power_roll_table ascii_db
    (py "**Power Roll + Might:**
- **12-16:** 5 + M damage")
  = VDict [("characteristic", v "Might");
           ("conditional", VNone);
           ("tiers",
            VList [VDict [("tier", v "average"); ("range", v "12-16");
                          ("damage", VDict [("formula", v "5 +"); ("type", v "m")]);
                          ("effects", VList [])]])]
  /\ parse_ability_power_roll ascii_db
       (py "**Power Roll + Might:**
- **12-16:** 5 + M damage")
     = VDict [("characteristic", v "Might");
              ("tiers",
               VList [VDict [("tier", v "average"); ("range", v "12-16");
                             ("damage", VDict [("formula", v "5 + M"); ("type", VNone)]);
                             ("effects", VList [])]])].
Proof. split; vm_compute; reflexivity. Qed.

(** C6, witness *)
Lemma modes_agree_on_tier_results_witness :
  forallb (passes_prefilter ascii_db) (split_chr 59%N (py "8 damage; target is weakened"))
  = true
  /\ existsb (letter_typed ascii_db) (split_chr 59%N (py "8 damage; target is weakened"))
     = false
  /\ tier_record (py "17+") (table_result ascii_db (py "8 damage; target is weakened"))
     = tier_record (py "17+") (embedded_result ascii_db (py "8 damage; target is weakened")).
Proof.
  assert (H1 : forallb (passes_prefilter ascii_db)
                 (split_chr 59%N (py "8 damage; target is weakened")) = true)
    by (vm_compute; reflexivity).
  assert (H2 : existsb (letter_typed ascii_db)
                 (split_chr 59%N (py "8 damage; target is weakened")) = false)
    by (vm_compute; reflexivity).
  split; [exact H1 | split; [exact H2|]].
  exact (proj1 (modes_agree_on_tier_results ascii_db (py "17+") _ H1 H2)).
Defined.


Example embedded_fold :
  embedded_result ascii_db (py "5 + M damage; prone")
  = (VDict [("formula", v "5 + M"); ("type", VNone)], [py "prone"]).
Proof. vm_compute. reflexivity. Qed.

(** ** Records *)

(** C3, the failing inputs. A stand-alone document with an effect before and
    an effect after the power roll: both are populated, [after] is missing
    from [component_order] (the embedded parser lists it for the same body).
    An embedded ability with a "Power Roll" marker and no tier: the record
    has no [power_roll], [component_order] lists it. *)
Theorem component_order_failing_inputs :
  effects_of (parse_ability_file ascii_db None both_effects_file)
  = VDict [("before", v "You shift 1."); ("after", v "The target is slowed.")]
  /\ order_of (parse_ability_file ascii_db None both_effects_file)
     = names ["before"; "power_roll"]
  /\ dget "component_order" (parse_embedded_ability ascii_db both_effects_body (py "Strike"))
     = names ["before"; "after"; "power_roll"]
  /\ parse_embedded_ability ascii_db
       (py "**Power Roll + Might:**
Roll and hope.") (py "Gamble")
     = [("name", v "Gamble");
        ("flavor_text", v "Power Roll + Might:");
        ("component_order", names ["power_roll"])].
Proof. repeat split; vm_compute; reflexivity. Qed.

(** C7, counterexample: the record of an embedded ability without sections
    has none of the fields [effects], [power_roll], [persistent],
    [stat_block] and [cost_options]; the record of a stand-alone document
    without stat block has no [stat_block] and no [cost_options]. *)
Lemma absent_fields_are_omitted :
  parse_embedded_ability ascii_db (py "Just text.") (py "Plain") = [("name", v "Plain")]
  /\ parse_ability_file ascii_db None
       {| file_name := py "plain.md";
          file_content := Some (py "---
item_id: plain
---
Just text.") |}
     = Returns
         (VDict [("item_id", v "plain"); ("base_id", v "plain");
                 ("item_name", VNone); ("item_index", VNone);
                 ("source", v "mcdm.heroes.v1"); ("type", v "ability");
                 ("class", VNone); ("level", VNone);
                 ("ability_type", VNone); ("feature_type", VNone);
                 ("cost", VNone); ("targeting", VNone); ("flavor", VNone);
                 ("power_roll", VNone); ("effects", VNone); ("persistent", VNone)]).
Proof. split; vm_compute; reflexivity. Qed.

(** ** Documents *)

(** C9, counterexample: a document with front matter and no recoverable
    section is not skipped; the parser returns a record for it, with
    [power_roll], [effects] and [persistent] set to [None], and the batch
    emits that record. *)
Lemma document_without_sections_yields_record :
  parse_abilities_directory ascii_db None [plain_file]
  = Returns
      [VDict [("item_id", v "plain"); ("base_id", v "plain");
              ("item_name", VNone); ("item_index", VNone);
              ("source", v "mcdm.heroes.v1"); ("type", v "ability");
              ("class", VNone); ("level", VNone);
              ("ability_type", VNone); ("feature_type", VNone);
              ("cost", VNone); ("targeting", VNone); ("flavor", VNone);
              ("power_roll", VNone); ("effects", VNone); ("persistent", VNone)]].
Proof. vm_compute. reflexivity. Qed.

(** C9, witness: an unreadable file and a file without front matter between
    two readable documents. *)
Lemma unreadable_or_no_frontmatter_skipped_witness :
  parse_ability_file ascii_db None unreadable_file = Returns VNone
  /\ parse_ability_file ascii_db None bare_file = Returns VNone
  /\ parse_abilities_directory ascii_db None
       ([plain_file] ++ unreadable_file :: [bare_file; both_effects_file])
     = parse_abilities_directory ascii_db None [plain_file; both_effects_file]
  /\ exists r, parse_ability_file ascii_db None plain_file = Returns (VDict r)
               /\ truthy (VDict r) = true
               /\ dget "power_roll" r = VNone.
Proof.
  destruct (unreadable_or_no_frontmatter_skipped ascii_db None) as (H1 & H2 & _ & H3 & H4).
  assert (Hb : parse_ability_file ascii_db None bare_file = Returns VNone).
  { apply (H2 (py "bare.md") (py "Just text.")). vm_compute. reflexivity. }
  split; [apply H1 | split; [exact Hb | split]].
  - rewrite (H3 unreadable_file [plain_file] [bare_file; both_effects_file] (H1 _)).
    exact (H3 bare_file [plain_file] [both_effects_file] Hb).
  - destruct (H4 (py "plain.md") (py "---
item_id: plain
---
Just text.") (py "Just text.") [("item_id", v "plain")]) as (r & Hr & Ht & Hp & _).
    + vm_compute. reflexivity.
    + reflexivity.
    + right. exists (py "plain"). vm_compute. reflexivity.
    + exists r. split; [exact Hr | split; [exact Ht|]].
      rewrite Hp. vm_compute. reflexivity.
Defined.

Example embedded_blocks :
  extract_abilities_from_content ascii_db
    (py "Intro.

> ###### Shout
> **Effect:** Allies cheer.

> ###### Plain
> Just text.")
  = [[("name", v "Shout");
      ("flavor_text", v "Effect:");
      ("effects", VDict [("effect", v "Allies cheer.")]);
      ("component_order", names ["effect"])];
     [("name", v "Plain")]].
Proof. vm_compute. reflexivity. Qed.

(** An [item_id] that is a list reaches [re.sub], which raises; nothing
    catches the exception, in the parser or in the batch. *)
Example list_item_id_raises :
  parse_abilities_directory ascii_db None
    [plain_file;
     {| file_name := py "odd.md";
        file_content := Some (py "---
item_id:
  - odd
---
Just text.") |}]
  = Raises.
Proof. vm_compute. reflexivity. Qed.

(** ** Further functions *)

Example further_patterns_compile : forallb compiles further_patterns = true.
Proof. vm_compute. reflexivity. Qed.

Example slugs :
  slugify ascii_db (py "Black Ash -- Teleport!") = py "black-ash-teleport"
  /\ slugify ascii_db (py "  It's a  _Test_ ") = py "its-a-_test_"
  /\ slugify ascii_db (py "!!!") = [].
Proof. repeat split; vm_compute; reflexivity. Qed.

Example links_removed :
  strip_markdown_links ascii_db (py "See [Might](../might.md) and [x][y].")
  = py "See Might and x.".
Proof. vm_compute. reflexivity. Qed.

(** The two parsers of front matter, without PyYAML, on a key without a
    value: a list for [extract_frontmatter], a text for [parse_frontmatter],
    which also trims the body. *)
Example key_without_value :
  extract_frontmatter ascii_db None (py "---
keywords:
level: 3
---
Body ")
  = (VDict [("keywords", VList []); ("level", v "3")], py "Body ")
  /\ parse_frontmatter ascii_db None (py "---
keywords:
level: 3
---
Body ")
     = (VDict [("keywords", v ""); ("level", v "3")], py "Body").
Proof. split; vm_compute; reflexivity. Qed.

Example table_with_short_row :
  extract_tables ascii_db (py "#### Skills Table

| Skill | Use |
|---|---|
| Climb | Walls |
| Odd |
")
  = [VDict [("name", v "Skills Table");
            ("headers", VList [v "Skill"; v "Use"]);
            ("data", VList [VDict [("Skill", v "Climb"); ("Use", v "Walls")]])]].
Proof. vm_compute. reflexivity. Qed.

(** X2, witness: the effects of "8 damage;  target is weakened ; " *)
Lemma tier_effects_trimmed_nonempty_witness :
  lower ascii_db [] = []
  /\ snd (embedded_result ascii_db (py "8 damage;  target is weakened ; "))
     = [py "target is weakened"]
  /\ Forall (fun e => strip ascii_db e = e /\ nonempty e = true)
            (snd (embedded_result ascii_db (py "8 damage;  target is weakened ; "))).
Proof.
  split; [reflexivity | split; [vm_compute; reflexivity|]].
  destruct (tier_effects_trimmed_nonempty ascii_db
              (py "8 damage;  target is weakened ; ")) as [_ H].
  apply H. reflexivity.
Defined.

(** X7, witness: a document whose [item_id] is a list *)
Lemma fallback_frontmatter_texts_witness :
  exists fm,
    fst (extract_frontmatter ascii_db None (py "---
item_id:
- strike
---
Text.")) = VDict fm
    /\ NoDup (keys fm)
    /\ forallb (fun kv => text_or_texts (snd kv)) fm = true
    /\ (parse_ability_file ascii_db None
          {| file_name := py "strike.md";
             file_content := Some (py "---
item_id:
- strike
---
Text.") |} = Raises
        <-> exists x l, dget "item_id" fm = VList (x :: l)).
Proof.
  exact (fallback_frontmatter_texts ascii_db None (py "strike.md") (py "---
item_id:
- strike
---
Text.") eq_refl).
Defined.

(** X10, witness: "2d6  +A fire damage" *)
Lemma formula_is_normalised_witness :
  primary_ok ascii_db (py "2d6  +A fire damage") = true
  /\ truthy (parse_damage_clause ascii_db (py "2d6  +A fire damage")) = true
  /\ vget "formula" (parse_damage_clause ascii_db (py "2d6  +A fire damage")) = v "2d6 + A"
  /\ exists c, vget "formula" (parse_damage_clause ascii_db (py "2d6  +A fire damage"))
               = VStr (normalize_formula ascii_db c).
Proof.
  assert (H1 : primary_ok ascii_db (py "2d6  +A fire damage") = true)
    by (vm_compute; reflexivity).
  assert (H2 : truthy (parse_damage_clause ascii_db (py "2d6  +A fire damage")) = true)
    by (vm_compute; reflexivity).
  split; [exact H1 | split; [exact H2 | split; [vm_compute; reflexivity|]]].
  destruct (formula_is_normalised ascii_db [] (py "2d6  +A fire damage"))
    as (_ & _ & _ & _ & H).
  exact (H H1 H2).
Defined.

(** X11, witness: a text without brackets, and one with a link *)
Lemma links_only_removed_witness :
  forallb no_bracket (py "plain text") = true
  /\ strip_markdown_links ascii_db (py "plain text") = py "plain text"
  /\ forallb ascii_alpha (py "see[Might](m)") = false
  /\ forallb (fun c => negb (c =? 40)%N) (py "a [b] c") = true
  /\ forallb (fun c => negb (c =? 40)%N) (strip_markdown_links ascii_db (py "a [b] c"))
     = true.
Proof.
  assert (H1 : forallb no_bracket (py "plain text") = true) by reflexivity.
  assert (H2 : forallb (fun c => negb (c =? 40)%N) (py "a [b] c") = true) by reflexivity.
  split; [exact H1 | split; [|split; [reflexivity | split; [exact H2|]]]].
  - destruct (links_only_removed ascii_db (py "plain text")) as [H _].
    exact (H H1).
  - destruct (links_only_removed ascii_db (py "a [b] c")) as [_ H].
    exact (H _ H2).
Defined.

